(** * Reflexo-V3: appointment services, status view, DIU-type migration and
    role/permission link table, embedded and verified.

    Each module below embeds one source file:
    - [AppointmentService]  : appointments_status/services/appointment_service.py
    - [AppointmentStatusViewSet] : appointments_status/views/appointment_status.py
    - [Migration0011]       : histories_configurations/migrations/0011_migrate_diu_type_to_fk.py
    - [RoleHasPermission]   : architect/models/role_has_permission.py

    Python control flow is kept as it is written: a [try]/[except] becomes
    [try_except] over a small exception monad, ORM query sets become lists of
    rows filtered in order, dictionaries become [gmap string _]. *)

From Stdlib Require Import ZArith Lia Ascii String.
From stdpp Require Import base option list sorting gmap strings pretty fin_maps.

Open Scope string_scope.
Open Scope Z_scope.

(** ** Python values, exceptions and responses *)

Module Py.

(** The values a loosely typed dictionary of this code base carries. *)
Inductive value :=
  | PNone
  | PInt (n : Z)
  | PStr (s : string).

#[global] Instance value_eq_dec : EqDecision value.
Proof. solve_decision. Defined.

(** [if v:] *)
Definition truthy (v : value) : bool :=
  match v with
  | PNone => false
  | PInt n => negb (n =? 0)
  | PStr s => negb (String.eqb s "")
  end.

(** [d.get(k)]: a missing key reads as [None]. *)
Definition dict_get (d : gmap string value) (k : string) : value :=
  default PNone (d !! k).

(** [k in d] *)
Definition dict_in (k : string) (d : gmap string value) : bool :=
  bool_decide (is_Some (d !! k)).

(** [if d:] for a dictionary argument whose default is [None]. *)
Definition dict_truthy {A} (d : option (gmap string A)) : bool :=
  match d with
  | None => false
  | Some m => negb (bool_decide (m = ∅))
  end.

(** Exception classes the embedded code can meet, with [str(e)]. *)
Inductive exn :=
  | ValueError (msg : string)
  | TypeError (msg : string)
  | ValidationError (msg : string)
  | OverflowError (msg : string)
  | DoesNotExist (model : string)
  | MultipleObjectsReturned (model : string)
  | Http404 (msg : string)
  | DatabaseError (msg : string).

Definition str (e : exn) : string :=
  match e with
  | ValueError m | TypeError m | ValidationError m | OverflowError m
  | Http404 m | DatabaseError m => m
  | DoesNotExist model => model +:+ " matching query does not exist."
  | MultipleObjectsReturned model =>
      "get() returned more than one " +:+ model
  end.

(** A computation either returns or raises. *)
Inductive result (A : Type) :=
  | Ret (a : A)
  | Raise (e : exn).
Arguments Ret {A} a.
Arguments Raise {A} e.

Definition bind {A B} (c : result A) (k : A -> result B) : result B :=
  match c with
  | Ret a => k a
  | Raise e => Raise e
  end.

(** [try: c  except Exception as e: h e] *)
Definition try_except {A} (c : result A) (h : exn -> A) : A :=
  match c with
  | Ret a => a
  | Raise e => h e
  end.

(** Code that also writes to a store of type [S]: the store it leaves
    behind and how it left. Writes made before an exception stay, unless a
    transaction rolls them back. *)
Definition io (S A : Type) : Type := S -> S * result A.

Definition io_ret {S A} (a : A) : io S A := fun s => (s, Ret a).

Definition io_bind {S A B} (c : io S A) (k : A -> io S B) : io S B :=
  fun s => match c s with
           | (s', Ret a) => k a s'
           | (s', Raise e) => (s', Raise e)
           end.

(** a query: reads the store, may raise *)
Definition query {S A} (q : S -> result A) : io S A := fun s => (s, q s).

(** a write that cannot fail *)
Definition write {S} (w : S -> S) : io S unit := fun s => (w s, Ret tt).

Definition raise {S A} (e : exn) : io S A := fun s => (s, Raise e).

(** [try: c  except Exception as e: h e] around code that writes *)
Definition io_try {S A} (c : io S A) (h : exn -> io S A) : io S A :=
  fun s => match c s with
           | (s', Ret a) => (s', Ret a)
           | (s', Raise e) => h e s'
           end.

(** [@transaction.atomic]: the writes of the decorated function are
    committed when it returns and rolled back when an exception leaves
    it. *)
Definition atomic {S A} (c : io S A) : io S A :=
  fun s => match c s with
           | (s', Ret a) => (s', Ret a)
           | (_, Raise e) => (s, Raise e)
           end.

(** [except Model.DoesNotExist] *)
Definition is_DoesNotExist (model : string) (e : exn) : bool :=
  match e with
  | DoesNotExist m => String.eqb m model
  | _ => false
  end.

End Py.

Import Py.

#[global] Instance result_ret : MRet result := @Ret.
#[global] Instance result_bind : MBind result := fun A B k c => Py.bind c k.
#[global] Instance io_mret {S} : MRet (io S) := fun A => @io_ret S A.
#[global] Instance io_mbind {S} : MBind (io S) := fun A B k c => io_bind c k.

(** ** HTTP status codes of [rest_framework.status] *)

Definition HTTP_200_OK : Z := 200.
Definition HTTP_201_CREATED : Z := 201.
Definition HTTP_400_BAD_REQUEST : Z := 400.
Definition HTTP_404_NOT_FOUND : Z := 404.
Definition HTTP_500_INTERNAL_SERVER_ERROR : Z := 500.

(** ** Calendar arithmetic of [datetime]

    A [date] is its proleptic Gregorian ordinal ([date.toordinal()]), a
    [time] is the number of microseconds since midnight and a naive
    [datetime] the number of microseconds since ordinal 0, 00:00. *)

Module Datetime.

Definition US_PER_MINUTE : Z := 60 * 1000000.
Definition US_PER_DAY : Z := 24 * 60 * US_PER_MINUTE.

(** [date.min.toordinal()] and [date.max.toordinal()] (years 1..9999). *)
Definition MIN_ORDINAL : Z := 1.
Definition MAX_ORDINAL : Z := 3652059.

(** [time.min] *)
Definition time_min : Z := 0.

(** [datetime.combine(date, time)] *)
Definition combine (date time : Z) : Z := date * US_PER_DAY + time.

(** [dt.date()] and [dt.time()] *)
Definition date_of (dt : Z) : Z := dt `div` US_PER_DAY.
Definition time_of (dt : Z) : Z := dt `mod` US_PER_DAY.

Definition representable (dt : Z) : bool :=
  (MIN_ORDINAL <=? date_of dt) && (date_of dt <=? MAX_ORDINAL).

(** [dt + timedelta(...)], the offset given in microseconds: the sum must
    stay within [datetime.min, datetime.max]. *)
Definition add_us (dt us : Z) : result Z :=
  if representable (dt + us) then Ret (dt + us)
  else Raise (OverflowError "date value out of range").

Definition add_minutes (dt minutes : Z) : result Z :=
  add_us dt (minutes * US_PER_MINUTE).

Definition add_days (dt days : Z) : result Z :=
  add_us dt (days * US_PER_DAY).

(** [d + timedelta(days=n)] on a [date]. *)
Definition date_add_days (d n : Z) : result Z :=
  if (MIN_ORDINAL <=? d + n) && (d + n <=? MAX_ORDINAL) then Ret (d + n)
  else Raise (OverflowError "date value out of range").

(** [time(h, m)] for writing examples. *)
Definition hm (h m : Z) : Z := (h * 60 + m) * US_PER_MINUTE.

End Datetime.

(** ** The entity store

    The model classes live in [..models], outside the embedded files; the
    records below carry exactly the fields the embedded code reads or
    writes. Tables are lists of rows in storage order. *)

Module Models.

(** Modelled from the spec: the model class [Appointment] is not among the
    embedded files. Section 3: identity, patient and therapist references,
    [appointment_date], [hour] (a time of day), a nullable status reference
    and the soft-delete timestamp ([None] = active). The date column holds
    a point on the time line (see [prep_date] and [make_aware] below). *)
Record Appointment := mkAppointment {
  id : Z;
  patient : option Z;
  therapist : option Z;
  appointment_date : Z;
  hour : Z;
  appointment_status : option Z;
  deleted_at : option Z;
}.

(** Modelled from the spec: the model class [Ticket]; one-to-one
    appointment reference, generated ticket number, soft-delete
    timestamp. *)
Record Ticket := mkTicket {
  ticket_id : Z;
  ticket_appointment : Z;
  ticket_number : string;
  ticket_deleted_at : option Z;
}.

(** Modelled from the spec: the model class [AppointmentStatus]; identity,
    name, soft-delete timestamp. *)
Record AppointmentStatus := mkAppointmentStatus {
  status_id : Z;
  name : string;
  status_deleted_at : option Z;
}.

Record Store := mkStore {
  appointments : list Appointment;
  tickets : list Ticket;
  statuses : list AppointmentStatus;
}.

#[global] Instance Appointment_eq_dec : EqDecision Appointment.
Proof. solve_decision. Defined.
#[global] Instance Ticket_eq_dec : EqDecision Ticket.
Proof. solve_decision. Defined.
#[global] Instance AppointmentStatus_eq_dec : EqDecision AppointmentStatus.
Proof. solve_decision. Defined.

(** [instance.deleted_at = t] *)
Definition appointment_deleted (a : Appointment) (t : Z) : Appointment :=
  mkAppointment (id a) (patient a) (therapist a) (appointment_date a)
    (hour a) (appointment_status a) (Some t).

Definition ticket_deleted (k : Ticket) (t : Z) : Ticket :=
  mkTicket (ticket_id k) (ticket_appointment k) (ticket_number k) (Some t).

(** [instance.save()] of a stored instance: the row with its primary key
    takes the instance's fields. *)
Definition save_appointment (a : Appointment) (rows : list Appointment)
    : list Appointment :=
  map (fun r => if bool_decide (id r = id a) then a else r) rows.

Definition save_ticket (k : Ticket) (rows : list Ticket) : list Ticket :=
  map (fun r => if bool_decide (ticket_id r = ticket_id k) then k else r) rows.

(** [Model.objects.get(...)] over the rows that satisfy the lookup: exactly
    one row is returned, none raises [DoesNotExist], several raise
    [MultipleObjectsReturned]. *)
Definition objects_get {A} (model : string) (rows : list A) : result A :=
  match rows with
  | [] => Raise (DoesNotExist model)
  | [r] => Ret r
  | _ => Raise (MultipleObjectsReturned model)
  end.

End Models.

Import Models.

(** ** appointments_status/services/appointment_service.py *)

Module AppointmentService.

(** What a [Response] of this service carries: the dictionary handed to
    [Response(...)], one constructor per shape, and the status code.
    [serializer.data] of a query set is the list of its rows. *)
Inductive Body :=
  | BError (error : string)
  | BInvalid (error : string) (details : string)
  | BList (count : nat) (results : list Appointment)
  | BAppointment (appointment : Appointment)
  | BCreated (message : string) (appointment : Appointment)
           (ticket_number : string)
  | BMessage (message : string)
  | BAvailability (is_available : bool) (conflicting_appointments : nat).

Record Response := response { data : Body; status : Z }.

#[global] Instance Body_eq_dec : EqDecision Body.
Proof. solve_decision. Defined.
#[global] Instance Response_eq_dec : EqDecision Response.
Proof. solve_decision. Defined.

(** The process-wide collaborators the service reads: Django settings, the
    clock, [zoneinfo], [datetime.fromisoformat] and the conversions the
    ORM applies to lookup values. They are not code of this repository
    and stay abstract. *)
Record Env := mkEnv {
  (** [getattr(settings, 'TIME_ZONE', 'UTC')] *)
  TIME_ZONE : string;
  (** whether [from zoneinfo import ZoneInfo] succeeded *)
  ZoneInfo_available : bool;
  (** [timezone.make_aware(naive, tz)], [tz = None] for the default zone,
      as the value the [appointment_date] column is compared with *)
  make_aware : Z -> option string -> Z;
  (** a [date] lookup value as the [appointment_date] column stores it *)
  prep_date : Z -> Z;
  (** [datetime.fromisoformat(s).date()]; [None] when it raises ValueError *)
  fromisoformat : string -> option Z;
  (** the ORM's conversion of a string to a value of the date column;
      [None] when it raises ValidationError *)
  to_python_date : string -> option Z;
  (** [int(s)] as applied to a string given for a key column *)
  int_of_str : string -> option Z;
  (** [timezone.now().date()] and [timezone.now()] *)
  today : Z;
  now : Z;
}.

Section Queries.
Variable env : Env.

(** *** ORM lookups *)

(** [filter(fk=v)] on a nullable key column: the predicate on the column,
    or the exception field preparation raises. *)
Definition fk_exact (v : value) : result (option Z -> bool) :=
  match v with
  | PInt n => Ret (fun c => bool_decide (c = Some n))
  | PNone => Ret (fun c => bool_decide (c = None))
  | PStr s =>
      match int_of_str env s with
      | Some n => Ret (fun c => bool_decide (c = Some n))
      | None =>
          Raise (ValueError
                   ("Field 'id' expected a number but got '" +:+ s +:+ "'."))
      end
  end.

(** [datetime.fromisoformat(v).date()] on a dictionary value. *)
Definition parse_iso_date (v : value) : result Z :=
  match v with
  | PStr s =>
      match fromisoformat env s with
      | Some d => Ret d
      | None => Raise (ValueError ("Invalid isoformat string: '" +:+ s +:+ "'"))
      end
  | _ => Raise (TypeError "fromisoformat: argument must be str")
  end.

(** [filter(appointment_date=v)] *)
Definition date_exact (v : value) : result (Z -> bool) :=
  match v with
  | PNone => Ret (fun _ => false)
  | PInt _ => Raise (TypeError "expected string or bytes-like object")
  | PStr s =>
      match to_python_date env s with
      | Some d => Ret (fun c => bool_decide (c = prep_date env d))
      | None => Raise (ValidationError ("'" +:+ s +:+ "' value has an invalid date format."))
      end
  end.

(** [qs.filter(fk=d[k])] when the guard [g] holds, [qs] otherwise. *)
Definition filter_fk (g : bool) (col : Appointment -> option Z) (v : value)
    (qs : list Appointment) : result (list Appointment) :=
  if g then p ← fk_exact v; Ret (filter (fun a => p (col a) = true) qs)
  else Ret qs.

(** [qs[start:end]]: Django refuses negative bounds. *)
Definition slice {A} (qs : list A) (start stop : Z) : result (list A) :=
  if (start <? 0) || (stop <? 0)
  then Raise (ValueError "Negative indexing is not supported.")
  else Ret (take (Z.to_nat (stop - start)) (drop (Z.to_nat start) qs)).

(** [order_by('-appointment_date', '-hour')]. The database leaves the
    order of rows with the same date and hour open, and may choose it anew
    for every query; [order_by_date_hour_desc] returns one of the orders
    it may choose. *)
Definition newest_first (a b : Appointment) : Prop :=
  appointment_date b < appointment_date a
  ∨ (appointment_date a = appointment_date b ∧ hour b <= hour a).

#[local] Instance newest_first_dec a b : Decision (newest_first a b).
Proof. unfold newest_first. apply _. Defined.

Definition order_by_date_hour_desc (qs : list Appointment) : list Appointment :=
  merge_sort newest_first qs.

(** [pagination.get(k, d)] *)
Definition page_param (p : gmap string Z) (k : string) (d : Z) : Z :=
  default d (p !! k).

(** *** check_availability *)

(** [Appointment.objects.filter(appointment_date=date,
    deleted_at__isnull=True).exclude(hour__gte=end).exclude(hour__lte=start)] *)
Definition conflicting (date start_time end_time : Z)
    (rows : list Appointment) : list Appointment :=
  filter (fun a => ¬ (hour a <= start_time))
    (filter (fun a => ¬ (end_time <= hour a))
       (filter (fun a => appointment_date a = prep_date env date
                         ∧ deleted_at a = None) rows)).

Definition check_availability (db : Store) (date hour duration : Z)
    : Response :=
  try_except
    (let start_datetime := Datetime.combine date hour in
     end_datetime ← Datetime.add_minutes start_datetime duration;
     let conflicting_appointments :=
       conflicting date (Datetime.time_of start_datetime)
         (Datetime.time_of end_datetime) (appointments db) in
     let is_available :=
       negb (bool_decide (conflicting_appointments ≠ [])) in
     Ret (response
            (BAvailability is_available
               (if negb is_available
                then length conflicting_appointments else 0%nat))
            HTTP_200_OK))
    (fun e =>
       response (BError ("Error al verificar disponibilidad: " +:+ str e))
         HTTP_500_INTERNAL_SERVER_ERROR).

(** *** list_all *)

(** The query set of [list_all] before pagination (lines 189-200). *)
Definition list_all_queryset (db : Store)
    (filters : option (gmap string value)) : result (list Appointment) :=
  let queryset := filter (fun a => deleted_at a = None) (appointments db) in
  if dict_truthy filters then
    let f := default ∅ filters in
    qs ← (if dict_in "appointment_date" f
          then p ← date_exact (dict_get f "appointment_date");
               Ret (filter (fun a => p (appointment_date a) = true) queryset)
          else Ret queryset);
    qs ← filter_fk (dict_in "appointment_status" f) appointment_status
           (dict_get f "appointment_status") qs;
    qs ← filter_fk (dict_in "patient" f) patient (dict_get f "patient") qs;
    filter_fk (dict_in "therapist" f) therapist (dict_get f "therapist") qs
  else Ret queryset.

(** The count is taken from [queryset] as it is when the response is
    built: after the slice, when there is one. *)
Definition list_all (db : Store) (filters : option (gmap string value))
    (pagination : option (gmap string Z)) : Response :=
  try_except
    (queryset ← list_all_queryset db filters;
     queryset ←
       (if dict_truthy pagination then
          let p := default ∅ pagination in
          let page := page_param p "page" 1 in
          let page_size := page_param p "page_size" 10 in
          let start := (page - 1) * page_size in
          let stop := start + page_size in
          slice queryset start stop
        else Ret queryset);
     Ret (response (BList (length queryset) queryset) HTTP_200_OK))
    (fun e =>
       response (BError ("Error al listar las citas: " +:+ str e))
         HTTP_500_INTERNAL_SERVER_ERROR).

(** *** get_completed_appointments *)

(** [try: AppointmentStatus.objects.get(name=label).id
    except AppointmentStatus.DoesNotExist: None] *)
Definition status_id_by_name (db : Store) (label : string)
    : result (option Z) :=
  match objects_get "AppointmentStatus"
          (filter (fun s => name s = label) (statuses db)) with
  | Ret st => Ret (Some (status_id st))
  | Raise e =>
      if is_DoesNotExist "AppointmentStatus" e then Ret None else Raise e
  end.

(** [if completed_status_id:] on an optional primary key *)
Definition id_truthy (i : option Z) : bool :=
  match i with
  | Some n => negb (n =? 0)
  | None => false
  end.

(** The status filter used when the caller names no status: the resolved
    status row, or the dates before today. *)
Definition completed_or_past (completed_status_id : option Z)
    (qs : list Appointment) : list Appointment :=
  if id_truthy completed_status_id
  then filter (fun a => appointment_status a = completed_status_id) qs
  else filter (fun a => appointment_date a < prep_date env (today env)) qs.

(** [timezone.make_aware(dt, tz) if tz else timezone.make_aware(dt)] *)
Definition aware (dt : Z) (tz : option string) : Z :=
  match tz with
  | Some z => make_aware env dt (Some z)
  | None => make_aware env dt None
  end.

(** The date window of the "completed" view (lines 303-349). *)
Definition date_window (f : gmap string value) (qs : list Appointment)
    : result (list Appointment) :=
  let tzname := TIME_ZONE env in
  let tz := if ZoneInfo_available env then Some tzname else None in
  let date_str := dict_get f "date" in
  if truthy date_str then
    base_date ← parse_iso_date date_str;
    let start_dt := Datetime.combine base_date Datetime.time_min in
    end_dt ← Datetime.add_days start_dt 1;
    let start_dt := aware start_dt tz in
    let end_dt := aware end_dt tz in
    Ret (filter (fun a => start_dt <= appointment_date a
                          ∧ appointment_date a < end_dt) qs)
  else
    let start_date := dict_get f "start_date" in
    let end_date := dict_get f "end_date" in
    if truthy start_date && truthy end_date then
      s_date ← parse_iso_date start_date;
      e_date ← parse_iso_date end_date;
      let start_dt := Datetime.combine s_date Datetime.time_min in
      e_next ← Datetime.date_add_days e_date 1;
      let end_dt := Datetime.combine e_next Datetime.time_min in
      let start_dt := aware start_dt tz in
      let end_dt := aware end_dt tz in
      Ret (filter (fun a => start_dt <= appointment_date a
                            ∧ appointment_date a < end_dt) qs)
    else if truthy start_date then
      s_date ← parse_iso_date start_date;
      let start_dt := Datetime.combine s_date Datetime.time_min in
      let start_dt := aware start_dt tz in
      Ret (filter (fun a => start_dt <= appointment_date a) qs)
    else if truthy end_date then
      e_date ← parse_iso_date end_date;
      e_next ← Datetime.date_add_days e_date 1;
      let end_dt := Datetime.combine e_next Datetime.time_min in
      let end_dt := aware end_dt tz in
      Ret (filter (fun a => appointment_date a < end_dt) qs)
    else Ret qs.

(** The filters after the status filter: patient, therapist and the date
    window (lines 298-349). *)
Definition other_filters (f : gmap string value) (qs : list Appointment)
    : result (list Appointment) :=
  qs ← filter_fk (dict_in "patient" f && truthy (dict_get f "patient"))
         patient (dict_get f "patient") qs;
  qs ← filter_fk (dict_in "therapist" f && truthy (dict_get f "therapist"))
         therapist (dict_get f "therapist") qs;
  date_window f qs.

(** The query set of the "completed" view before pagination
    (lines 275-357). *)
Definition completed_queryset (db : Store)
    (filters : option (gmap string value)) : result (list Appointment) :=
  completed_status_id ← status_id_by_name db "Completado";
  let queryset := filter (fun a => deleted_at a = None) (appointments db) in
  if dict_truthy filters then
    let f := default ∅ filters in
    qs ← (if dict_in "appointment_status" f
          then filter_fk true appointment_status
                 (dict_get f "appointment_status") queryset
          else Ret (completed_or_past completed_status_id queryset));
    other_filters f qs
  else Ret (completed_or_past completed_status_id queryset).

Definition get_completed_appointments (db : Store)
    (filters : option (gmap string value))
    (pagination : option (gmap string Z)) : Response :=
  try_except
    (queryset ← completed_queryset db filters;
     let total := length queryset in
     queryset ←
       (if dict_truthy pagination then
          let p := default ∅ pagination in
          let page := page_param p "page" 1 in
          let page_size := page_param p "page_size" 10 in
          let start := (page - 1) * page_size in
          let stop := start + page_size in
          slice (order_by_date_hour_desc queryset) start stop
        else Ret queryset);
     Ret (response (BList total queryset) HTTP_200_OK))
    (fun e =>
       response (BError ("Error al obtener citas completadas: " +:+ str e))
         HTTP_500_INTERNAL_SERVER_ERROR).

(** *** get_by_id *)

Definition get_by_id (db : Store) (appointment_id : Z) : Response :=
  try_except
    (appointment ←
       objects_get "Appointment"
         (filter (fun a => id a = appointment_id ∧ deleted_at a = None)
            (appointments db));
     Ret (response (BAppointment appointment) HTTP_200_OK))
    (fun e =>
       if is_DoesNotExist "Appointment" e
       then response (BError "Cita no encontrada") HTTP_404_NOT_FOUND
       else response (BError ("Error al obtener la cita: " +:+ str e))
              HTTP_500_INTERNAL_SERVER_ERROR).

End Queries.

(** *** The write paths *)

Section Writes.
Variable env : Env.

(** [AppointmentSerializer] is outside the embedded files. The service
    uses three things of it: [is_valid()], [errors], and [save()], which
    inserts the row through the ORM and thereby runs the [post_save]
    receivers, the Ticket creator among them. [save] is given as the
    store it leaves and the instance it returns or exception it
    raises. *)
Variable is_valid : gmap string value -> Store -> bool.
Variable errors : gmap string value -> Store -> string.
Variable save : gmap string value -> io Store Appointment.

Definition required_fields : list string :=
  ["patient"; "appointment_date"; "hour"].

(** The body of [create], as the decorator sees it. *)
Definition create_body (data : gmap string value) : io Store Response :=
  io_try
    (match List.find (fun field => negb (dict_in field data)) required_fields with
     | Some field =>
         mret (response (BError ("El campo " +:+ field +:+ " es requerido"))
                 HTTP_400_BAD_REQUEST)
     | None =>
         valid ← query (fun db => Ret (is_valid data db));
         if valid : bool then
           appointment ← save data;
           io_try
             (ticket ← query (fun db =>
                objects_get "Ticket"
                  (filter (fun t => ticket_appointment t = id appointment)
                     (tickets db)));
              mret (response
                      (BCreated "Cita creada exitosamente con ticket automático"
                         appointment (ticket_number ticket))
                      HTTP_201_CREATED))
             (fun e =>
                if is_DoesNotExist "Ticket" e
                then mret (response (BError "Error al crear el ticket automático")
                             HTTP_500_INTERNAL_SERVER_ERROR)
                else raise e)
         else
           details ← query (fun db => Ret (errors data db));
           mret (response (BInvalid "Datos inválidos" details)
                   HTTP_400_BAD_REQUEST)
     end)
    (fun e =>
       mret (response (BError ("Error al crear la cita: " +:+ str e))
               HTTP_500_INTERNAL_SERVER_ERROR)).

(** [@transaction.atomic def create(self, data)] *)
Definition create (data : gmap string value) : io Store Response :=
  atomic (create_body data).

(** Modelled from the spec: [Appointment.soft_delete()] and
    [Ticket.soft_delete()] are model methods outside the embedded files;
    a soft delete "marks a timestamp rather than removing the record".
    The row of the instance gets [deleted_at] set to the current time and
    no row is removed. *)
Definition soft_delete_appointment (a : Appointment) : io Store unit :=
  write (fun db =>
    mkStore (save_appointment (appointment_deleted a (now env)) (appointments db))
      (tickets db) (statuses db)).

Definition soft_delete_ticket (t : Ticket) : io Store unit :=
  write (fun db =>
    mkStore (appointments db)
      (save_ticket (ticket_deleted t (now env)) (tickets db))
      (statuses db)).

Definition delete (appointment_id : Z) : io Store Response :=
  io_try
    (appointment ← query (fun db =>
       objects_get "Appointment"
         (filter (fun a => id a = appointment_id ∧ deleted_at a = None)
            (appointments db)));
     _ ← soft_delete_appointment appointment;
     _ ← io_try
           (ticket ← query (fun db =>
              objects_get "Ticket"
                (filter (fun t => ticket_appointment t = id appointment)
                   (tickets db)));
            soft_delete_ticket ticket)
           (fun e => if is_DoesNotExist "Ticket" e then mret tt else raise e);
     mret (response (BMessage "Cita eliminada exitosamente") HTTP_200_OK))
    (fun e =>
       if is_DoesNotExist "Appointment" e
       then mret (response (BError "Cita no encontrada") HTTP_404_NOT_FOUND)
       else mret (response (BError ("Error al eliminar la cita: " +:+ str e))
                    HTTP_500_INTERNAL_SERVER_ERROR)).

End Writes.

End AppointmentService.

(** ** appointments_status/views/appointment_status.py *)

Module AppointmentStatusViewSet.

(** The dictionaries [destroy] answers with. *)
Inductive Body :=
  | BError (error : string)
  | BMessage (message : string).

Record Response := response { data : Body; status : Z }.

#[global] Instance Body_eq_dec : EqDecision Body.
Proof. solve_decision. Defined.
#[global] Instance Response_eq_dec : EqDecision Response.
Proof. solve_decision. Defined.

(** [needle in hay] on strings *)
Definition contains (needle hay : string) : bool :=
  bool_decide (is_Some (String.index 0 needle hay)).

Section View.
(** [timezone.now()] *)
Variable now : Z.
(** The database error, if any, that counting the reverse relation
    raises (a schema without the status column); [None] when the
    relation can be counted. *)
Variable count_fault : option string.

(** [get_queryset()] *)
Definition get_queryset (db : Store) : list AppointmentStatus :=
  filter (fun s => status_deleted_at s = None) (statuses db).

(** [self.get_object()]: [get_object_or_404] on [get_queryset()] with the
    primary key of the URL (a DELETE request carries no query parameters
    for the filter backends). *)
Definition get_object (pk : Z) (db : Store) : result AppointmentStatus :=
  match filter (fun s => status_id s = pk) (get_queryset db) with
  | [] => Raise (Http404 "No AppointmentStatus matches the given query.")
  | [s] => Ret s
  | _ => Raise (MultipleObjectsReturned "AppointmentStatus")
  end.

(** [instance.appointment_set.count()] *)
Definition appointment_set_count (instance : AppointmentStatus) (db : Store)
    : result nat :=
  match count_fault with
  | Some msg => Raise (DatabaseError msg)
  | None =>
      Ret (length (filter (fun a => appointment_status a
                                    = Some (status_id instance))
                     (appointments db)))
  end.

(** [instance.deleted_at = timezone.now();
    instance.save(update_fields=['deleted_at'])] *)
Definition mark_deleted (instance : AppointmentStatus) : io Store unit :=
  write (fun db =>
    mkStore (appointments db) (tickets db)
      (map (fun r => if bool_decide (status_id r = status_id instance)
                     then mkAppointmentStatus (status_id r) (name r) (Some now)
                     else r) (statuses db))).

Definition in_use_message (instance : AppointmentStatus)
    (appointments_count : nat) : string :=
  "No se puede eliminar el estado '" +:+ name instance +:+ "' porque tiene "
  +:+ pretty appointments_count
  +:+ " cita(s) asociada(s). Primero asigne otro estado a esas citas.".

(** [destroy]; the inner [try] either returns the refusal ([Some]) or
    falls through to the soft delete ([None]). *)
Definition destroy (pk : Z) : io Store Response :=
  io_try
    (instance ← query (get_object pk);
     refusal ← io_try
       (appointments_count ← query (appointment_set_count instance);
        if (0 <? appointments_count)%nat
        then mret (Some (response
                           (BError (in_use_message instance appointments_count))
                           HTTP_400_BAD_REQUEST))
        else mret None)
       (fun db_error =>
          let error_msg := str db_error in
          if contains "Unknown column" error_msg
             && contains "appointment_status_id" error_msg
          then mret None
          else raise db_error);
     match refusal with
     | Some r => mret r
     | None =>
         _ ← mark_deleted instance;
         mret (response
                 (BMessage ("Estado '" +:+ name instance
                            +:+ "' eliminado correctamente"))
                 HTTP_200_OK)
     end)
    (fun e =>
       mret (response (BError ("Error al eliminar el estado: " +:+ str e))
               HTTP_500_INTERNAL_SERVER_ERROR)).

End View.

End AppointmentStatusViewSet.

(** ** histories_configurations/migrations/0011_migrate_diu_type_to_fk.py *)

Module Migration0011.

(** A row of [histories]: the primary key and the text column
    [diu_type_id] ([None] is SQL NULL). *)
Record History := mkHistory {
  history_id : Z;
  diu_type_id : option string;
}.

Record DIUType := mkDIUType {
  id : Z;
  name : string;
}.

(** The two tables and the next value of the [DIUType] key sequence. *)
Record Store := mkStore {
  histories : list History;
  diu_types : list DIUType;
  next_id : Z;
}.

#[global] Instance History_eq_dec : EqDecision History.
Proof. solve_decision. Defined.
#[global] Instance DIUType_eq_dec : EqDecision DIUType.
Proof. solve_decision. Defined.
#[global] Instance Store_eq_dec : EqDecision Store.
Proof. solve_decision. Defined.

(** [DISTINCT]: every value once. SQL does not fix the order in which the
    cursor hands the values over; they are listed here in the order of
    their first occurrence. *)
Fixpoint distinct (l : list string) : list string :=
  match l with
  | [] => []
  | x :: rest => x :: filter (fun y => y ≠ x) (distinct rest)
  end.

(** [SELECT DISTINCT diu_type_id FROM histories
    WHERE diu_type_id IS NOT NULL AND diu_type_id != ''] *)
Definition nonempty (h : History) : Prop :=
  match diu_type_id h with
  | Some v => v ≠ ""
  | None => False
  end.

#[global] Instance nonempty_dec h : Decision (nonempty h).
Proof. unfold nonempty. destruct (diu_type_id h); apply _. Defined.

Definition select_distinct (db : Store) : list string :=
  distinct (omap diu_type_id (filter nonempty (histories db))).

(** [DIUType.objects.get_or_create(name=value)] *)
Definition get_or_create (value : string) : io Store (DIUType * bool) :=
  fun db =>
    match filter (fun t => name t = value) (diu_types db) with
    | [] =>
        let t := mkDIUType (next_id db) value in
        (mkStore (histories db) (diu_types db ++ [t]) (next_id db + 1),
         Ret (t, true))
    | [t] => (db, Ret (t, false))
    | _ => (db, Raise (MultipleObjectsReturned "DIUType"))
    end.

(** [UPDATE histories SET diu_type_id = %s WHERE diu_type_id = %s] with
    [cursor.rowcount]; the integer parameter lands in the text column as
    its decimal writing. *)
Definition update_histories (new_id : Z) (old_value : string) : io Store nat :=
  fun db =>
    (mkStore
       (map (fun h => if bool_decide (diu_type_id h = Some old_value)
                      then mkHistory (history_id h) (Some (pretty new_id))
                      else h) (histories db))
       (diu_types db) (next_id db),
     Ret (length (filter (fun h => diu_type_id h = Some old_value)
                    (histories db)))).

(** First loop: one [DIUType] per value, collected in [diu_type_mapping]. *)
Fixpoint create_types (values : list string) (mapping : gmap string Z)
    : io Store (gmap string Z) :=
  match values with
  | [] => mret mapping
  | value :: rest =>
      '(diu_type, created) ← get_or_create value;
      create_types rest (<[value := id diu_type]> mapping)
  end.

(** Second loop: the updates, with the row count each one reports. *)
Fixpoint update_all (values : list string) (mapping : gmap string Z)
    : io Store (list nat) :=
  match values with
  | [] => mret []
  | old_value :: rest =>
      match mapping !! old_value with
      | Some new_id =>
          affected_rows ← update_histories new_id old_value;
          counts ← update_all rest mapping;
          mret (affected_rows :: counts)
      | None => update_all rest mapping
      end
  end.

(** [migrate_diu_type_data]: returns the row counts it prints. *)
Definition migrate_diu_type_data : io Store (list nat) :=
  unique_values ← query (fun db => Ret (select_distinct db));
  diu_type_mapping ← create_types unique_values ∅;
  update_all unique_values diu_type_mapping.

End Migration0011.

(** ** architect/models/role_has_permission.py *)

Module RoleHasPermission.

(** A row of [role_has_permissions]: the automatic primary key and the two
    foreign keys. *)
Record Row := mkRow {
  id : Z;
  permission : Z;
  role : Z;
}.

#[global] Instance Row_eq_dec : EqDecision Row.
Proof. solve_decision. Defined.

(** [class Meta] *)
Definition db_table : string := "role_has_permissions".
Definition unique_together : list string := ["permission"; "role"].

(** The column a field name denotes. *)
Definition column (field : string) (r : Row) : option Z :=
  if String.eqb field "permission" then Some (permission r)
  else if String.eqb field "role" then Some (role r)
  else if String.eqb field "id" then Some (id r)
  else None.

(** The key of the unique index the schema editor creates for
    [unique_together]. *)
Definition index_key (r : Row) : list (option Z) :=
  (fun field => column field r) <$> unique_together.

(** The table with the next value of its key sequence. *)
Record Table := mkTable {
  rows : list Row;
  next_id : Z;
}.

(** The database refuses a row whose index key another row already has. *)
Definition clashes (r : Row) (others : list Row) : bool :=
  bool_decide (Exists (fun o => index_key o = index_key r) others).

Definition integrity_error : exn :=
  DatabaseError ("Duplicate entry for key '" +:+ db_table +:+ "'").

(** [RoleHasPermission.objects.create(permission=p, role=r)] *)
Definition insert (p r : Z) : io Table Row :=
  fun t =>
    let row := mkRow (next_id t) p r in
    if clashes row (rows t) then (t, Raise integrity_error)
    else (mkTable (rows t ++ [row]) (next_id t + 1), Ret row).

(** [obj.permission, obj.role = p, r; obj.save()] on the row with key [i] *)
Definition update (i p r : Z) : io Table unit :=
  fun t =>
    let row := mkRow i p r in
    if clashes row (filter (fun o => id o ≠ i) (rows t))
    then (t, Raise integrity_error)
    else (mkTable (map (fun o => if bool_decide (id o = i) then row else o)
                     (rows t)) (next_id t), Ret tt).

(** [obj.delete()] *)
Definition delete (i : Z) : io Table unit :=
  fun t => (mkTable (filter (fun o => id o ≠ i) (rows t)) (next_id t), Ret tt).

(** The operations a caller can issue against the table. *)
Inductive op :=
  | Insert (p r : Z)
  | Update (i p r : Z)
  | Delete (i : Z).

(** One operation; a refused one leaves the table as it was. *)
Definition exec (o : op) (t : Table) : Table :=
  match o with
  | Insert p r => fst (insert p r t)
  | Update i p r => fst (update i p r t)
  | Delete i => fst (delete i t)
  end.

Definition run (ops : list op) (t : Table) : Table :=
  foldl (fun t o => exec o t) t ops.

Definition empty : Table := mkTable [] 1.

(** What every reachable table satisfies: keys are unique and below the
    sequence, and rows with the same pair have the same key. *)
Record consistent (t : Table) : Prop := {
  keys_unique : NoDup (id <$> rows t);
  keys_issued : ∀ x, x ∈ rows t -> id x < next_id t;
  pair_unique : ∀ x y, x ∈ rows t -> y ∈ rows t ->
                permission x = permission y -> role x = role y -> id x = id y;
}.

End RoleHasPermission.

(** ** A concrete environment for evaluating the service

    Dates written [YYYY-MM-DD], the UTC zone, and a column that stores a
    date as the datetime of its midnight. *)

Module Concrete.
Import AppointmentService.

Definition is_leap (y : Z) : bool :=
  (y `mod` 4 =? 0) && (negb (y `mod` 100 =? 0) || (y `mod` 400 =? 0)).

Definition days_before_year (y : Z) : Z :=
  let p := y - 1 in p * 365 + p `div` 4 - p `div` 100 + p `div` 400.

Definition days_in_month (y m : Z) : Z :=
  if m =? 2 then (if is_leap y then 29 else 28)
  else if (m =? 4) || (m =? 6) || (m =? 9) || (m =? 11) then 30 else 31.

Fixpoint days_before_month (y : Z) (m : nat) : Z :=
  match m with
  | O => 0
  | S k => days_before_month y k + days_in_month y (Z.of_nat (S k))
  end.

(** [date(y, m, d).toordinal()] *)
Definition ymd (y m d : Z) : Z :=
  days_before_year y + days_before_month y (Z.to_nat (m - 1)) + d.

Definition digit (c : ascii) : option Z :=
  let n := Z.of_nat (Ascii.nat_of_ascii c) in
  if (48 <=? n) && (n <=? 57) then Some (n - 48) else None.

Fixpoint number (acc : Z) (cs : list ascii) : option Z :=
  match cs with
  | [] => Some acc
  | c :: rest => d ← digit c; number (acc * 10 + d) rest
  end.

(** The [YYYY-MM-DD] form of an ISO 8601 date. *)
Definition iso_date (s : string) : option Z :=
  match String.list_ascii_of_string s with
  | [y1; y2; y3; y4; "-"%char; m1; m2; "-"%char; d1; d2] =>
      y ← number 0 [y1; y2; y3; y4];
      m ← number 0 [m1; m2];
      d ← number 0 [d1; d2];
      if (1 <=? y) && (1 <=? m) && (m <=? 12) && (1 <=? d)
         && (d <=? days_in_month y m)
      then Some (ymd y m d) else None
  | _ => None
  end.

(** Decimal digits, as [int] reads them. *)
Definition decimal (s : string) : option Z :=
  match String.list_ascii_of_string s with
  | [] => None
  | cs => number 0 cs
  end.

Definition utc (today now : Z) : Env :=
  {| TIME_ZONE := "UTC";
     ZoneInfo_available := true;
     make_aware := fun dt _ => dt;
     prep_date := fun d => Datetime.combine d Datetime.time_min;
     fromisoformat := iso_date;
     to_python_date := iso_date;
     int_of_str := decimal;
     today := today;
     now := now |}.

(** 2024-05-20, the "today" of the examples. *)
Definition env : Env :=
  utc (ymd 2024 5 20) (Datetime.combine (ymd 2024 5 20) (Datetime.hm 9 0)).

(** An appointment on a day at an hour, with its status. *)
Definition appt (i : Z) (day hour : Z) (st : option Z) : Appointment :=
  mkAppointment i (Some 1) (Some 1)
    (Datetime.combine day Datetime.time_min) hour st None.

(** Three past appointments, none deleted, and no status rows. *)
Definition a1 : Appointment := appt 1 (ymd 2024 5 1) (Datetime.hm 10 0) None.
Definition a2 : Appointment := appt 2 (ymd 2024 5 2) (Datetime.hm 10 0) None.
Definition a3 : Appointment := appt 3 (ymd 2024 5 3) (Datetime.hm 10 0) None.
Definition three_appointments : Store := mkStore [a1; a2; a3] [] [].

(** A serializer that accepts every payload and whose [save] inserts the
    row under the next free key; [with_ticket] tells whether the
    [post_save] receiver that issues the Ticket is connected. *)
Definition accept_all (data : gmap string value) (db : Store) : bool := true.
Definition no_errors (data : gmap string value) (db : Store) : string := "".

Definition row_of (data : gmap string value) (i : Z) : Appointment :=
  mkAppointment i
    (match dict_get data "patient" with PInt n => Some n | _ => None end)
    None
    (match dict_get data "appointment_date" with
     | PStr s => Datetime.combine (default 0 (iso_date s)) Datetime.time_min
     | _ => 0
     end)
    (match dict_get data "hour" with PInt n => n | _ => 0 end)
    None None.

Definition save (with_ticket : bool) (data : gmap string value)
    : io Store Appointment :=
  fun db =>
    let a := row_of data (1 + Z.of_nat (length (appointments db))) in
    let t := mkTicket (1 + Z.of_nat (length (tickets db))) (id a)
               ("T-" +:+ pretty (id a)) None in
    (mkStore (appointments db ++ [a])
       (if with_ticket then tickets db ++ [t] else tickets db)
       (statuses db),
     Ret a).

Definition new_appointment : gmap string value :=
  {["patient" := PInt 7; "appointment_date" := PStr "2024-06-01";
    "hour" := PInt (Datetime.hm 10 0)]}.

Definition empty_store : Store := mkStore [] [] [].

(** Two status rows; the appointments below use "Completado" only. *)
Definition completado : AppointmentStatus := mkAppointmentStatus 2 "Completado" None.
Definition pendiente : AppointmentStatus := mkAppointmentStatus 5 "Pendiente" None.

(** A completed appointment on a future day and a past one without status. *)
Definition with_statuses : Store :=
  mkStore [appt 1 (ymd 2024 6 1) (Datetime.hm 10 0) (Some 2);
           appt 2 (ymd 2024 5 2) (Datetime.hm 10 0) None]
    [] [completado; pendiente].

(** One appointment with its Ticket, and one without. *)
Definition booked : Store :=
  mkStore [a1; a2] [mkTicket 1 1 "T-1" None] [].

(** [{'page': page, 'page_size': page_size}] *)
Definition paging (page page_size : Z) : option (gmap string Z) :=
  Some {["page" := page; "page_size" := page_size]}.

End Concrete.

(** ** Sample history tables for the migration *)

Module Histories.
Import Migration0011.

(** One history with a free-text DIU type, before any run. *)
Definition one_text : Store :=
  mkStore [mkHistory 10 (Some "Cobre")] [] 1.

(** Histories with repeated, NULL and empty values. *)
Definition mixed : Store :=
  mkStore [mkHistory 10 (Some "Cobre"); mkHistory 11 None;
           mkHistory 12 (Some ""); mkHistory 13 (Some "Hormonal");
           mkHistory 14 (Some "Cobre")] [] 1.

End Histories.

(** ** appointment_service.py: the remaining methods

    [update], [get_by_date_range] and [get_pending_appointments] of
    [AppointmentService], over the definitions above. *)

Module AppointmentServiceRest.
Import AppointmentService.

(** The dictionaries [update] answers with. *)
Inductive UpdateBody :=
  | UUpdated (message : string) (appointment : Appointment)
  | UInvalid (error : string) (details : string)
  | UError (error : string).

Record UpdateResponse := update_response { update_data : UpdateBody; update_status : Z }.

#[global] Instance UpdateBody_eq_dec : EqDecision UpdateBody.
Proof. solve_decision. Defined.
#[global] Instance UpdateResponse_eq_dec : EqDecision UpdateResponse.
Proof. solve_decision. Defined.

Section Update.
(** [AppointmentSerializer(appointment, data=data, partial=True)], outside
    the embedded files: [is_valid()], [errors] and [save()], the latter as
    the store it leaves and the instance it returns or exception it
    raises. *)
Variable is_valid : Appointment -> gmap string value -> Store -> bool.
Variable errors : Appointment -> gmap string value -> Store -> string.
Variable save : Appointment -> gmap string value -> io Store Appointment.

(** The body of [update], as the decorator sees it. *)
Definition update_body (appointment_id : Z) (data : gmap string value)
    : io Store UpdateResponse :=
  io_try
    (appointment ← query (fun db =>
       objects_get "Appointment"
         (filter (fun a => id a = appointment_id ∧ deleted_at a = None)
            (appointments db)));
     valid ← query (fun db => Ret (is_valid appointment data db));
     if valid : bool then
       appointment ← save appointment data;
       mret (update_response
               (UUpdated "Cita actualizada exitosamente" appointment)
               HTTP_200_OK)
     else
       details ← query (fun db => Ret (errors appointment data db));
       mret (update_response (UInvalid "Datos inválidos" details)
               HTTP_400_BAD_REQUEST))
    (fun e =>
       if is_DoesNotExist "Appointment" e
       then mret (update_response (UError "Cita no encontrada")
                    HTTP_404_NOT_FOUND)
       else mret (update_response
                    (UError ("Error al actualizar la cita: " +:+ str e))
                    HTTP_500_INTERNAL_SERVER_ERROR)).

(** [@transaction.atomic def update(self, appointment_id, data)] *)
Definition update (appointment_id : Z) (data : gmap string value)
    : io Store UpdateResponse :=
  atomic (update_body appointment_id data).

End Update.

Section Views.
Variable env : Env.

(** [get_by_date_range]: [appointment_date__range=[start_date, end_date]]
    is SQL BETWEEN, both ends included. *)
Definition get_by_date_range (db : Store) (start_date end_date : Z)
    (filters : option (gmap string value)) : Response :=
  try_except
    (let queryset :=
       filter (fun a => (prep_date env start_date <= appointment_date a
                         ∧ appointment_date a <= prep_date env end_date)
                        ∧ deleted_at a = None) (appointments db) in
     queryset ←
       (if dict_truthy filters then
          let f := default ∅ filters in
          qs ← filter_fk env (dict_in "appointment_status" f) appointment_status
                 (dict_get f "appointment_status") queryset;
          qs ← filter_fk env (dict_in "patient" f) patient
                 (dict_get f "patient") qs;
          filter_fk env (dict_in "therapist" f) therapist
            (dict_get f "therapist") qs
        else Ret queryset);
     Ret (response (BList (length queryset) queryset) HTTP_200_OK))
    (fun e =>
       response (BError ("Error al obtener citas por rango: " +:+ str e))
         HTTP_500_INTERNAL_SERVER_ERROR).

(** The status filter of the "pending" view when the caller names no
    status: the resolved status row, or the dates from today on. *)
Definition pending_or_upcoming (pending_status_id : option Z)
    (qs : list Appointment) : list Appointment :=
  if id_truthy pending_status_id
  then filter (fun a => appointment_status a = pending_status_id) qs
  else filter (fun a => prep_date env (today env) <= appointment_date a) qs.

(** The query set of the "pending" view (lines 392-426). *)
Definition pending_queryset (db : Store)
    (filters : option (gmap string value)) : result (list Appointment) :=
  pending_status_id ← status_id_by_name db "Pendiente";
  let queryset := filter (fun a => deleted_at a = None) (appointments db) in
  if dict_truthy filters then
    let f := default ∅ filters in
    qs ← (if dict_in "appointment_status" f
          then filter_fk env true appointment_status
                 (dict_get f "appointment_status") queryset
          else Ret (pending_or_upcoming pending_status_id queryset));
    qs ← filter_fk env (dict_in "patient" f) patient (dict_get f "patient") qs;
    filter_fk env (dict_in "therapist" f) therapist (dict_get f "therapist") qs
  else Ret (pending_or_upcoming pending_status_id queryset).

Definition get_pending_appointments (db : Store)
    (filters : option (gmap string value)) : Response :=
  try_except
    (queryset ← pending_queryset db filters;
     Ret (response (BList (length queryset) queryset) HTTP_200_OK))
    (fun e =>
       response (BError ("Error al obtener citas pendientes: " +:+ str e))
         HTTP_500_INTERNAL_SERVER_ERROR).

End Views.

End AppointmentServiceRest.

(** ** appointment_status.py: [restore] and [all_including_deleted] *)

Module AppointmentStatusViewSetRest.
Import AppointmentStatusViewSet.

(** The dictionaries the two actions answer with; [serializer.data] of a
    status is the row, of a query set the list of its rows. *)
Inductive ActionBody :=
  | AError (error : string)
  | ARestored (message : string) (data : AppointmentStatus)
  | AListed (message : string) (data : list AppointmentStatus).

Record ActionResponse := action_response { action_data : ActionBody; action_status : Z }.

#[global] Instance ActionBody_eq_dec : EqDecision ActionBody.
Proof. solve_decision. Defined.
#[global] Instance ActionResponse_eq_dec : EqDecision ActionResponse.
Proof. solve_decision. Defined.

(** [instance.deleted_at = None; instance.save(update_fields=['deleted_at'])] *)
Definition clear_deleted (instance : AppointmentStatus) : io Store unit :=
  write (fun db =>
    mkStore (appointments db) (tickets db)
      (map (fun r => if bool_decide (status_id r = status_id instance)
                     then mkAppointmentStatus (status_id r) (name r) None
                     else r) (statuses db))).

(** [restore]: the lookup [AppointmentStatus.objects.get(pk=pk)] sees the
    deleted rows too. *)
Definition restore (pk : Z) : io Store ActionResponse :=
  io_try
    (instance ← query (fun db =>
       objects_get "AppointmentStatus"
         (filter (fun s => status_id s = pk) (statuses db)));
     if bool_decide (status_deleted_at instance = None)
     then mret (action_response (AError "El estado no está eliminado")
                  HTTP_400_BAD_REQUEST)
     else
       _ ← clear_deleted instance;
       mret (action_response
               (ARestored ("Estado '" +:+ name instance
                           +:+ "' restaurado correctamente")
                  (mkAppointmentStatus (status_id instance) (name instance) None))
               HTTP_200_OK))
    (fun e =>
       if is_DoesNotExist "AppointmentStatus" e
       then mret (action_response (AError "Estado no encontrado")
                    HTTP_404_NOT_FOUND)
       else mret (action_response
                    (AError ("Error al restaurar el estado: " +:+ str e))
                    HTTP_500_INTERNAL_SERVER_ERROR)).

(** [all_including_deleted]: [AppointmentStatus.objects.all()], answered
    with the default status code. *)
Definition all_including_deleted (db : Store) : ActionResponse :=
  try_except
    (let queryset := statuses db in
     Ret (action_response
            (AListed "Estados obtenidos (incluyendo eliminados)" queryset)
            HTTP_200_OK))
    (fun e =>
       action_response (AError ("Error al obtener estados: " +:+ str e))
         HTTP_500_INTERNAL_SERVER_ERROR).

End AppointmentStatusViewSetRest.

(** ** 0011_migrate_diu_type_to_fk.py: the reverse transform

    [reverse_migrate_diu_type_data] tests the Python type of what the
    cursor returns, so a cell is kept as the driver hands it over: an
    integer, a string or NULL. *)

Module Migration0011Reverse.
Import Migration0011.

Inductive cell :=
  | CNull
  | CInt (n : Z)
  | CStr (s : string).

#[global] Instance cell_eq_dec : EqDecision cell.
Proof. solve_decision. Defined.

Record Row := mkRow {
  row_id : Z;
  row_diu_type_id : cell;
}.

#[global] Instance Row_eq_dec : EqDecision Row.
Proof. solve_decision. Defined.

(** The [histories] rows and the [DIUType] table. *)
Record Tables := mkTables {
  rows : list Row;
  types : list DIUType;
}.

#[global] Instance Tables_eq_dec : EqDecision Tables.
Proof. solve_decision. Defined.

(** [SELECT id, diu_type_id FROM histories WHERE diu_type_id IS NOT NULL] *)
Definition select_not_null (db : Tables) : list (Z * cell) :=
  (fun r => (row_id r, row_diu_type_id r))
    <$> filter (fun r => row_diu_type_id r ≠ CNull) (rows db).

(** [UPDATE histories SET diu_type_id = %s WHERE id = %s] with a name *)
Definition set_name (type_name : string) (history_id : Z) : io Tables unit :=
  write (fun db =>
    mkTables
      (map (fun r => if bool_decide (row_id r = history_id)
                     then mkRow (row_id r) (CStr type_name) else r) (rows db))
      (types db)).

(** The body of the loop for one fetched pair. *)
Definition revert_one (history_id : Z) (diu_type_id : cell) : io Tables unit :=
  match diu_type_id with
  | CInt i =>
      io_try
        (diu_type ← query (fun db =>
           objects_get "DIUType" (filter (fun t => id t = i) (types db)));
         set_name (name diu_type) history_id)
        (fun e => if is_DoesNotExist "DIUType" e then mret tt else raise e)
  | _ => mret tt
  end.

Fixpoint revert_all (histories : list (Z * cell)) : io Tables unit :=
  match histories with
  | [] => mret tt
  | (history_id, diu_type_id) :: rest =>
      _ ← revert_one history_id diu_type_id;
      revert_all rest
  end.

Definition reverse_migrate_diu_type_data : io Tables unit :=
  histories ← query (fun db => Ret (select_not_null db));
  revert_all histories.

(** A text column as the forward transform sees it, read through the
    cursor: every value is a string or NULL. *)
Definition of_text (db : Migration0011.Store) : Tables :=
  mkTables
    ((fun h => mkRow (history_id h)
                 (match diu_type_id h with
                  | Some v => CStr v
                  | None => CNull
                  end)) <$> histories db)
    (diu_types db).

End Migration0011Reverse.

(** * Properties *)

(** Runs the monadic plumbing of a stateful computation applied to a
    store. *)
Ltac io_simpl :=
  repeat (progress (cbn -[filter pretty];
                    unfold mbind, io_mbind, io_bind, io_try, query, write, raise,
                      mret, io_mret, io_ret, result_bind, result_ret, Py.bind)).

(** ** Lists of rows *)

Section Rows.
Context {A : Type}.

Lemma filter_empty (P : A -> Prop) `{!∀ x, Decision (P x)} (l : list A) :
  (∀ x, x ∈ l -> ¬ P x) -> filter P l = [].
Proof.
  intros Hl. destruct (filter P l) as [|x l'] eqn:Hf; [done|].
  assert (x ∈ filter P l) as Hx by (rewrite Hf; left).
  apply list_elem_of_filter in Hx as [HP Hx]. by destruct (Hl x Hx).
Qed.

Lemma filter_iff_on (P Q : A -> Prop)
    `{!∀ x, Decision (P x), !∀ x, Decision (Q x)} (l : list A) :
  (∀ x, x ∈ l -> P x <-> Q x) -> filter P l = filter Q l.
Proof.
  induction l as [|a l IH]; intros HPQ; [done|].
  rewrite !filter_cons.
  rewrite IH by (intros x Hx; apply HPQ; by right).
  destruct (decide (P a)) as [Hp|Hp], (decide (Q a)) as [Hq|Hq]; try done.
  - destruct Hq. apply HPQ; [left | done].
  - destruct Hp. apply HPQ; [left | done].
Qed.

(** Rows selected by [P] that agree on a unique column: at most one. *)
Lemma filter_at_most_one {B} (f : A -> B) (P : A -> Prop)
    `{!∀ x, Decision (P x)} (l : list A) :
  NoDup (f <$> l) ->
  (∀ x y, x ∈ l -> y ∈ l -> P x -> P y -> f x = f y) ->
  (length (filter P l) <= 1)%nat.
Proof.
  induction l as [|a l IH]; intros Hk Hp; [simpl; lia|].
  rewrite fmap_cons in Hk. apply NoDup_cons in Hk as [Ha Hl].
  rewrite filter_cons. destruct (decide (P a)) as [HPa|_].
  - rewrite (filter_empty P l); [simpl; lia|].
    intros x Hx HPx. apply Ha.
    apply list_elem_of_fmap. exists x. split; [|done].
    apply Hp; [left | by right | done | done].
  - apply IH; [done|]. intros x y Hx Hy. apply Hp; by right.
Qed.

Lemma NoDup_fmap_filter {B} (f : A -> B) (P : A -> Prop)
    `{!∀ x, Decision (P x)} (l : list A) :
  NoDup (f <$> l) -> NoDup (f <$> filter P l).
Proof.
  induction l as [|a l IH]; [done|].
  rewrite filter_cons, fmap_cons. intros [Ha Hl]%NoDup_cons.
  destruct (decide (P a)); [|by apply IH].
  rewrite fmap_cons. apply NoDup_cons. split; [|by apply IH].
  intros (x & Hfx & Hx)%list_elem_of_fmap. apply Ha.
  apply list_elem_of_fmap. exists x. split; [done|].
  by apply list_elem_of_filter in Hx as [_ ?].
Qed.

End Rows.

(** ** Calendar arithmetic *)

Section DatetimeFacts.
Import Datetime.

Lemma US_PER_DAY_pos : 0 < US_PER_DAY.
Proof. reflexivity. Qed.

Lemma time_of_range dt : 0 <= time_of dt < US_PER_DAY.
Proof. apply Z.mod_pos_bound, US_PER_DAY_pos. Qed.

Lemma date_of_combine d t : 0 <= t < US_PER_DAY -> date_of (combine d t) = d.
Proof.
  intros Ht. unfold date_of, combine.
  rewrite Z.add_comm, Z.div_add by (pose proof US_PER_DAY_pos; lia).
  rewrite Z.div_small by done. lia.
Qed.

Lemma time_of_combine d t : 0 <= t < US_PER_DAY -> time_of (combine d t) = t.
Proof.
  intros Ht. unfold time_of, combine.
  rewrite Z.add_comm, Z.mod_add by (pose proof US_PER_DAY_pos; lia).
  by apply Z.mod_small.
Qed.

(** The day after midnight of [d] is midnight of [d + 1]. *)
Lemma add_days_midnight d :
  MIN_ORDINAL <= d + 1 <= MAX_ORDINAL ->
  add_days (combine d time_min) 1 = Ret (combine (d + 1) time_min).
Proof.
  intros Hd. unfold add_days, add_us.
  replace (combine d time_min + 1 * US_PER_DAY) with (combine (d + 1) time_min)
    by (unfold combine; lia).
  unfold representable.
  rewrite date_of_combine by (unfold time_min; pose proof US_PER_DAY_pos; lia).
  destruct (Z.leb_spec MIN_ORDINAL (d + 1)), (Z.leb_spec (d + 1) MAX_ORDINAL);
    simpl; done || lia.
Qed.

End DatetimeFacts.

(** ** Availability *)

Section Availability.
Import AppointmentService.

Lemma conflicting_one_filter env date start_time end_time rows :
  conflicting env date start_time end_time rows
  = filter (fun a => deleted_at a = None
                     ∧ appointment_date a = prep_date env date
                     ∧ ¬ (end_time <= hour a ∨ hour a <= start_time)) rows.
Proof.
  unfold conflicting. rewrite !list_filter_filter.
  apply list_filter_iff. intros a. tauto.
Qed.

(** C5. Whenever the end of the requested interval is a representable
    datetime, [check_availability] answers 200 with a flag and a count such
    that: the flag is true exactly when every non-deleted appointment of
    that date is non-conflicting, i.e. has its hour at or after the end
    time or at or before the start time (the appointment's own duration
    plays no role); the count is 0 when the flag is true and the number of
    conflicting appointments otherwise. *)
Theorem check_availability_point_in_time
    env db date hour duration end_datetime :
  Datetime.add_minutes (Datetime.combine date hour) duration
    = Ret end_datetime ->
  let start_time := Datetime.time_of (Datetime.combine date hour) in
  let end_time := Datetime.time_of end_datetime in
  let non_conflicting a := end_time <= Models.hour a ∨ Models.hour a <= start_time in
  let same_day a :=
    deleted_at a = None ∧ appointment_date a = prep_date env date in
  ∃ is_available n,
    check_availability env db date hour duration
      = response (BAvailability is_available n) HTTP_200_OK
    ∧ (is_available = true ↔
       ∀ a, a ∈ appointments db -> same_day a -> non_conflicting a)
    ∧ n = (if is_available then 0%nat
           else length (filter (fun a => same_day a ∧ ¬ non_conflicting a)
                          (appointments db)))
    ∧ (is_available = true -> n = 0%nat).
Proof.
  intros Hend start_time end_time non_conflicting same_day.
  unfold check_availability. rewrite Hend. cbn [mbind result_bind Py.bind try_except].
  fold start_time end_time.
  rewrite conflicting_one_filter.
  set (conflicts := filter _ (appointments db)).
  assert (Hsame : conflicts
            = filter (fun a => same_day a ∧ ¬ non_conflicting a) (appointments db)).
  { apply list_filter_iff. intros a. unfold same_day, non_conflicting. tauto. }
  eexists _, _. split; [reflexivity|].
  destruct conflicts as [|c cs] eqn:Hc.
  - rewrite bool_decide_eq_false_2 by (intros ?; done). simpl.
    repeat split; try done.
    intros _ a Ha Hday.
    destruct (decide (non_conflicting a)) as [|Hn]; [done|].
    assert (a ∈ filter (fun a => same_day a ∧ ¬ non_conflicting a) (appointments db))
      as Hin by (apply list_elem_of_filter; done).
    rewrite <-Hsame in Hin. by apply elem_of_nil in Hin.
  - rewrite bool_decide_eq_true_2 by done. simpl.
    repeat split; try done.
    + intros Hall. exfalso.
      assert (c ∈ filter (fun a => same_day a ∧ ¬ non_conflicting a) (appointments db))
        as Hin by (rewrite <-Hsame; left).
      apply list_elem_of_filter in Hin as [[Hday Hn] Hin]. by apply Hn, Hall.
    + by rewrite <-Hsame.
Qed.

(** The theorem at a request for [10:00, 11:00) against appointments at
    10:30 and at 11:00. *)
Lemma check_availability_point_in_time_witness :
  Datetime.add_minutes
    (Datetime.combine (Concrete.ymd 2024 6 1) (Datetime.hm 10 0)) 60
  = Ret (Datetime.combine (Concrete.ymd 2024 6 1) (Datetime.hm 11 0))
  ∧ ∃ is_available n,
      check_availability Concrete.env
        (mkStore [Concrete.appt 1 (Concrete.ymd 2024 6 1) (Datetime.hm 10 30) None;
                  Concrete.appt 2 (Concrete.ymd 2024 6 1) (Datetime.hm 11 0) None]
           [] [])
        (Concrete.ymd 2024 6 1) (Datetime.hm 10 0) 60
      = response (BAvailability is_available n) HTTP_200_OK
      ∧ (is_available = true -> n = 0%nat).
Proof.
  assert (Datetime.add_minutes
            (Datetime.combine (Concrete.ymd 2024 6 1) (Datetime.hm 10 0)) 60
          = Ret (Datetime.combine (Concrete.ymd 2024 6 1) (Datetime.hm 11 0)))
    as Hend by (vm_compute; reflexivity).
  split; [exact Hend|].
  destruct (check_availability_point_in_time Concrete.env
              (mkStore [Concrete.appt 1 (Concrete.ymd 2024 6 1) (Datetime.hm 10 30) None;
                        Concrete.appt 2 (Concrete.ymd 2024 6 1) (Datetime.hm 11 0) None]
                 [] [])
              (Concrete.ymd 2024 6 1) (Datetime.hm 10 0) 60 _ Hend)
    as (is_available & n & Hr & _ & _ & Hzero).
  exists is_available, n. split; [exact Hr | exact Hzero].
Defined.

(** An appointment at exactly 10:30 conflicts with [10:00, 11:00). *)
Example availability_1030_conflicts :
  check_availability Concrete.env
    (mkStore [Concrete.appt 1 (Concrete.ymd 2024 6 1) (Datetime.hm 10 30) None] [] [])
    (Concrete.ymd 2024 6 1) (Datetime.hm 10 0) 60
  = response (BAvailability false 1) HTTP_200_OK.
Proof. vm_compute. reflexivity. Qed.

(** An appointment at 11:00 does not. *)
Example availability_1100_free :
  check_availability Concrete.env
    (mkStore [Concrete.appt 1 (Concrete.ymd 2024 6 1) (Datetime.hm 11 0) None] [] [])
    (Concrete.ymd 2024 6 1) (Datetime.hm 10 0) 60
  = response (BAvailability true 0) HTTP_200_OK.
Proof. vm_compute. reflexivity. Qed.

End Availability.

(** ** Pagination and the reported count *)

Section Pagination.
Import AppointmentService.

Lemma slice_length {A} (qs rs : list A) start stop :
  slice qs start stop = Ret rs ->
  (length rs <= Z.to_nat (stop - start))%nat.
Proof.
  unfold slice. case_match; [done|]. intros [= <-].
  rewrite length_take. lia.
Qed.

Lemma slice_ok {A} (qs : list A) start stop :
  0 <= start -> 0 <= stop ->
  slice qs start stop
  = Ret (take (Z.to_nat (stop - start)) (drop (Z.to_nat start) qs)).
Proof.
  intros Hs He. unfold slice.
  destruct (Z.ltb_spec start 0), (Z.ltb_spec stop 0); simpl; done || lia.
Qed.

(** The page bounds of a request with [page >= 1] and [page_size >= 1]. *)
Lemma page_bounds page page_size :
  1 <= page -> 1 <= page_size ->
  0 <= (page - 1) * page_size
  ∧ 0 <= (page - 1) * page_size + page_size
  ∧ Z.to_nat ((page - 1) * page_size + page_size - (page - 1) * page_size)
    = Z.to_nat page_size.
Proof. intros. repeat split; [nia | nia | f_equal; lia]. Qed.

Lemma paging_truthy page page_size :
  dict_truthy (Concrete.paging page page_size) = true.
Proof.
  unfold Concrete.paging, dict_truthy.
  rewrite bool_decide_eq_false_2; [done|].
  intros Hm. apply (f_equal (lookup "page")) in Hm.
  by rewrite lookup_insert_eq, lookup_empty in Hm.
Qed.

Lemma paging_page page page_size d :
  page_param (default ∅ (Concrete.paging page page_size)) "page" d = page.
Proof. unfold page_param, Concrete.paging. simpl. by rewrite lookup_insert_eq. Qed.

Lemma paging_page_size page page_size d :
  page_param (default ∅ (Concrete.paging page page_size)) "page_size" d
  = page_size.
Proof.
  unfold page_param, Concrete.paging. simpl.
  by rewrite lookup_insert_ne, lookup_singleton_eq.
Qed.

(** [list_all] counts the query set it returns: with pagination, the
    slice. *)
Lemma list_all_count_is_length env db filters pagination n rs st :
  list_all env db filters pagination = response (BList n rs) st ->
  n = length rs.
Proof.
  unfold list_all.
  destruct (list_all_queryset env db filters) as [qs|e]; simpl; [|done].
  destruct (if dict_truthy pagination then _ else _) as [qs'|e]; simpl; [|done].
  by intros [= <- <- _].
Qed.

(** With [page >= 1] and [page_size >= 1], [list_all] reports the length of
    the page, which depends on both parameters. *)
Lemma list_all_paginated env db filters page page_size qs :
  1 <= page -> 1 <= page_size ->
  list_all_queryset env db filters = Ret qs ->
  let results :=
    take (Z.to_nat page_size) (drop (Z.to_nat ((page - 1) * page_size)) qs) in
  list_all env db filters (Concrete.paging page page_size)
  = response (BList (length results) results) HTTP_200_OK.
Proof.
  intros Hp Hs Hqs results. unfold list_all.
  destruct (page_bounds page page_size Hp Hs) as (H1 & H2 & H3).
  rewrite Hqs, paging_truthy, paging_page, paging_page_size. simpl.
  rewrite slice_ok by done. simpl. by rewrite H3.
Qed.

(** [get_completed_appointments] counts before it slices: the count is the
    size of the filtered set whatever the page, and the page holds at most
    [page_size] rows. *)
Lemma get_completed_count_before_slice env db filters page page_size qs :
  1 <= page -> 1 <= page_size ->
  completed_queryset env db filters = Ret qs ->
  ∃ results,
    get_completed_appointments env db filters (Concrete.paging page page_size)
    = response (BList (length qs) results) HTTP_200_OK
    ∧ (length results <= Z.to_nat page_size)%nat
    ∧ get_completed_appointments env db filters None
      = response (BList (length qs) qs) HTTP_200_OK.
Proof.
  intros Hp Hs Hqs. unfold get_completed_appointments.
  destruct (page_bounds page page_size Hp Hs) as (H1 & H2 & H3).
  rewrite Hqs, paging_truthy, paging_page, paging_page_size. simpl.
  rewrite slice_ok by done. simpl. rewrite H3.
  eexists. split; [reflexivity|]. split; [|done].
  rewrite length_take. lia.
Qed.

(** C1. On three matching appointments [list_all] reports 3 without
    pagination, but 2 for page 1 of size 2 and 1 for page 2: its count is
    taken from the sliced query set, while [get_completed_appointments]
    reports 3 for the same page. *)
Theorem list_all_count_taken_after_slice :
  list_all Concrete.env Concrete.three_appointments None None
    = response (BList 3 [Concrete.a1; Concrete.a2; Concrete.a3]) HTTP_200_OK
  ∧ list_all Concrete.env Concrete.three_appointments None (Concrete.paging 1 2)
    = response (BList 2 [Concrete.a1; Concrete.a2]) HTTP_200_OK
  ∧ list_all Concrete.env Concrete.three_appointments None (Concrete.paging 2 2)
    = response (BList 1 [Concrete.a3]) HTTP_200_OK
  ∧ get_completed_appointments Concrete.env Concrete.three_appointments None
      (Concrete.paging 1 2)
    = response (BList 3 [Concrete.a3; Concrete.a2]) HTTP_200_OK.
Proof. repeat split; vm_compute; reflexivity. Qed.

End Pagination.

(** ** What the list operations can return *)

Section Results.
Import AppointmentService.
Variable env : Env.

Lemma filter_fk_subseteq g col v qs qs' :
  filter_fk env g col v qs = Ret qs' -> qs' ⊆ qs.
Proof.
  unfold filter_fk. destruct g; [|by intros [= <-]].
  destruct (fk_exact env v) as [p|e]; simpl; [|done].
  intros [= <-] x Hx. by apply list_elem_of_filter in Hx as [_ ?].
Qed.

Lemma slice_subseteq {A} (qs qs' : list A) start stop :
  slice qs start stop = Ret qs' -> qs' ⊆ qs.
Proof.
  unfold slice. case_match; [done|]. intros [= <-].
  etrans; [apply subseteq_take | apply subseteq_drop].
Qed.

Lemma date_window_subseteq f qs qs' :
  date_window env f qs = Ret qs' -> qs' ⊆ qs.
Proof.
  unfold date_window. intros H.
  repeat (case_match; simplify_eq/=; try done);
    repeat match goal with
           | H : context [parse_iso_date ?e ?v] |- _ =>
               destruct (parse_iso_date e v); simplify_eq/=
           | H : context [Datetime.add_days ?a ?b] |- _ =>
               destruct (Datetime.add_days a b); simplify_eq/=
           | H : context [Datetime.date_add_days ?a ?b] |- _ =>
               destruct (Datetime.date_add_days a b); simplify_eq/=
           end;
    try (intros x Hx; by apply list_elem_of_filter in Hx as [_ ?]).
Qed.

Lemma completed_or_past_subseteq i qs : completed_or_past env i qs ⊆ qs.
Proof.
  unfold completed_or_past. intros x Hx.
  case_match; by apply list_elem_of_filter in Hx as [_ ?].
Qed.

Lemma active_subseteq (db : Store) qs :
  qs ⊆ filter (fun a => deleted_at a = None) (appointments db) ->
  ∀ r, r ∈ qs -> r ∈ appointments db ∧ deleted_at r = None.
Proof. intros Hsub r Hr. apply Hsub, list_elem_of_filter in Hr. tauto. Qed.

Lemma list_all_queryset_active db filters qs :
  list_all_queryset env db filters = Ret qs ->
  qs ⊆ filter (fun a => deleted_at a = None) (appointments db).
Proof.
  unfold list_all_queryset. destruct (dict_truthy filters); [|by intros [= <-]].
  set (base := filter _ (appointments db)).
  destruct (if dict_in "appointment_date" _ then _ else _) as [q0|] eqn:H0;
    simpl; [|done].
  assert (q0 ⊆ base) as Hq0.
  { destruct (dict_in "appointment_date" _); [|by simplify_eq].
    destruct (date_exact env _); simplify_eq/=.
    intros x Hx. by apply list_elem_of_filter in Hx as [_ ?]. }
  destruct (filter_fk env _ appointment_status _ q0) as [q1|] eqn:H1; simpl; [|done].
  destruct (filter_fk env _ patient _ q1) as [q2|] eqn:H2; simpl; [|done].
  intros H3.
  apply filter_fk_subseteq in H1, H2, H3.
  by repeat (etrans; [eassumption|]).
Qed.

Lemma other_filters_subseteq f qs qs' :
  other_filters env f qs = Ret qs' -> qs' ⊆ qs.
Proof.
  unfold other_filters.
  destruct (filter_fk env _ patient _ qs) as [q1|] eqn:H1; simpl; [|done].
  destruct (filter_fk env _ therapist _ q1) as [q2|] eqn:H2; simpl; [|done].
  intros H3.
  apply filter_fk_subseteq in H1, H2. apply date_window_subseteq in H3.
  by repeat (etrans; [eassumption|]).
Qed.

Lemma completed_queryset_active db filters qs :
  completed_queryset env db filters = Ret qs ->
  qs ⊆ filter (fun a => deleted_at a = None) (appointments db).
Proof.
  unfold completed_queryset.
  destruct (status_id_by_name db "Completado") as [cid|]; simpl; [|done].
  set (base := filter _ (appointments db)).
  destruct (dict_truthy filters);
    [|intros [= <-]; apply completed_or_past_subseteq].
  destruct (if dict_in "appointment_status" _ then _ else _) as [q0|] eqn:H0;
    simpl; [|done].
  assert (q0 ⊆ base) as Hq0.
  { destruct (dict_in "appointment_status" _).
    - by apply (filter_fk_subseteq true appointment_status) in H0.
    - simplify_eq. apply completed_or_past_subseteq. }
  intros H1. apply other_filters_subseteq in H1. by etrans.
Qed.

(** Every row [list_all] returns is a non-deleted row of the store. *)
Lemma list_all_results_active db filters pagination n rs st :
  list_all env db filters pagination = response (BList n rs) st ->
  ∀ r, r ∈ rs -> r ∈ appointments db ∧ deleted_at r = None.
Proof.
  unfold list_all.
  destruct (list_all_queryset env db filters) as [qs|] eqn:Hqs; simpl; [|done].
  apply list_all_queryset_active in Hqs.
  destruct (if dict_truthy pagination then _ else _) as [qs'|] eqn:Hp;
    simpl; [|done].
  intros [= _ <- _]. apply active_subseteq. etrans; [|exact Hqs].
  destruct (dict_truthy pagination); [|by simplify_eq].
  by apply slice_subseteq in Hp.
Qed.

(** So is every row [get_completed_appointments] returns. *)
Lemma get_completed_results_active db filters pagination n rs st :
  get_completed_appointments env db filters pagination
    = response (BList n rs) st ->
  ∀ r, r ∈ rs -> r ∈ appointments db ∧ deleted_at r = None.
Proof.
  unfold get_completed_appointments.
  destruct (completed_queryset env db filters) as [qs|] eqn:Hqs; simpl; [|done].
  apply completed_queryset_active in Hqs.
  destruct (if dict_truthy pagination then _ else _) as [qs'|] eqn:Hp;
    simpl; [|done].
  intros [= _ <- _]. apply active_subseteq. etrans; [|exact Hqs].
  destruct (dict_truthy pagination); [|by simplify_eq].
  apply slice_subseteq in Hp. etrans; [exact Hp|].
  intros x Hx. unfold order_by_date_hour_desc in Hx.
  by rewrite merge_sort_Permutation in Hx.
Qed.

End Results.

(** ** Create and its transaction *)

Section Create.
Import AppointmentService.
Variable is_valid : gmap string value -> Store -> bool.
Variable errors : gmap string value -> Store -> string.
Variable save : gmap string value -> io Store Appointment.

(** No exception leaves the body of [create]: every path ends in a
    [return Response(...)]. *)
Lemma create_body_returns data db :
  ∃ db' r, create_body is_valid errors save data db = (db', Ret r).
Proof.
  unfold create_body.
  destruct (List.find _ required_fields); io_simpl; [by eexists _, _|].
  destruct (is_valid data db); io_simpl; [|by eexists _, _].
  destruct (save data db) as [db1 [a|e]]; io_simpl; [|by eexists _, _].
  destruct (objects_get "Ticket" _) as [t|e]; io_simpl; [by eexists _, _|].
  destruct (is_DoesNotExist "Ticket" e); io_simpl; by eexists _, _.
Qed.

(** Hence the decorator always commits: [create] leaves the store exactly
    as its body left it. *)
Lemma create_always_commits data db :
  create is_valid errors save data db
  = create_body is_valid errors save data db.
Proof.
  unfold create, atomic.
  by destruct (create_body_returns data db) as (db' & r & ->).
Qed.

(** When [save] succeeds and leaves no Ticket for the new row, [create]
    answers 500 and commits the store as [save] left it. *)
Lemma create_without_ticket data db db1 a :
  List.find (fun field => negb (dict_in field data)) required_fields = None ->
  is_valid data db = true ->
  save data db = (db1, Ret a) ->
  filter (fun t => ticket_appointment t = id a) (tickets db1) = [] ->
  create is_valid errors save data db
  = (db1, Ret (response (BError "Error al crear el ticket automático")
                 HTTP_500_INTERNAL_SERVER_ERROR)).
Proof.
  intros Hreq Hvalid Hsave Hnone. rewrite create_always_commits.
  unfold create_body. rewrite Hreq. io_simpl.
  rewrite Hvalid. io_simpl. rewrite Hsave. io_simpl. by rewrite Hnone.
Qed.

End Create.

(** C2. A valid payload whose [save] stores the appointment while no Ticket
    is issued: [create] reports the internal error, and the store it
    commits holds the new appointment and no ticket. *)
Theorem create_commits_appointment_without_ticket :
  AppointmentService.create Concrete.accept_all Concrete.no_errors
    (Concrete.save false) Concrete.new_appointment Concrete.empty_store
  = (mkStore [Concrete.row_of Concrete.new_appointment 1] [] [],
     Ret (AppointmentService.response
            (AppointmentService.BError "Error al crear el ticket automático")
            HTTP_500_INTERNAL_SERVER_ERROR)).
Proof. vm_compute. reflexivity. Qed.

(** With the Ticket receiver connected the same call answers 201. *)
Example create_with_ticket :
  ∃ db',
    AppointmentService.create Concrete.accept_all Concrete.no_errors
      (Concrete.save true) Concrete.new_appointment Concrete.empty_store
    = (db', Ret (AppointmentService.response
                   (AppointmentService.BCreated
                      "Cita creada exitosamente con ticket automático"
                      (Concrete.row_of Concrete.new_appointment 1) "T-1")
                   HTTP_201_CREATED)).
Proof. eexists. vm_compute. reflexivity. Qed.

(** ** Soft delete *)

Section Delete.
Import AppointmentService.
Variable env : Env.

Lemma objects_get_Ret {A} model (l : list A) a :
  objects_get model l = Ret a -> l = [a].
Proof. destruct l as [|x [|y l]]; simpl; congruence. Qed.

Lemma save_appointment_ids a rows :
  id <$> save_appointment a rows = id <$> rows.
Proof.
  unfold save_appointment. induction rows as [|r rows IH]; [done|]. cbn.
  f_equal; [|exact IH]. by case_bool_decide.
Qed.

Lemma save_appointment_elem a rows r :
  r ∈ save_appointment a rows -> id r = id a -> r = a.
Proof.
  unfold save_appointment. intros Hr Hid.
  apply (list_elem_of_fmap (A:=Appointment)) in Hr as (r0 & -> & _).
  case_bool_decide; [done|]. contradiction.
Qed.

Lemma save_appointment_stored a a0 rows :
  a0 ∈ rows -> id a0 = id a -> a ∈ save_appointment a rows.
Proof.
  intros Ha Hid. unfold save_appointment.
  apply (list_elem_of_fmap (A:=Appointment)). exists a0.
  by rewrite bool_decide_eq_true_2.
Qed.

Lemma save_ticket_ids k rows :
  ticket_id <$> save_ticket k rows = ticket_id <$> rows.
Proof.
  unfold save_ticket. induction rows as [|r rows IH]; [done|]. cbn.
  f_equal; [|exact IH]. by case_bool_decide.
Qed.

Lemma save_ticket_elem k rows r :
  r ∈ save_ticket k rows -> r = k ∨ (r ∈ rows ∧ ticket_id r ≠ ticket_id k).
Proof.
  unfold save_ticket. intros Hr.
  apply (list_elem_of_fmap (A:=Ticket)) in Hr as (r0 & -> & Hr0).
  case_bool_decide; [by left|by right].
Qed.

Lemma pending_or_upcoming_subseteq i qs :
  AppointmentServiceRest.pending_or_upcoming env i qs ⊆ qs.
Proof.
  unfold AppointmentServiceRest.pending_or_upcoming. intros x Hx.
  case_match; by apply list_elem_of_filter in Hx as [_ ?].
Qed.

(** Every row [get_pending_appointments] returns is a non-deleted row of
    the store. *)
Lemma get_pending_results_active db filters n rs st :
  AppointmentServiceRest.get_pending_appointments env db filters
  = response (BList n rs) st ->
  ∀ r, r ∈ rs -> r ∈ appointments db ∧ deleted_at r = None.
Proof.
  unfold AppointmentServiceRest.get_pending_appointments,
    AppointmentServiceRest.pending_queryset.
  destruct (status_id_by_name db "Pendiente") as [pid|]; simpl; [|done].
  set (base := filter _ (appointments db)).
  destruct (dict_truthy filters).
  2:{ simpl. intros [= _ <- _]. apply active_subseteq.
      apply pending_or_upcoming_subseteq. }
  destruct (if dict_in "appointment_status" _ then _ else _) as [q0|] eqn:H0;
    simpl; [|done].
  assert (q0 ⊆ base) as Hq0.
  { destruct (dict_in "appointment_status" _).
    - by apply (filter_fk_subseteq env true appointment_status) in H0.
    - simplify_eq. apply pending_or_upcoming_subseteq. }
  destruct (filter_fk env _ patient _ q0) as [q1|] eqn:H1; simpl; [|done].
  destruct (filter_fk env _ therapist _ q1) as [q2|] eqn:H2; simpl; [|done].
  intros [= _ <- _]. apply active_subseteq.
  apply filter_fk_subseteq in H1, H2.
  by repeat (etrans; [eassumption|]).
Qed.

(** So is every row [get_by_date_range] returns. *)
Lemma get_by_date_range_results_active db start_date end_date filters n rs st :
  AppointmentServiceRest.get_by_date_range env db start_date end_date filters
  = response (BList n rs) st ->
  ∀ r, r ∈ rs -> r ∈ appointments db ∧ deleted_at r = None.
Proof.
  unfold AppointmentServiceRest.get_by_date_range.
  set (base := filter _ (appointments db)).
  assert (∀ r, r ∈ base -> r ∈ appointments db ∧ deleted_at r = None) as Hbase.
  { intros r Hr. apply list_elem_of_filter in Hr. tauto. }
  destruct (dict_truthy filters).
  2:{ simpl. by intros [= _ <- _]. }
  destruct (filter_fk env _ appointment_status _ base) as [q0|] eqn:H0;
    simpl; [|done].
  destruct (filter_fk env _ patient _ q0) as [q1|] eqn:H1; simpl; [|done].
  destruct (filter_fk env _ therapist _ q1) as [q2|] eqn:H2; simpl; [|done].
  intros [= _ <- _] r Hr. apply Hbase.
  apply filter_fk_subseteq in H0, H1, H2. by apply H0, H1, H2.
Qed.

(** C8. For an existing non-deleted appointment (with at most one Ticket,
    the relation being one-to-one) [delete] answers 200 whether or not a
    Ticket exists; no appointment or ticket row is removed; the
    appointment's row now carries the deletion timestamp, and so does its
    Ticket if there is one; afterwards [get_by_id] answers 404 and none of
    the four listings ([list_all], [get_completed_appointments],
    [get_pending_appointments], [get_by_date_range]) returns the
    appointment. *)
Theorem delete_marks_and_hides db appointment_id a :
  objects_get "Appointment"
    (filter (fun r => id r = appointment_id ∧ deleted_at r = None)
       (appointments db)) = Ret a ->
  (length (filter (fun t => ticket_appointment t = appointment_id)
             (tickets db)) <= 1)%nat ->
  ∃ db',
    delete env appointment_id db
    = (db', Ret (response (BMessage "Cita eliminada exitosamente") HTTP_200_OK))
    ∧ id <$> appointments db' = id <$> appointments db
    ∧ appointment_deleted a (now env) ∈ appointments db'
    ∧ (∀ r, r ∈ appointments db' -> id r = appointment_id ->
            deleted_at r = Some (now env))
    ∧ ticket_id <$> tickets db' = ticket_id <$> tickets db
    ∧ (∀ t, t ∈ tickets db' -> ticket_appointment t = appointment_id ->
            ticket_deleted_at t = Some (now env))
    ∧ get_by_id db' appointment_id
      = response (BError "Cita no encontrada") HTTP_404_NOT_FOUND
    ∧ (∀ filters pagination n rs st r,
          list_all env db' filters pagination = response (BList n rs) st ->
          r ∈ rs -> id r ≠ appointment_id)
    ∧ (∀ filters pagination n rs st r,
          get_completed_appointments env db' filters pagination
            = response (BList n rs) st ->
          r ∈ rs -> id r ≠ appointment_id)
    ∧ (∀ filters n rs st r,
          AppointmentServiceRest.get_pending_appointments env db' filters
            = response (BList n rs) st ->
          r ∈ rs -> id r ≠ appointment_id)
    ∧ (∀ start_date end_date filters n rs st r,
          AppointmentServiceRest.get_by_date_range env db' start_date end_date
            filters = response (BList n rs) st ->
          r ∈ rs -> id r ≠ appointment_id).
Proof.
  intros Hget Hone.
  pose proof (objects_get_Ret _ _ _ Hget) as Hrows.
  assert (a ∈ appointments db ∧ id a = appointment_id ∧ deleted_at a = None)
    as (Ha & Hid & Hactive).
  { assert (a ∈ filter (fun r => id r = appointment_id ∧ deleted_at r = None)
                  (appointments db)) as Hin by (rewrite Hrows; left).
    apply list_elem_of_filter in Hin. tauto. }
  set (rows' := save_appointment (appointment_deleted a (now env))
                  (appointments db)).
  assert (Hmark : ∀ r, r ∈ rows' -> id r = appointment_id ->
                       deleted_at r = Some (now env)).
  { intros r Hr Hr_id.
    by rewrite (save_appointment_elem _ _ r Hr) by (simpl; congruence). }
  assert (Hhidden : ∀ tk, filter (fun r => id r = appointment_id ∧ deleted_at r = None)
                      (appointments (mkStore rows' tk (statuses db))) = []).
  { intros tk. apply filter_empty. intros r Hr [Hr_id Hr_act].
    rewrite (Hmark r Hr Hr_id) in Hr_act. done. }
  assert (Hlists : ∀ tk,
    get_by_id (mkStore rows' tk (statuses db)) appointment_id
      = response (BError "Cita no encontrada") HTTP_404_NOT_FOUND
    ∧ (∀ filters pagination n rs st r,
          list_all env (mkStore rows' tk (statuses db)) filters pagination
            = response (BList n rs) st ->
          r ∈ rs -> id r ≠ appointment_id)
    ∧ (∀ filters pagination n rs st r,
          get_completed_appointments env (mkStore rows' tk (statuses db))
            filters pagination = response (BList n rs) st ->
          r ∈ rs -> id r ≠ appointment_id)
    ∧ (∀ filters n rs st r,
          AppointmentServiceRest.get_pending_appointments env
            (mkStore rows' tk (statuses db)) filters
            = response (BList n rs) st ->
          r ∈ rs -> id r ≠ appointment_id)
    ∧ (∀ start_date end_date filters n rs st r,
          AppointmentServiceRest.get_by_date_range env
            (mkStore rows' tk (statuses db)) start_date end_date filters
            = response (BList n rs) st ->
          r ∈ rs -> id r ≠ appointment_id)).
  { intros tk. split; [|split; [|split; [|split]]].
    - unfold get_by_id. by rewrite Hhidden.
    - intros filters pagination n rs st r Hresp Hr Hr_id.
      destruct (list_all_results_active _ _ _ _ _ _ _ Hresp r Hr) as [Hin Hact].
      rewrite (Hmark r Hin Hr_id) in Hact. done.
    - intros filters pagination n rs st r Hresp Hr Hr_id.
      destruct (get_completed_results_active _ _ _ _ _ _ _ Hresp r Hr)
        as [Hin Hact].
      rewrite (Hmark r Hin Hr_id) in Hact. done.
    - intros filters n rs st r Hresp Hr Hr_id.
      destruct (get_pending_results_active _ _ _ _ _ Hresp r Hr) as [Hin Hact].
      rewrite (Hmark r Hin Hr_id) in Hact. done.
    - intros start_date end_date filters n rs st r Hresp Hr Hr_id.
      destruct (get_by_date_range_results_active _ _ _ _ _ _ _ Hresp r Hr)
        as [Hin Hact].
      rewrite (Hmark r Hin Hr_id) in Hact. done. }
  unfold delete. io_simpl. rewrite Hrows. io_simpl.
  fold rows'. rewrite Hid.
  destruct (filter (fun t => ticket_appointment t = appointment_id) (tickets db))
    as [|t [|t' ts]] eqn:Htickets; io_simpl.
  - eexists. split; [reflexivity|]. simpl.
    destruct (Hlists (tickets db)) as (H1 & H2 & H3 & H4 & H5).
    repeat split; try done.
    + apply save_appointment_ids.
    + by eapply save_appointment_stored.
    + intros t Ht Ht_app. exfalso.
      assert (t ∈ filter (fun t => ticket_appointment t = appointment_id)
                    (tickets db)) as Hin by (by apply list_elem_of_filter).
      rewrite Htickets in Hin. by apply elem_of_nil in Hin.
  - eexists. split; [reflexivity|]. simpl.
    destruct (Hlists (save_ticket (ticket_deleted t (now env)) (tickets db)))
      as (H1 & H2 & H3 & H4 & H5).
    repeat split; try done.
    + apply save_appointment_ids.
    + by eapply save_appointment_stored.
    + exact (save_ticket_ids (ticket_deleted t (now env)) (tickets db)).
    + intros k Hk Hk_app.
      apply (save_ticket_elem (ticket_deleted t (now env))) in Hk
        as [->|[Hk Hne]]; [done|]. exfalso.
      assert (k ∈ filter (fun t => ticket_appointment t = appointment_id)
                    (tickets db)) as Hin by (by apply list_elem_of_filter).
      rewrite Htickets in Hin. apply list_elem_of_singleton in Hin.
      by subst.
  - simpl in Hone. lia.
Qed.

End Delete.

Section DeleteExamples.
Import AppointmentService.

(** The theorem on a store where appointment 1 has a Ticket, and
    appointment 2 has none. *)
Lemma delete_marks_and_hides_witness :
  (∃ db', delete Concrete.env 1 Concrete.booked
          = (db', Ret (response (BMessage "Cita eliminada exitosamente")
                         HTTP_200_OK))
          ∧ get_by_id db' 1
            = response (BError "Cita no encontrada") HTTP_404_NOT_FOUND)
  ∧ (∃ db', delete Concrete.env 2 Concrete.booked
          = (db', Ret (response (BMessage "Cita eliminada exitosamente")
                         HTTP_200_OK))).
Proof.
  split.
  - destruct (delete_marks_and_hides Concrete.env Concrete.booked 1 Concrete.a1)
      as (db' & H1 & _ & _ & _ & _ & _ & H7 & _).
    + vm_compute. reflexivity.
    + vm_compute. repeat constructor.
    + exists db'. split; assumption.
  - destruct (delete_marks_and_hides Concrete.env Concrete.booked 2 Concrete.a2)
      as (db' & H1 & _).
    + vm_compute. reflexivity.
    + vm_compute. repeat constructor.
    + exists db'. assumption.
Defined.

End DeleteExamples.

(** ** Deleting an appointment status *)

Section Destroy.
Import AppointmentStatusViewSet.
Variable now : Z.

Lemma get_object_Ret pk db instance :
  get_object pk db = Ret instance ->
  instance ∈ statuses db ∧ status_id instance = pk
  ∧ status_deleted_at instance = None.
Proof.
  unfold get_object, get_queryset.
  destruct (filter _ (filter _ (statuses db))) as [|s [|s' l]] eqn:Hf; try done.
  intros [= ->].
  assert (instance ∈ filter (fun s => status_id s = pk)
            (filter (fun s => status_deleted_at s = None) (statuses db)))
    as Hin by (rewrite Hf; left).
  apply list_elem_of_filter in Hin as [Hpk Hin].
  apply list_elem_of_filter in Hin as [Hact Hin]. done.
Qed.

(** C9. With a countable reverse relation, [destroy] on an active status
    that [n] appointments reference: if [n > 0] it answers 400 with the
    message naming the status and [n], and the store (so the status's
    [deleted_at]) is unchanged; only if [n = 0] it answers 200 and the
    status row, and no other, gets the deletion timestamp. *)
Theorem destroy_refuses_status_in_use db pk instance :
  get_object pk db = Ret instance ->
  let n := length (filter (fun a => appointment_status a = Some (status_id instance))
                     (appointments db)) in
  ((0 < n)%nat ->
     destroy now None pk db
     = (db, Ret (response (BError (in_use_message instance n))
                   HTTP_400_BAD_REQUEST))
     ∧ instance ∈ get_queryset db)
  ∧ (n = 0%nat ->
     ∃ db', destroy now None pk db
            = (db', Ret (response
                           (BMessage ("Estado '" +:+ name instance
                                      +:+ "' eliminado correctamente"))
                           HTTP_200_OK))
       ∧ appointments db' = appointments db
       ∧ status_id <$> statuses db' = status_id <$> statuses db
       ∧ (∀ s, s ∈ statuses db' -> status_id s = pk ->
               status_deleted_at s = Some now)
       ∧ (∀ s, s ∈ statuses db' -> status_id s ≠ pk -> s ∈ statuses db)).
Proof.
  intros Hobj n.
  destruct (get_object_Ret _ _ _ Hobj) as (Hin & Hpk & Hact).
  split.
  - intros Hn. split.
    + unfold destroy. io_simpl. rewrite Hobj. io_simpl. fold n.
      clearbody n. destruct n; [lia|]. by io_simpl.
    + unfold get_queryset. by apply list_elem_of_filter.
  - intros Hn. eexists. split; [|split; [|split; [|split]]].
    + unfold destroy. io_simpl. rewrite Hobj. io_simpl. fold n.
      clearbody n. subst n. io_simpl. reflexivity.
    + done.
    + simpl. clear Hin Hobj. induction (statuses db) as [|s l IH]; [done|]. cbn.
      f_equal; [by case_bool_decide | apply IH].
    + simpl. intros s Hs Hs_pk.
      apply (list_elem_of_fmap (A:=AppointmentStatus)) in Hs as (s0 & -> & _).
      case_bool_decide; [done|]. congruence.
    + simpl. intros s Hs Hs_pk.
      apply (list_elem_of_fmap (A:=AppointmentStatus)) in Hs as (s0 & -> & Hs0).
      case_bool_decide; [|done]. simpl in Hs_pk. congruence.
Qed.

End Destroy.

Section DestroyExamples.
Import AppointmentStatusViewSet.

(** The theorem on the status "Completado", which one appointment uses. *)
Lemma destroy_refuses_status_in_use_witness :
  destroy 0 None 2 Concrete.with_statuses
  = (Concrete.with_statuses,
     Ret (response
            (BError "No se puede eliminar el estado 'Completado' porque tiene 1 cita(s) asociada(s). Primero asigne otro estado a esas citas.")
            HTTP_400_BAD_REQUEST)).
Proof.
  destruct (destroy_refuses_status_in_use 0 Concrete.with_statuses 2
              Concrete.completado) as [Hrefuse _].
  - vm_compute. reflexivity.
  - destruct Hrefuse as [Hr _].
    + vm_compute. repeat constructor.
    + exact Hr.
Defined.

(** "Pendiente" has no appointment and is soft-deleted. *)
Example destroy_unused_status :
  ∃ db', destroy 77 None 5 Concrete.with_statuses
         = (db', Ret (response (BMessage "Estado 'Pendiente' eliminado correctamente")
                        HTTP_200_OK))
    ∧ statuses db' = [Concrete.completado; mkAppointmentStatus 5 "Pendiente" (Some 77)].
Proof. eexists. split; vm_compute; reflexivity. Qed.

(** When the reverse relation cannot be counted because the column is
    missing, the status is deleted without the check. *)
Example destroy_uncountable :
  ∃ db', destroy 77 (Some "(1054, Unknown column 'appointments.appointment_status_id' in 'where clause')")
           2 Concrete.with_statuses
         = (db', Ret (response (BMessage "Estado 'Completado' eliminado correctamente")
                        HTTP_200_OK)).
Proof. eexists. vm_compute. reflexivity. Qed.

(** Any other database error is reported and nothing is deleted. *)
Example destroy_other_database_error :
  destroy 77 (Some "(2006, MySQL server has gone away)") 2 Concrete.with_statuses
  = (Concrete.with_statuses,
     Ret (response
            (BError "Error al eliminar el estado: (2006, MySQL server has gone away)")
            HTTP_500_INTERNAL_SERVER_ERROR)).
Proof. vm_compute. reflexivity. Qed.

End DestroyExamples.

(** ** The role/permission link table *)

Section RolePermission.
Import RoleHasPermission.

(** The index key of [unique_together] is the pair (permission, role). *)
Lemma index_key_pair (r1 r2 : Row) :
  index_key r1 = index_key r2 <-> permission r1 = permission r2 ∧ role r1 = role r2.
Proof.
  unfold index_key, unique_together, column. cbn. split.
  - intros [= -> ->]. done.
  - intros [-> ->]. done.
Qed.

Lemma clashes_false (r : Row) (others : list Row) :
  clashes r others = false ->
  ∀ o, o ∈ others -> ¬ (permission o = permission r ∧ role o = role r).
Proof.
  unfold clashes. intros Hc o Ho Hpair.
  apply bool_decide_eq_false in Hc. apply Hc.
  apply Exists_exists. exists o. split; [done|]. by apply index_key_pair.
Qed.

Lemma consistent_empty : consistent empty.
Proof.
  split; simpl.
  - constructor.
  - intros x Hx. by apply elem_of_nil in Hx.
  - intros x y Hx. by apply elem_of_nil in Hx.
Qed.

Lemma consistent_insert p r t : consistent t -> consistent (fst (insert p r t)).
Proof.
  intros [Hk Hi Hp]. unfold insert.
  destruct (clashes _ (rows t)) eqn:Hc; simpl; [by split|].
  pose proof (clashes_false _ _ Hc) as Hfree. simpl in Hfree.
  split; simpl.
  - rewrite fmap_app. apply NoDup_app. split; [done|]. split.
    + intros i (x & -> & Hx)%list_elem_of_fmap Hin.
      apply list_elem_of_singleton in Hin. specialize (Hi x Hx). simpl in Hin. lia.
    + apply NoDup_singleton.
  - intros x [Hx| ->%list_elem_of_singleton]%elem_of_app.
    + specialize (Hi x Hx). lia.
    + simpl. lia.
  - intros x y [Hx| ->%list_elem_of_singleton]%elem_of_app
               [Hy| ->%list_elem_of_singleton]%elem_of_app; simpl; intros Hpp Hrr.
    + by apply Hp.
    + by destruct (Hfree x Hx).
    + by destruct (Hfree y Hy).
    + done.
Qed.

Lemma consistent_update i p r t : consistent t -> consistent (fst (update i p r t)).
Proof.
  intros [Hk Hi Hp]. unfold update.
  destruct (clashes _ (filter _ (rows t))) eqn:Hc; simpl; [by split|].
  pose proof (clashes_false _ _ Hc) as Hfree. simpl in Hfree.
  assert (Hids : id <$> map (fun o => if bool_decide (id o = i) then mkRow i p r else o)
                          (rows t) = id <$> rows t).
  { clear. induction (rows t) as [|o l IH]; [done|]. cbn.
    f_equal; [by case_bool_decide | apply IH]. }
  split; simpl.
  - by rewrite Hids.
  - intros x (o & -> & Ho)%(list_elem_of_fmap (A:=Row)).
    specialize (Hi o Ho). case_bool_decide; simpl; lia.
  - intros x y (ox & -> & Hox)%(list_elem_of_fmap (A:=Row))
               (oy & -> & Hoy)%(list_elem_of_fmap (A:=Row)).
    repeat case_bool_decide; simpl; intros Hpp Hrr.
    + done.
    + destruct (Hfree oy); [by apply list_elem_of_filter | done].
    + destruct (Hfree ox); [by apply list_elem_of_filter | done].
    + by apply Hp.
Qed.

Lemma consistent_delete i t : consistent t -> consistent (fst (delete i t)).
Proof.
  intros [Hk Hi Hp]. unfold delete. split; simpl.
  - by apply NoDup_fmap_filter.
  - intros x [_ Hx]%list_elem_of_filter. by apply Hi.
  - intros x y [_ Hx]%list_elem_of_filter [_ Hy]%list_elem_of_filter.
    by apply Hp.
Qed.

Lemma consistent_run ops t : consistent t -> consistent (run ops t).
Proof.
  unfold run. revert t. induction ops as [|o ops IH]; intros t Ht; [done|].
  simpl. apply IH. destruct o; unfold exec;
    [by apply consistent_insert | by apply consistent_update
    | by apply consistent_delete].
Qed.

(** In a consistent table a pair selects at most one row. *)
Lemma consistent_at_most_one t p r :
  consistent t ->
  (length (filter (fun x => permission x = p ∧ role x = r) (rows t)) <= 1)%nat.
Proof.
  intros [Hk _ Hp]. apply (filter_at_most_one id); [done|].
  intros x y Hx Hy [Hxp Hxr] [Hyp Hyr]. apply Hp; congruence.
Qed.

(** C10. Whatever inserts, updates and deletes are issued against the
    table, for every permission and role at most one row links them. *)
Theorem role_permission_pair_at_most_once ops p r :
  (length (filter (fun x => permission x = p ∧ role x = r)
             (rows (run ops empty))) <= 1)%nat.
Proof.
  apply consistent_at_most_one, consistent_run, consistent_empty.
Qed.

(** A second link of the same pair is refused and leaves the table as it
    was. *)
Example duplicate_pair_refused :
  insert 3 4 (run [Insert 3 4] empty)
  = (run [Insert 3 4] empty, Raise integrity_error)
  ∧ rows (run [Insert 3 4; Insert 3 4; Insert 3 5; Update 2 3 4] empty)
    = [mkRow 1 3 4; mkRow 2 3 5].
Proof. split; vm_compute; reflexivity. Qed.

End RolePermission.

(** ** The DIU-type migration *)

Section Migration.
Import Migration0011.

(** The decimal writing of a number is never the empty string. *)
Lemma pretty_N_go_grows (x : N) (s : string) :
  (String.length s <= String.length (pretty_N_go x s))%nat.
Proof.
  revert s. induction (N.lt_wf_0 x) as [x _ IH]. intros s.
  destruct (decide (x = 0%N)) as [->|Hx].
  - by rewrite pretty_N_go_0.
  - rewrite pretty_N_go_step by lia.
    etrans; [|apply IH; apply N.div_lt; lia]. simpl. lia.
Qed.

Lemma pretty_Z_nonempty (i : Z) : pretty i ≠ "".
Proof.
  destruct i as [|q|q]; [done| |done].
  unfold pretty, pretty_Z, pretty, pretty_positive, pretty, pretty_N.
  rewrite decide_False by done.
  rewrite pretty_N_go_step by lia. intros Hs.
  pose proof (pretty_N_go_grows (N.pos q `div` 10)
                (String (pretty_N_char (N.pos q `mod` 10)) "")) as Hlen.
  rewrite Hs in Hlen. simpl in Hlen. lia.
Qed.

(** [get_or_create] on a table whose names are unique: it returns, leaves
    the histories alone, keeps every row and the uniqueness of the names,
    and the value is a name afterwards. *)
Lemma get_or_create_unique value db :
  NoDup (name <$> diu_types db) ->
  ∃ t created db',
    get_or_create value db = (db', Ret (t, created))
    ∧ histories db' = histories db
    ∧ NoDup (name <$> diu_types db')
    ∧ diu_types db ⊆ diu_types db'
    ∧ value ∈ name <$> diu_types db'.
Proof.
  intros Hnames. unfold get_or_create.
  destruct (filter (fun t => name t = value) (diu_types db))
    as [|t [|t' l]] eqn:Hf.
  - eexists _, _, _. split; [reflexivity|]. split; [done|]. simpl.
    rewrite fmap_app. split; [|split].
    + apply NoDup_app. split; [done|]. split.
      * intros v (x & -> & Hx)%list_elem_of_fmap Hv.
        apply list_elem_of_singleton in Hv. simpl in Hv.
        by apply (filter_nil_not_elem_of _ _ x Hf).
      * apply NoDup_singleton.
    + intros x Hx. apply elem_of_app. by left.
    + apply elem_of_app. right. by left.
  - eexists _, _, _. split; [reflexivity|]. repeat split; try done.
    assert (t ∈ filter (fun t => name t = value) (diu_types db)) as Ht
      by (rewrite Hf; left).
    apply list_elem_of_filter in Ht as [<- Ht]. by apply list_elem_of_fmap_2.
  - exfalso.
    pose proof (filter_at_most_one name (fun t => name t = value)
                  (diu_types db) Hnames) as Hone.
    rewrite Hf in Hone. simpl in Hone.
    assert (S (S (length l)) <= 1)%nat; [|lia].
    apply Hone. intros x y _ _ Hx Hy. congruence.
Qed.

Lemma create_types_unique values mapping db :
  NoDup (name <$> diu_types db) ->
  ∃ db' mapping',
    create_types values mapping db = (db', Ret mapping')
    ∧ histories db' = histories db
    ∧ NoDup (name <$> diu_types db')
    ∧ diu_types db ⊆ diu_types db'
    ∧ (∀ v, v ∈ values -> v ∈ name <$> diu_types db')
    ∧ (∀ v, v ∈ values -> is_Some (mapping' !! v))
    ∧ (∀ v, is_Some (mapping !! v) -> is_Some (mapping' !! v)).
Proof.
  revert mapping db. induction values as [|value rest IH]; intros mapping db Hnames.
  - eexists _, _. split; [reflexivity|]. repeat split; try done;
      intros v Hv; by apply elem_of_nil in Hv.
  - destruct (get_or_create_unique value db Hnames)
      as (t & created & db1 & Hgoc & Hh1 & Hn1 & Hsub1 & Hnew).
    destruct (IH (<[value := id t]> mapping) db1 Hn1)
      as (db' & mapping' & Hrest & Hh & Hn & Hsub & Hnamed & Hin & Hkeep).
    exists db', mapping'. split; [|split; [|split; [|split; [|split; [|split]]]]].
    + cbn [create_types]. io_simpl. rewrite Hgoc. exact Hrest.
    + congruence.
    + done.
    + by etrans.
    + intros v [->|Hv]%elem_of_cons; [|by apply Hnamed].
      apply list_elem_of_fmap in Hnew as (x & -> & Hx).
      apply list_elem_of_fmap_2, Hsub, Hx.
    + intros v [->|Hv]%elem_of_cons; [|by apply Hin].
      apply Hkeep. rewrite lookup_insert_eq. by eexists.
    + intros v Hv. apply Hkeep.
      destruct (decide (value = v)) as [->|Hne].
      * rewrite lookup_insert_eq. by eexists.
      * by rewrite lookup_insert_ne.
Qed.

(** One [UPDATE]: every row carrying a value of [v :: vs] is either counted
    by this update or still carries a value of [vs] afterwards. *)
Lemma update_histories_counts new_id v vs db :
  ∃ db1 c,
    update_histories new_id v db = (db1, Ret c)
    ∧ diu_types db1 = diu_types db
    ∧ (length (filter (fun h => diu_type_id h ∈ Some <$> v :: vs) (histories db))
       <= c + length (filter (fun h => diu_type_id h ∈ Some <$> vs) (histories db1)))%nat
    ∧ (v ≠ "" -> length (filter nonempty (histories db1))
                 = length (filter nonempty (histories db))).
Proof.
  unfold update_histories. eexists _, _. split; [reflexivity|]. simpl.
  split; [done|]. split.
  - induction (histories db) as [|h l IH]; [simpl; lia|].
    cbn [map]. rewrite !filter_cons. cbv beta.
    case_bool_decide as Hv; repeat case_decide; simpl in *; try lia; try done;
      exfalso;
      repeat match goal with
             | H : _ ∈ _ :: _ |- _ => apply elem_of_cons in H as [?|?]
             | H : ¬ (_ ∈ _ :: _) |- _ =>
                 rewrite not_elem_of_cons in H; destruct H
             end; done.
  - intros Hne. induction (histories db) as [|h l IH]; [done|].
    cbn [map]. rewrite !filter_cons.
    case_bool_decide as Hv.
    + rewrite decide_True by (unfold nonempty; simpl; apply pretty_Z_nonempty).
      rewrite decide_True by (unfold nonempty; by rewrite Hv).
      simpl. by rewrite IH.
    + destruct (decide (nonempty h)); simpl; by rewrite IH.
Qed.

(** The second loop never raises, and its row counts add up to at least the
    number of rows that carried one of the values. *)
Lemma update_all_counts values mapping db :
  (∀ v, v ∈ values -> is_Some (mapping !! v)) ->
  ∃ db' counts,
    update_all values mapping db = (db', Ret counts)
    ∧ diu_types db' = diu_types db
    ∧ (length (filter (fun h => diu_type_id h ∈ Some <$> values) (histories db))
       <= sum_list counts)%nat
    ∧ ((∀ v, v ∈ values -> v ≠ "") ->
       length (filter nonempty (histories db'))
       = length (filter nonempty (histories db))).
Proof.
  revert db. induction values as [|v vs IH]; intros db Hmap.
  - eexists _, _. split; [reflexivity|]. repeat split; try done.
    rewrite filter_empty; [simpl; lia|].
    intros h _ Hh. by apply elem_of_nil in Hh.
  - destruct (Hmap v) as [new_id Hid]; [left|].
    destruct (update_histories_counts new_id v vs db)
      as (db1 & c & Hupd & Ht1 & Hc1 & Hn1).
    destruct (IH db1) as (db' & counts & Hrest & Ht & Hc & Hn).
    { intros w Hw. apply Hmap. by right. }
    exists db', (c :: counts). split; [|split; [|split]].
    + cbn [update_all]. rewrite Hid. unfold mbind, io_mbind, io_bind.
      rewrite Hupd. cbv beta iota. by rewrite Hrest.
    + congruence.
    + etrans; [apply Hc1|].
      change (sum_list (c :: counts)) with (c + sum_list counts)%nat. lia.
    + intros Hne. rewrite Hn by (intros w Hw; apply Hne; by right).
      apply Hn1, Hne. left.
Qed.

(** What [SELECT DISTINCT ... WHERE ... != ''] returns. *)
Lemma elem_of_distinct l v : v ∈ distinct l <-> v ∈ l.
Proof.
  induction l as [|x l IH]; [done|]. cbn [distinct].
  rewrite !elem_of_cons, list_elem_of_filter, IH.
  destruct (decide (v = x)); tauto.
Qed.

Lemma NoDup_distinct l : NoDup (distinct l).
Proof.
  induction l as [|x l IH]; [constructor|]. cbn [distinct].
  apply NoDup_cons. split; [|by apply NoDup_filter].
  by intros [Hne _]%list_elem_of_filter.
Qed.

Lemma select_distinct_nonempty db v : v ∈ select_distinct db -> v ≠ "".
Proof.
  unfold select_distinct. rewrite elem_of_distinct.
  intros (h & Hh & Hv)%list_elem_of_omap.
  apply list_elem_of_filter in Hh as [Hne _].
  unfold nonempty in Hne. by rewrite Hv in Hne.
Qed.

Lemma select_distinct_covers db h :
  h ∈ histories db ->
  diu_type_id h ∈ Some <$> select_distinct db <-> nonempty h.
Proof.
  intros Hh. split.
  - intros (v & Hv & Hin)%list_elem_of_fmap.
    apply select_distinct_nonempty in Hin. unfold nonempty. by rewrite Hv.
  - intros Hne. unfold nonempty in Hne.
    destruct (diu_type_id h) as [v|] eqn:Hv; [|done].
    apply list_elem_of_fmap. exists v. split; [done|].
    unfold select_distinct. rewrite elem_of_distinct.
    apply list_elem_of_omap. exists h. split; [|done].
    apply list_elem_of_filter. split; [|done]. unfold nonempty. by rewrite Hv.
Qed.

(** One run on a table with unique names: it returns, keeps the names
    unique, leaves a DIUType named after every value it selected, updates
    every history with a non-empty value at least once and leaves as many
    such histories as it found. *)
Lemma migrate_run db :
  NoDup (name <$> diu_types db) ->
  ∃ db' counts,
    migrate_diu_type_data db = (db', Ret counts)
    ∧ NoDup (name <$> diu_types db')
    ∧ (∀ v, v ∈ select_distinct db -> v ∈ name <$> diu_types db')
    ∧ (length (filter nonempty (histories db)) <= sum_list counts)%nat
    ∧ length (filter nonempty (histories db'))
      = length (filter nonempty (histories db)).
Proof.
  intros Hnames.
  destruct (create_types_unique (select_distinct db) ∅ db Hnames)
    as (db1 & mapping & Hcreate & Hh1 & Hn1 & _ & Hnamed & Hin & _).
  destruct (update_all_counts (select_distinct db) mapping db1 Hin)
    as (db' & counts & Hupd & Ht & Hc & Hn).
  exists db', counts. split; [|split; [|split; [|split]]].
  - unfold migrate_diu_type_data. io_simpl. by rewrite Hcreate, Hupd.
  - by rewrite Ht.
  - rewrite Ht. exact Hnamed.
  - rewrite Hh1 in Hc.
    rewrite (filter_iff_on nonempty
               (fun h => diu_type_id h ∈ Some <$> select_distinct db)); [done|].
    intros h Hh. symmetry. by apply select_distinct_covers.
  - rewrite Hn by (intros v; apply select_distinct_nonempty). by rewrite Hh1.
Qed.

(** C3, as stated, fails: on one history with the free text "Cobre" the
    first run creates DIUType 1 and writes "1" into the history; the second
    run reads "1" as a new free-text value, creates a DIUType named "1" and
    updates the history again. *)
Lemma migrate_second_run_updates_again :
  ∃ db1,
    migrate_diu_type_data Histories.one_text = (db1, Ret [1%nat])
    ∧ db1 = mkStore [mkHistory 10 (Some "1")] [mkDIUType 1 "Cobre"] 2
    ∧ migrate_diu_type_data db1
      = (mkStore [mkHistory 10 (Some "2")]
           [mkDIUType 1 "Cobre"; mkDIUType 2 "1"] 3,
         Ret [1%nat]).
Proof. eexists. repeat split; vm_compute; reflexivity. Qed.

(** C3, amended. On a table whose DIUType names are unique, a run followed
    by a second run both complete; the names are still unique afterwards
    (get-or-create never adds a name twice); but the second run is no
    no-op: every value it reads back from the histories, the ids written by
    the first run, is a DIUType name afterwards, and its row counts add up
    to at least the number of histories with a non-empty [diu_type_id]. *)
Theorem migrate_twice_keeps_names_unique_but_updates_again db :
  NoDup (name <$> diu_types db) ->
  ∃ db1 counts1 db2 counts2,
    migrate_diu_type_data db = (db1, Ret counts1)
    ∧ migrate_diu_type_data db1 = (db2, Ret counts2)
    ∧ NoDup (name <$> diu_types db2)
    ∧ (∀ v, v ∈ select_distinct db1 -> v ∈ name <$> diu_types db2)
    ∧ (length (filter nonempty (histories db)) <= sum_list counts2)%nat.
Proof.
  intros Hnames.
  destruct (migrate_run db Hnames)
    as (db1 & counts1 & Hrun1 & Hn1 & _ & _ & Hsame).
  destruct (migrate_run db1 Hn1)
    as (db2 & counts2 & Hrun2 & Hn2 & Hnamed & Hc2 & _).
  exists db1, counts1, db2, counts2. repeat split; try done.
  by rewrite <-Hsame.
Qed.

End Migration.

Section MigrationExamples.
Import Migration0011.

(** The amended statement on the mixed table: three histories carry a
    non-empty value, and the second run updates three rows again. *)
Lemma migrate_twice_keeps_names_unique_but_updates_again_witness :
  NoDup (name <$> diu_types Histories.mixed)
  ∧ ∃ db1 counts1 db2 counts2,
      migrate_diu_type_data Histories.mixed = (db1, Ret counts1)
      ∧ migrate_diu_type_data db1 = (db2, Ret counts2)
      ∧ (3 <= sum_list counts2)%nat.
Proof.
  assert (NoDup (name <$> diu_types Histories.mixed)) as Hnames
    by (vm_compute; constructor).
  split; [exact Hnames|].
  destruct (migrate_twice_keeps_names_unique_but_updates_again
              Histories.mixed Hnames)
    as (db1 & counts1 & db2 & counts2 & H1 & H2 & _ & _ & Hc).
  exists db1, counts1, db2, counts2. repeat split; [exact H1 | exact H2 |].
  exact Hc.
Defined.

End MigrationExamples.

(** ** The date window of the completed view *)

Section DateWindow.
Import AppointmentService.
Variable env : Env.

Lemma truthy_PStr s : s ≠ "" -> truthy (PStr s) = true.
Proof.
  intros Hs. simpl. destruct (String.eqb_spec s ""); [contradiction|done].
Qed.

Lemma parse_iso_date_ok s D :
  fromisoformat env s = Some D -> parse_iso_date env (PStr s) = Ret D.
Proof. intros H. unfold parse_iso_date. by rewrite H. Qed.

Lemma parse_iso_date_fails s :
  fromisoformat env s = None ->
  parse_iso_date env (PStr s)
  = Raise (ValueError ("Invalid isoformat string: '" +:+ s +:+ "'")).
Proof. intros H. unfold parse_iso_date. by rewrite H. Qed.

Lemma date_add_days_next d :
  Datetime.MIN_ORDINAL <= d + 1 <= Datetime.MAX_ORDINAL ->
  Datetime.date_add_days d 1 = Ret (d + 1).
Proof.
  intros Hd. unfold Datetime.date_add_days.
  destruct (Z.leb_spec Datetime.MIN_ORDINAL (d + 1)),
           (Z.leb_spec (d + 1) Datetime.MAX_ORDINAL); simpl; done || lia.
Qed.

Lemma aware_make_aware dt tz : aware env dt tz = make_aware env dt tz.
Proof. by destruct tz. Qed.

(** The four cases of [date_window]. With [midnight d] the start of day [d]
    in the configured zone (the default zone when [zoneinfo] is missing),
    and every consulted string a parsable date whose next day exists:
    - a non-empty [date = D] selects [midnight D <= appointment_date <
      midnight (D+1)], whatever [start_date] and [end_date] hold; a row at
      exactly [midnight D] is kept and one at [midnight (D+1)] is dropped;
    - otherwise [start_date] and [end_date] together select
      [midnight start <= appointment_date < midnight (end+1)];
    - otherwise [start_date] alone selects [midnight start <= appointment_date];
    - otherwise [end_date] alone selects [appointment_date < midnight (end+1)]. *)
Lemma date_window_cases (f : gmap string value) (qs : list Appointment) :
  let tz := if ZoneInfo_available env then Some (TIME_ZONE env) else None in
  let midnight d :=
    make_aware env (Datetime.combine d Datetime.time_min) tz in
  let next_day_exists d :=
    Datetime.MIN_ORDINAL <= d + 1 <= Datetime.MAX_ORDINAL in
  (∀ s D,
      dict_get f "date" = PStr s -> s ≠ "" ->
      fromisoformat env s = Some D -> next_day_exists D ->
      date_window env f qs
      = Ret (filter (fun a => midnight D <= appointment_date a
                              ∧ appointment_date a < midnight (D + 1)) qs)
      ∧ (∀ a, a ∈ qs -> midnight D < midnight (D + 1) ->
              appointment_date a = midnight D ->
              a ∈ filter (fun a => midnight D <= appointment_date a
                                   ∧ appointment_date a < midnight (D + 1)) qs)
      ∧ (∀ a, appointment_date a = midnight (D + 1) ->
              a ∉ filter (fun a => midnight D <= appointment_date a
                                   ∧ appointment_date a < midnight (D + 1)) qs))
  ∧ (∀ s1 D1 s2 D2,
      truthy (dict_get f "date") = false ->
      dict_get f "start_date" = PStr s1 -> s1 ≠ "" ->
      dict_get f "end_date" = PStr s2 -> s2 ≠ "" ->
      fromisoformat env s1 = Some D1 -> fromisoformat env s2 = Some D2 ->
      next_day_exists D2 ->
      date_window env f qs
      = Ret (filter (fun a => midnight D1 <= appointment_date a
                              ∧ appointment_date a < midnight (D2 + 1)) qs))
  ∧ (∀ s1 D1,
      truthy (dict_get f "date") = false ->
      dict_get f "start_date" = PStr s1 -> s1 ≠ "" ->
      truthy (dict_get f "end_date") = false ->
      fromisoformat env s1 = Some D1 ->
      date_window env f qs
      = Ret (filter (fun a => midnight D1 <= appointment_date a) qs))
  ∧ (∀ s2 D2,
      truthy (dict_get f "date") = false ->
      truthy (dict_get f "start_date") = false ->
      dict_get f "end_date" = PStr s2 -> s2 ≠ "" ->
      fromisoformat env s2 = Some D2 -> next_day_exists D2 ->
      date_window env f qs
      = Ret (filter (fun a => appointment_date a < midnight (D2 + 1)) qs)).
Proof.
  intros tz midnight next_day_exists. unfold date_window. fold tz.
  split; [|split; [|split]].
  - intros s D Hdate Hs Hparse Hnext.
    rewrite Hdate, (truthy_PStr s Hs), (parse_iso_date_ok s D Hparse).
    cbn [mbind result_bind Py.bind].
    rewrite add_days_midnight by done. cbn [mbind result_bind Py.bind].
    rewrite !aware_make_aware. fold (midnight D) (midnight (D + 1)).
    split; [done|]. split.
    + intros a Ha Hlt Heq. apply list_elem_of_filter. split; [lia|done].
    + intros a Heq [[_ Hlt] _]%list_elem_of_filter. lia.
  - intros s1 D1 s2 D2 Hdate Hstart Hs1 Hend Hs2 Hp1 Hp2 Hnext.
    rewrite Hdate, Hstart, Hend, (truthy_PStr s1 Hs1), (truthy_PStr s2 Hs2).
    cbn [andb]. rewrite (parse_iso_date_ok s1 D1 Hp1), (parse_iso_date_ok s2 D2 Hp2).
    cbn [mbind result_bind Py.bind].
    rewrite date_add_days_next by done. cbn [mbind result_bind Py.bind].
    by rewrite !aware_make_aware.
  - intros s1 D1 Hdate Hstart Hs1 Hend Hp1.
    rewrite Hdate, Hend, Hstart, (truthy_PStr s1 Hs1).
    cbn [andb]. rewrite (parse_iso_date_ok s1 D1 Hp1).
    cbn [mbind result_bind Py.bind].
    by rewrite !aware_make_aware.
  - intros s2 D2 Hdate Hstart Hend Hs2 Hp2 Hnext.
    rewrite Hdate, Hstart, Hend, (truthy_PStr s2 Hs2).
    cbn [andb]. rewrite (parse_iso_date_ok s2 D2 Hp2).
    cbn [mbind result_bind Py.bind].
    rewrite date_add_days_next by done. cbn [mbind result_bind Py.bind].
    by rewrite !aware_make_aware.
Qed.

End DateWindow.

Section DateWindowExamples.
Import AppointmentService.

(** [date = 2024-05-02] next to an unusable [start_date]: of the
    appointments at midnight of May 1, 2 and 3 only the second is inside
    the window. *)
Example date_window_on_one_day :
  date_window Concrete.env
    {["date" := PStr "2024-05-02"; "start_date" := PStr "junio"]}
    [Concrete.a1; Concrete.a2; Concrete.a3]
  = Ret [Concrete.a2].
Proof. vm_compute. reflexivity. Qed.

(** The whole view on the same request. *)
Example completed_on_one_day :
  get_completed_appointments Concrete.env Concrete.three_appointments
    (Some {["date" := PStr "2024-05-02"]}) None
  = response (BList 1 [Concrete.a2]) HTTP_200_OK.
Proof. vm_compute. reflexivity. Qed.

Example completed_in_a_range :
  get_completed_appointments Concrete.env Concrete.three_appointments
    (Some {["start_date" := PStr "2024-05-02"; "end_date" := PStr "2024-05-03"]})
    None
  = response (BList 2 [Concrete.a2; Concrete.a3]) HTTP_200_OK.
Proof. vm_compute. reflexivity. Qed.

End DateWindowExamples.

(** ** Unparsable dates *)

Section Unparsable.
Import AppointmentService.
Variable env : Env.

(** The date window raises on an unparsable string that it consults: the
    ValueError of that string, or the error of a [start_date] that is read
    before it. *)
Lemma date_window_unparsable (f : gmap string value) qs s :
  fromisoformat env s = None -> s ≠ "" ->
  dict_get f "date" = PStr s
  ∨ (truthy (dict_get f "date") = false
     ∧ (dict_get f "start_date" = PStr s ∨ dict_get f "end_date" = PStr s)) ->
  ∃ e, date_window env f qs = Raise e.
Proof.
  intros Hparse Hs Hkey. unfold date_window.
  pose proof (truthy_PStr s Hs) as Ht.
  pose proof (parse_iso_date_fails env s Hparse) as Hfail.
  destruct Hkey as [Hdate|[Hdate [Hstart|Hend]]].
  - rewrite Hdate, Ht, Hfail. by eexists.
  - rewrite Hdate, Hstart, Ht. cbn [andb].
    destruct (truthy (dict_get f "end_date")); rewrite Hfail; by eexists.
  - rewrite Hdate, Hend, Ht.
    destruct (truthy (dict_get f "start_date")); cbn [andb].
    + destruct (parse_iso_date env (dict_get f "start_date")) as [D1|e1].
      * cbn [mbind result_bind Py.bind]. rewrite Hfail. by eexists.
      * by eexists.
    + rewrite Hfail. by eexists.
Qed.

(** Only the consulted key matters: with a usable [date], the window is the
    same whatever [start_date] and [end_date] hold. *)
Lemma date_window_ignores_range (f : gmap string value) qs v1 v2 :
  truthy (dict_get f "date") = true ->
  date_window env (<["start_date" := v1]> (<["end_date" := v2]> f)) qs
  = date_window env f qs.
Proof.
  intros Hdate. unfold date_window.
  assert (dict_get (<["start_date" := v1]> (<["end_date" := v2]> f)) "date"
          = dict_get f "date") as ->
    by (unfold dict_get; by rewrite !lookup_insert_ne).
  by rewrite Hdate.
Qed.

Lemma dict_get_PStr (f : gmap string value) k s :
  dict_get f k = PStr s -> f !! k = Some (PStr s).
Proof. unfold dict_get. destruct (f !! k); simpl; congruence. Qed.

Lemma dict_truthy_lookup {V} (f : gmap string V) k v :
  f !! k = Some v -> dict_truthy (Some f) = true.
Proof.
  intros Hk. unfold dict_truthy.
  rewrite bool_decide_eq_false_2; [done|].
  intros ->. by rewrite lookup_empty in Hk.
Qed.

Lemma dict_truthy_get (f : gmap string value) k :
  truthy (dict_get f k) = true -> dict_truthy (Some f) = true.
Proof.
  unfold dict_get. destruct (f !! k) as [v|] eqn:Hk; [|done].
  intros _. by eapply dict_truthy_lookup.
Qed.

(** Once the date window raises, so does the whole query set. *)
Lemma completed_queryset_raises db (f : gmap string value) :
  dict_truthy (Some f) = true ->
  (∀ qs, ∃ e, date_window env f qs = Raise e) ->
  ∃ e, completed_queryset env db (Some f) = Raise e.
Proof.
  intros Hf Hwindow. unfold completed_queryset. rewrite Hf.
  destruct (status_id_by_name db "Completado") as [cid|e];
    cbn [mbind result_bind Py.bind default]; unfold Datatypes.id; [|by eexists].
  destruct (if dict_in "appointment_status" f then _ else _) as [q0|e];
    cbn [mbind result_bind Py.bind]; [|by eexists].
  unfold other_filters.
  destruct (filter_fk env _ patient _ q0) as [q1|e];
    cbn [mbind result_bind Py.bind]; [|by eexists].
  destruct (filter_fk env _ therapist _ q1) as [q2|e];
    cbn [mbind result_bind Py.bind]; [|by eexists].
  apply Hwindow.
Qed.

(** The query set reads only its own keys: the range keys do not matter
    next to a usable [date]. *)
Lemma completed_queryset_ignores_range db (f : gmap string value) v1 v2 :
  truthy (dict_get f "date") = true ->
  completed_queryset env db
    (Some (<["start_date" := v1]> (<["end_date" := v2]> f)))
  = completed_queryset env db (Some f).
Proof.
  intros Hdate. unfold completed_queryset, other_filters.
  rewrite (dict_truthy_get f "date" Hdate).
  rewrite (dict_truthy_lookup _ "start_date" v1) by apply lookup_insert_eq.
  cbn [default]. unfold Datatypes.id, dict_in, dict_get.
  rewrite !lookup_insert_ne by done.
  destruct (status_id_by_name db "Completado") as [cid|e];
    cbn [mbind result_bind Py.bind]; [|done].
  destruct (if bool_decide _ then _ else _) as [q0|e];
    cbn [mbind result_bind Py.bind]; [|done].
  destruct (filter_fk env _ patient _ q0) as [q1|e];
    cbn [mbind result_bind Py.bind]; [|done].
  destruct (filter_fk env _ therapist _ q1) as [q2|e];
    cbn [mbind result_bind Py.bind]; [|done].
  by apply date_window_ignores_range.
Qed.

(** C4, as stated, fails: the ValueError of an unparsable [date] does not
    reach the caller, who gets a 500 response; and an unparsable
    [start_date] next to a usable [date] gives a normal result. *)
Lemma unparsable_date_is_not_propagated :
  fromisoformat Concrete.env "junio" = None
  ∧ get_completed_appointments Concrete.env Concrete.three_appointments
      (Some {["date" := PStr "junio"]}) None
    = response
        (BError "Error al obtener citas completadas: Invalid isoformat string: 'junio'")
        HTTP_500_INTERNAL_SERVER_ERROR
  ∧ get_completed_appointments Concrete.env Concrete.three_appointments
      (Some {["date" := PStr "2024-05-02"; "start_date" := PStr "junio"]}) None
    = response (BList 1 [Concrete.a2]) HTTP_200_OK.
Proof. repeat split; vm_compute; reflexivity. Qed.

(** C4, amended. When the date string the window consults is unparsable (a
    non-empty [date]; or, without a usable [date], a non-empty [start_date]
    or [end_date]), [get_completed_appointments] answers with the
    internal-error response that carries the message of the exception; and
    next to a usable [date] the values of [start_date] and [end_date] have
    no effect on the answer. *)
Theorem unparsable_date_answers_500 db (f : gmap string value) pagination s :
  fromisoformat env s = None -> s ≠ "" ->
  dict_get f "date" = PStr s
  ∨ (truthy (dict_get f "date") = false
     ∧ (dict_get f "start_date" = PStr s ∨ dict_get f "end_date" = PStr s)) ->
  (∃ msg,
      get_completed_appointments env db (Some f) pagination
      = response (BError ("Error al obtener citas completadas: " +:+ msg))
          HTTP_500_INTERNAL_SERVER_ERROR)
  ∧ (∀ (g : gmap string value) v1 v2,
        truthy (dict_get g "date") = true ->
        get_completed_appointments env db
          (Some (<["start_date" := v1]> (<["end_date" := v2]> g))) pagination
        = get_completed_appointments env db (Some g) pagination).
Proof.
  intros Hparse Hs Hkey. split.
  - destruct (completed_queryset_raises db f) as [e He].
    + destruct Hkey as [H|[_ [H|H]]];
        apply dict_get_PStr in H; by eapply dict_truthy_lookup.
    + intros qs. by eapply date_window_unparsable.
    + exists (str e). unfold get_completed_appointments. by rewrite He.
  - intros g v1 v2 Hdate. unfold get_completed_appointments.
    by rewrite completed_queryset_ignores_range.
Qed.

End Unparsable.

Section UnparsableExamples.
Import AppointmentService.

(** The amended statement for [end_date = "junio"] without a [date]. *)
Lemma unparsable_date_answers_500_witness :
  ∃ msg,
    get_completed_appointments Concrete.env Concrete.three_appointments
      (Some {["end_date" := PStr "junio"]}) (Concrete.paging 1 10)
    = response (BError ("Error al obtener citas completadas: " +:+ msg))
        HTTP_500_INTERNAL_SERVER_ERROR.
Proof.
  destruct (unparsable_date_answers_500 Concrete.env Concrete.three_appointments
              {["end_date" := PStr "junio"]} (Concrete.paging 1 10) "junio")
    as [Hmsg _].
  - vm_compute. reflexivity.
  - discriminate.
  - right. split; [vm_compute; reflexivity|]. right. vm_compute. reflexivity.
  - exact Hmsg.
Defined.

End UnparsableExamples.

(** ** The status of the completed view *)

Section CompletedStatus.
Import AppointmentService.

Lemma no_status_key (filters : option (gmap string value)) :
  (∀ f, filters = Some f -> f !! "appointment_status" = None) ->
  dict_in "appointment_status" (default ∅ filters) = false.
Proof.
  intros Hkey. unfold dict_in. apply bool_decide_eq_false_2.
  destruct filters as [f|]; simpl.
  - rewrite (Hkey f eq_refl). by intros [? ?].
  - rewrite lookup_empty. by intros [? ?].
Qed.

(** With a resolved status row the query set is the status filter followed
    by the other filters. *)
Lemma completed_queryset_with_status env db filters st :
  (∀ f, filters = Some f -> f !! "appointment_status" = None) ->
  objects_get "AppointmentStatus"
    (filter (fun s => name s = "Completado") (statuses db)) = Ret st ->
  status_id st ≠ 0 ->
  completed_queryset env db filters
  = let with_status :=
      filter (fun a => deleted_at a = None
                       ∧ appointment_status a = Some (status_id st))
        (appointments db) in
    if dict_truthy filters
    then other_filters env (default ∅ filters) with_status
    else Ret with_status.
Proof.
  intros Hkey Hget Hid. unfold completed_queryset, status_id_by_name.
  rewrite Hget. cbn [mbind result_bind Py.bind].
  rewrite (no_status_key filters Hkey).
  unfold completed_or_past, id_truthy.
  destruct (Z.eqb_spec (status_id st) 0) as [|_]; [done|]. cbn [negb].
  rewrite list_filter_filter.
  rewrite (list_filter_iff _ (fun a => deleted_at a = None
                                ∧ appointment_status a = Some (status_id st)))
    by (intros a; tauto).
  by destruct (dict_truthy filters).
Qed.

(** Without a row of that name the date fallback takes its place. *)
Lemma completed_queryset_without_status env db filters :
  (∀ f, filters = Some f -> f !! "appointment_status" = None) ->
  filter (fun s => name s = "Completado") (statuses db) = [] ->
  completed_queryset env db filters
  = let past :=
      filter (fun a => deleted_at a = None
                       ∧ appointment_date a < prep_date env (today env))
        (appointments db) in
    if dict_truthy filters
    then other_filters env (default ∅ filters) past
    else Ret past.
Proof.
  intros Hkey Hnone. unfold completed_queryset, status_id_by_name.
  rewrite Hnone. cbn [objects_get is_DoesNotExist String.eqb Ascii.eqb Bool.eqb].
  cbn [mbind result_bind Py.bind].
  rewrite (no_status_key filters Hkey).
  unfold completed_or_past, id_truthy.
  rewrite list_filter_filter.
  rewrite (list_filter_iff _ (fun a => deleted_at a = None
                     ∧ appointment_date a < prep_date env (today env)))
    by (intros a; tauto).
  by destruct (dict_truthy filters).
Qed.

(** C6. For a filter bag without [appointment_status]:
    - when [get(name="Completado")] resolves to a row (with a usable key),
      the query set is exactly the non-deleted appointments of that status,
      passed through the other supplied filters; every result has that
      status; and the current date has no influence on it;
    - when no row has that name, the same holds with
      [appointment_date < today] in place of the status. *)
Theorem completed_status_before_date_fallback env db filters :
  (∀ f, filters = Some f -> f !! "appointment_status" = None) ->
  (∀ st,
      objects_get "AppointmentStatus"
        (filter (fun s => name s = "Completado") (statuses db)) = Ret st ->
      status_id st ≠ 0 ->
      let with_status :=
        filter (fun a => deleted_at a = None
                         ∧ appointment_status a = Some (status_id st))
          (appointments db) in
      completed_queryset env db filters
      = (if dict_truthy filters
         then other_filters env (default ∅ filters) with_status
         else Ret with_status)
      ∧ (∀ qs a, completed_queryset env db filters = Ret qs -> a ∈ qs ->
                 appointment_status a = Some (status_id st))
      ∧ (∀ day pagination,
            get_completed_appointments
              (mkEnv (TIME_ZONE env) (ZoneInfo_available env) (make_aware env)
                 (prep_date env) (fromisoformat env) (to_python_date env)
                 (int_of_str env) day (now env))
              db filters pagination
            = get_completed_appointments env db filters pagination))
  ∧ (filter (fun s => name s = "Completado") (statuses db) = [] ->
     let past :=
       filter (fun a => deleted_at a = None
                        ∧ appointment_date a < prep_date env (today env))
         (appointments db) in
     completed_queryset env db filters
     = (if dict_truthy filters
        then other_filters env (default ∅ filters) past
        else Ret past)).
Proof.
  intros Hkey. split.
  - intros st Hget Hid with_status.
    pose proof (completed_queryset_with_status env db filters st Hkey Hget Hid)
      as Heq.
    split; [exact Heq|]. split.
    + intros qs a Hqs Ha. rewrite Heq in Hqs. cbv zeta in Hqs.
      assert (qs ⊆ with_status) as Hsub.
      { destruct (dict_truthy filters).
        - by eapply other_filters_subseteq.
        - by simplify_eq. }
      apply Hsub, list_elem_of_filter in Ha. tauto.
    + intros day pagination. unfold get_completed_appointments.
      rewrite Heq.
      by rewrite (completed_queryset_with_status _ db filters st Hkey Hget Hid).
  - intros Hnone. by apply completed_queryset_without_status.
Qed.

(** The theorem on a store with the status rows and a patient filter: the
    completed appointment lies in the future and is returned, the past one
    without status is not. *)
Lemma completed_status_before_date_fallback_witness :
  get_completed_appointments Concrete.env Concrete.with_statuses
    (Some {["patient" := PInt 1]}) None
  = response
      (BList 1 [Concrete.appt 1 (Concrete.ymd 2024 6 1) (Datetime.hm 10 0) (Some 2)])
      HTTP_200_OK.
Proof.
  destruct (completed_status_before_date_fallback Concrete.env
              Concrete.with_statuses (Some {["patient" := PInt 1]}))
    as [Hfound _].
  - intros f [= <-]. vm_compute. reflexivity.
  - destruct (Hfound Concrete.completado) as [Heq _].
    + vm_compute. reflexivity.
    + vm_compute. discriminate.
    + unfold get_completed_appointments. rewrite Heq. vm_compute. reflexivity.
Defined.

(** Without status rows the same call falls back to the past dates. *)
Example completed_falls_back_to_past :
  get_completed_appointments Concrete.env
    (mkStore [Concrete.appt 1 (Concrete.ymd 2024 6 1) (Datetime.hm 10 0) (Some 2);
              Concrete.appt 2 (Concrete.ymd 2024 5 2) (Datetime.hm 10 0) None]
       [] [])
    None None
  = response
      (BList 1 [Concrete.appt 2 (Concrete.ymd 2024 5 2) (Datetime.hm 10 0) None])
      HTTP_200_OK.
Proof. vm_compute. reflexivity. Qed.

End CompletedStatus.

(** * Further properties of the embedded code *)

(** ** Availability: midnight, irrelevant rows, shorter requests *)

Section AvailabilityEdges.
Import AppointmentService.

Lemma add_minutes_Ret dt minutes end_datetime :
  Datetime.add_minutes dt minutes = Ret end_datetime ->
  end_datetime = dt + minutes * Datetime.US_PER_MINUTE
  ∧ Datetime.representable end_datetime = true.
Proof.
  unfold Datetime.add_minutes, Datetime.add_us.
  destruct (Datetime.representable _) eqn:Hr; [|done]. by intros [= <-].
Qed.

Lemma time_of_next_day date t :
  Datetime.US_PER_DAY <= t < 2 * Datetime.US_PER_DAY ->
  Datetime.time_of (Datetime.combine date t) = t - Datetime.US_PER_DAY.
Proof.
  intros Ht. unfold Datetime.time_of, Datetime.combine.
  replace (date * Datetime.US_PER_DAY + t)
    with (t - Datetime.US_PER_DAY + (date + 1) * Datetime.US_PER_DAY) by lia.
  rewrite Z.mod_add by (pose proof US_PER_DAY_pos; lia).
  apply Z.mod_small. lia.
Qed.

(** The answer when nothing conflicts. *)
Lemma check_availability_free env db date hour duration end_datetime :
  Datetime.add_minutes (Datetime.combine date hour) duration = Ret end_datetime ->
  (∀ a, a ∈ appointments db ->
        deleted_at a = None -> appointment_date a = prep_date env date ->
        Datetime.time_of end_datetime <= Models.hour a
        ∨ Models.hour a <= Datetime.time_of (Datetime.combine date hour)) ->
  check_availability env db date hour duration
  = response (BAvailability true 0) HTTP_200_OK.
Proof.
  intros Hend Hfree. unfold check_availability. rewrite Hend.
  cbn [mbind result_bind Py.bind try_except].
  rewrite conflicting_one_filter, filter_empty; [done|].
  intros a Ha (Hact & Hday & Hconf). apply Hconf. by apply Hfree.
Qed.

(** The answer says "available" only when nothing conflicts. *)
Lemma check_availability_free_inv env db date hour duration end_datetime n :
  Datetime.add_minutes (Datetime.combine date hour) duration = Ret end_datetime ->
  check_availability env db date hour duration
  = response (BAvailability true n) HTTP_200_OK ->
  ∀ a, a ∈ appointments db ->
       deleted_at a = None -> appointment_date a = prep_date env date ->
       Datetime.time_of end_datetime <= Models.hour a
       ∨ Models.hour a <= Datetime.time_of (Datetime.combine date hour).
Proof.
  intros Hend. unfold check_availability. rewrite Hend.
  cbn [mbind result_bind Py.bind try_except].
  rewrite conflicting_one_filter.
  set (conflicts := filter _ (appointments db)).
  destruct conflicts as [|c cs] eqn:Hc.
  - intros _ a Ha Hact Hday.
    destruct (decide (Datetime.time_of end_datetime <= Models.hour a
                      ∨ Models.hour a
                        <= Datetime.time_of (Datetime.combine date hour)))
      as [|Hn]; [done|].
    exfalso. eapply (filter_nil_not_elem_of _ _ a Hc); [|done]. done.
  - rewrite bool_decide_eq_true_2 by done. simpl. intros [= ?].
Qed.

(** X1. A request that reaches or passes midnight (and lasts at most 24
    hours) is always reported available, whatever appointments exist: the
    end of the interval is compared as a time of day, which has wrapped
    around to at most the start time. *)
Theorem check_availability_across_midnight env db date hour duration end_datetime :
  0 <= hour < Datetime.US_PER_DAY ->
  Datetime.add_minutes (Datetime.combine date hour) duration = Ret end_datetime ->
  Datetime.US_PER_DAY <= hour + duration * Datetime.US_PER_MINUTE ->
  duration <= 24 * 60 ->
  check_availability env db date hour duration
  = response (BAvailability true 0) HTTP_200_OK.
Proof.
  intros Hhour Hend Hwrap Hday.
  apply (check_availability_free _ _ _ _ _ _ Hend).
  intros a _ _ _.
  destruct (add_minutes_Ret _ _ _ Hend) as [-> _].
  replace (Datetime.combine date hour + duration * Datetime.US_PER_MINUTE)
    with (Datetime.combine date (hour + duration * Datetime.US_PER_MINUTE))
    by (unfold Datetime.combine; lia).
  assert (duration * Datetime.US_PER_MINUTE <= Datetime.US_PER_DAY)
    by (unfold Datetime.US_PER_DAY, Datetime.US_PER_MINUTE in *; lia).
  rewrite time_of_next_day, time_of_combine by lia. lia.
Qed.

(** X2. Soft-deleted appointments, appointments of other days, tickets and
    status rows never influence the answer: a store that differs only in
    such rows gets the same response. *)
Theorem check_availability_ignores_other_rows
    env rows1 rows2 a tickets1 statuses1 tickets2 statuses2 date hour duration :
  deleted_at a ≠ None ∨ appointment_date a ≠ prep_date env date ->
  check_availability env (mkStore (rows1 ++ a :: rows2) tickets1 statuses1)
    date hour duration
  = check_availability env (mkStore (rows1 ++ rows2) tickets2 statuses2)
      date hour duration.
Proof.
  intros Hother. unfold check_availability.
  destruct (Datetime.add_minutes _ duration) as [end_datetime|e]; [|done].
  cbn [mbind result_bind Py.bind try_except appointments].
  rewrite !conflicting_one_filter, !filter_app, filter_cons.
  rewrite decide_False; [done|]. intros (Hact & Hday & _). tauto.
Qed.

(** X3. Within one day, shortening a request keeps it available: if
    [duration] minutes from [hour] are reported free and end before
    midnight, so are [shorter] minutes. *)
Theorem check_availability_shorter_request env db date hour duration shorter :
  0 <= hour ->
  0 <= shorter <= duration ->
  hour + duration * Datetime.US_PER_MINUTE < Datetime.US_PER_DAY ->
  check_availability env db date hour duration
  = response (BAvailability true 0) HTTP_200_OK ->
  check_availability env db date hour shorter
  = response (BAvailability true 0) HTTP_200_OK.
Proof.
  intros Hhour Hshort Hday Hfree.
  assert (0 < Datetime.US_PER_MINUTE) as Hmin by reflexivity.
  destruct (Datetime.add_minutes (Datetime.combine date hour) duration)
    as [end_datetime|e] eqn:Hend.
  2:{ unfold check_availability in Hfree. rewrite Hend in Hfree. done. }
  pose proof (check_availability_free_inv _ _ _ _ _ _ _ Hend Hfree) as Hrule.
  destruct (add_minutes_Ret _ _ _ Hend) as [-> Hrep].
  assert (Datetime.add_minutes (Datetime.combine date hour) shorter
          = Ret (Datetime.combine date (hour + shorter * Datetime.US_PER_MINUTE)))
    as Hend'.
  { unfold Datetime.add_minutes, Datetime.add_us.
    replace (Datetime.combine date hour + shorter * Datetime.US_PER_MINUTE)
      with (Datetime.combine date (hour + shorter * Datetime.US_PER_MINUTE))
      by (unfold Datetime.combine; lia).
    replace (Datetime.combine date hour + duration * Datetime.US_PER_MINUTE)
      with (Datetime.combine date (hour + duration * Datetime.US_PER_MINUTE))
      in Hrep by (unfold Datetime.combine; lia).
    unfold Datetime.representable in *.
    rewrite date_of_combine in Hrep by nia.
    rewrite date_of_combine by nia. by rewrite Hrep. }
  apply (check_availability_free _ _ _ _ _ _ Hend').
  intros a Ha Hact Hsame. specialize (Hrule a Ha Hact Hsame).
  replace (Datetime.combine date hour + duration * Datetime.US_PER_MINUTE)
    with (Datetime.combine date (hour + duration * Datetime.US_PER_MINUTE))
    in Hrule by (unfold Datetime.combine; lia).
  rewrite time_of_combine in Hrule by nia.
  rewrite (time_of_combine date (hour + shorter * _)) by nia.
  destruct Hrule as [Hrule|Hrule]; [left; nia | by right].
Qed.

End AvailabilityEdges.

Section AvailabilityEdgesExamples.
Import AppointmentService.

(** X1 at 23:00 for 60 minutes, on a day with an appointment at 23:30. *)
Lemma check_availability_across_midnight_witness :
  check_availability Concrete.env
    (mkStore [Concrete.appt 1 (Concrete.ymd 2024 6 1) (Datetime.hm 23 30) None] [] [])
    (Concrete.ymd 2024 6 1) (Datetime.hm 23 0) 60
  = response (BAvailability true 0) HTTP_200_OK.
Proof.
  apply (check_availability_across_midnight _ _ _ _ _
           (Datetime.combine (Concrete.ymd 2024 6 2) 0)).
  - vm_compute. split; [discriminate | reflexivity].
  - vm_compute. reflexivity.
  - vm_compute. discriminate.
  - vm_compute. discriminate.
Defined.

(** X2 for a soft-deleted appointment at 10:30. *)
Lemma check_availability_ignores_other_rows_witness :
  check_availability Concrete.env
    (mkStore ([] ++ appointment_deleted
                      (Concrete.appt 1 (Concrete.ymd 2024 6 1) (Datetime.hm 10 30) None) 5
                 :: []) [] [])
    (Concrete.ymd 2024 6 1) (Datetime.hm 10 0) 60
  = check_availability Concrete.env (mkStore ([] ++ []) [] [])
      (Concrete.ymd 2024 6 1) (Datetime.hm 10 0) 60.
Proof.
  apply check_availability_ignores_other_rows. left. discriminate.
Defined.

(** X3: free from 10:00 for 60 minutes with an appointment at 11:00, hence
    free for 30 minutes. *)
Lemma check_availability_shorter_request_witness :
  check_availability Concrete.env
    (mkStore [Concrete.appt 1 (Concrete.ymd 2024 6 1) (Datetime.hm 11 0) None] [] [])
    (Concrete.ymd 2024 6 1) (Datetime.hm 10 0) 30
  = response (BAvailability true 0) HTTP_200_OK.
Proof.
  apply (check_availability_shorter_request _ _ _ _ 60).
  - vm_compute. discriminate.
  - split; vm_compute; discriminate.
  - vm_compute. reflexivity.
  - vm_compute. reflexivity.
Defined.

End AvailabilityEdgesExamples.

(** ** Operations on one appointment *)

Section ByIdEdges.
Import AppointmentService.
Variable env : Env.

Lemma no_active_row rows appointment_id :
  (∀ a, a ∈ rows -> id a = appointment_id -> deleted_at a ≠ None)
  <-> filter (fun a => id a = appointment_id ∧ deleted_at a = None) rows = [].
Proof.
  split.
  - intros Habsent. apply filter_empty. intros a Ha [Hid Hact].
    by apply (Habsent a).
  - intros Hf a Ha Hid Hact.
    assert (a ∈ filter (fun a => id a = appointment_id ∧ deleted_at a = None) rows)
      as Hin by (by apply list_elem_of_filter).
    rewrite Hf in Hin. by apply elem_of_nil in Hin.
Qed.

(** Rows with a unique key: two rows with the same key are the same row. *)
Lemma NoDup_fmap_same_key {A B} (f : A -> B) (l : list A) x y :
  NoDup (f <$> l) -> x ∈ l -> y ∈ l -> f x = f y -> x = y.
Proof.
  induction l as [|a l IH]; intros Hnd Hx Hy Hf; [by apply elem_of_nil in Hx|].
  rewrite fmap_cons in Hnd. apply NoDup_cons in Hnd as [Ha Hl].
  apply elem_of_cons in Hx as [->|Hx], Hy as [->|Hy]; try done.
  - destruct Ha. rewrite Hf. by apply list_elem_of_fmap_2.
  - destruct Ha. rewrite <- Hf. by apply list_elem_of_fmap_2.
  - by apply IH.
Qed.

(** A row-wise update that only changes rows outside [P], and keeps them
    outside, is invisible through [P]. *)
Lemma filter_map_frame {A} (P : A -> Prop) `{!∀ x, Decision (P x)}
    (g : A -> A) (l : list A) :
  (∀ x, x ∈ l -> g x = x ∨ (¬ P x ∧ ¬ P (g x))) ->
  filter P (map g l) = filter P l.
Proof.
  induction l as [|a l IH]; intros Hg; [done|]. cbn [map].
  rewrite !filter_cons, IH by (intros x Hx; apply Hg; by right).
  destruct (Hg a) as [->|[Hn Hn']]; [left | done |].
  by rewrite !decide_False.
Qed.

(** X4. [get_by_id] and [delete] answer 404 exactly when no non-deleted
    appointment has the id, and [delete] then leaves the store as it
    was. *)
Theorem not_found_means_no_active_row db appointment_id :
  let absent :=
    ∀ a, a ∈ appointments db -> id a = appointment_id -> deleted_at a ≠ None in
  let not_found := response (BError "Cita no encontrada") HTTP_404_NOT_FOUND in
  (absent -> get_by_id db appointment_id = not_found
             ∧ delete env appointment_id db = (db, Ret not_found))
  ∧ (status (get_by_id db appointment_id) = HTTP_404_NOT_FOUND -> absent)
  ∧ (∀ db' r, delete env appointment_id db = (db', Ret r) ->
              status r = HTTP_404_NOT_FOUND -> absent).
Proof.
  intros absent not_found. subst absent not_found.
  destruct (no_active_row (appointments db) appointment_id) as [Hnone Habsent].
  unfold get_by_id, delete. io_simpl.
  destruct (filter _ (appointments db)) as [|a [|b l]]; io_simpl.
  - split; [done|]. split; intros; by apply Habsent.
  - split; [by intros ?%Hnone|]. split; [by intros [=]|].
    intros db' r.
    destruct (filter _ (tickets db)) as [|t [|t' ts]]; io_simpl;
      by intros [= <- <-] [=].
  - split; [by intros ?%Hnone|]. split; [by intros [=]|].
    by intros db' r [= <- <-] [=].
Qed.

(** X6. With unique primary keys, [get_by_id] on the id of a non-deleted
    appointment answers 200 with that very row. *)
Theorem get_by_id_returns_the_active_row db a :
  NoDup (id <$> appointments db) ->
  a ∈ appointments db -> deleted_at a = None ->
  get_by_id db (id a) = response (BAppointment a) HTTP_200_OK.
Proof.
  intros Hkeys Ha Hact. unfold get_by_id.
  assert (a ∈ filter (fun r => id r = id a ∧ deleted_at r = None) (appointments db))
    as Hin by (by apply list_elem_of_filter).
  pose proof (filter_at_most_one id
                (fun r => id r = id a ∧ deleted_at r = None) (appointments db) Hkeys)
    as Hone.
  destruct (filter _ (appointments db)) as [|x [|y l]].
  - by apply elem_of_nil in Hin.
  - apply list_elem_of_singleton in Hin as ->. done.
  - exfalso. simpl in Hone.
    assert (S (S (length l)) <= 1)%nat; [|lia].
    apply Hone. intros r r' _ _ [-> _] [-> _]. done.
Qed.

(** X7. A successful [delete] cannot be repeated: the second call answers
    404 and changes nothing. *)
Theorem delete_again_is_not_found db db' appointment_id r :
  delete env appointment_id db = (db', Ret r) ->
  status r = HTTP_200_OK ->
  delete env appointment_id db'
  = (db', Ret (response (BError "Cita no encontrada") HTTP_404_NOT_FOUND)).
Proof.
  intros Hdel Hok.
  assert (filter (fun a => id a = appointment_id ∧ deleted_at a = None)
            (appointments db') = []) as Hgone.
  { revert Hdel. unfold delete. io_simpl.
    destruct (filter _ (appointments db)) as [|a [|b l]] eqn:Hrows; io_simpl.
    - intros [= <- <-]. done.
    - assert (id a = appointment_id) as Hid.
      { assert (a ∈ filter (fun a => id a = appointment_id ∧ deleted_at a = None)
                      (appointments db)) as Hin by (rewrite Hrows; left).
        apply list_elem_of_filter in Hin. tauto. }
      assert (∀ tk, filter (fun a => id a = appointment_id ∧ deleted_at a = None)
                (appointments
                   (mkStore (save_appointment (appointment_deleted a (now env))
                               (appointments db)) tk (statuses db))) = [])
        as Hhidden.
      { intros tk. apply filter_empty. intros x Hx [Hx_id Hx_act].
        rewrite (save_appointment_elem _ _ x Hx) in Hx_act
          by (simpl; congruence). done. }
      destruct (filter _ (tickets db)) as [|t [|t' ts]]; io_simpl;
        intros [= <- <-]; try done; apply Hhidden.
    - intros [= <- <-]. done. }
  unfold delete. io_simpl. by rewrite Hgone.
Qed.

(** X8. [delete] is confined to its appointment: whatever it answers, the
    status rows, the appointments with another id and (ticket keys being
    unique) the tickets of other appointments are as before. *)
Theorem delete_touches_only_its_rows db appointment_id :
  NoDup (ticket_id <$> tickets db) ->
  let db' := (delete env appointment_id db).1 in
  statuses db' = statuses db
  ∧ filter (fun a => id a ≠ appointment_id) (appointments db')
    = filter (fun a => id a ≠ appointment_id) (appointments db)
  ∧ filter (fun t => ticket_appointment t ≠ appointment_id) (tickets db')
    = filter (fun t => ticket_appointment t ≠ appointment_id) (tickets db).
Proof.
  intros Hkeys. unfold delete. io_simpl.
  destruct (filter _ (appointments db)) as [|a [|b l]] eqn:Hrows; io_simpl;
    [done| |done].
  assert (id a = appointment_id) as Hid.
  { assert (a ∈ filter (fun a => id a = appointment_id ∧ deleted_at a = None)
                  (appointments db)) as Hin by (rewrite Hrows; left).
    apply list_elem_of_filter in Hin. tauto. }
  assert (filter (fun r => id r ≠ appointment_id)
            (save_appointment (appointment_deleted a (now env)) (appointments db))
          = filter (fun r => id r ≠ appointment_id) (appointments db)) as Hothers.
  { apply filter_map_frame. intros x _.
    case_bool_decide as Hsame; [right|by left]. simpl in *.
    split; intros Hne; apply Hne; congruence. }
  destruct (filter _ (tickets db)) as [|t [|t' ts]] eqn:Htickets; io_simpl;
    [done| |done].
  split; [done|]. split; [done|].
  assert (t ∈ tickets db ∧ ticket_appointment t = appointment_id) as [Ht Ht_app].
  { assert (t ∈ filter (fun t => ticket_appointment t = id a) (tickets db))
      as Hin by (rewrite Htickets; left).
    apply list_elem_of_filter in Hin. split; [tauto|]. destruct Hin. congruence. }
  apply filter_map_frame. intros x Hx.
  case_bool_decide as Hsame; [right|by left].
  assert (x = t) as -> by (by apply (NoDup_fmap_same_key ticket_id (tickets db))).
  simpl. split; intros Hne; apply Hne; congruence.
Qed.

End ByIdEdges.

Section UpdateEdges.
Import AppointmentService AppointmentServiceRest.
Variable is_valid : Appointment -> gmap string value -> Store -> bool.
Variable errors : Appointment -> gmap string value -> Store -> string.
Variable save : Appointment -> gmap string value -> io Store Appointment.

(** X5. [update] of an id that no non-deleted appointment has answers 404
    whatever the payload: the serializer is not consulted and nothing is
    written. *)
Theorem update_not_found_before_validation db appointment_id data :
  (∀ a, a ∈ appointments db -> id a = appointment_id -> deleted_at a ≠ None) ->
  update is_valid errors save appointment_id data db
  = (db, Ret (update_response (UError "Cita no encontrada") HTTP_404_NOT_FOUND)).
Proof.
  rewrite no_active_row. intros Hrows.
  unfold update, atomic, update_body. io_simpl. by rewrite Hrows.
Qed.

End UpdateEdges.

Section ByIdExamples.
Import AppointmentService AppointmentServiceRest.

(** X4 on a store without appointment 9. *)
Lemma not_found_means_no_active_row_witness :
  get_by_id Concrete.booked 9
  = response (BError "Cita no encontrada") HTTP_404_NOT_FOUND
  ∧ delete Concrete.env 9 Concrete.booked
    = (Concrete.booked,
       Ret (response (BError "Cita no encontrada") HTTP_404_NOT_FOUND)).
Proof.
  apply (not_found_means_no_active_row Concrete.env Concrete.booked 9).
  apply no_active_row. vm_compute. reflexivity.
Defined.

(** X5 with a serializer that would accept the payload. *)
Lemma update_not_found_before_validation_witness :
  update (fun _ _ _ => true) (fun _ _ _ => EmptyString) (fun a _ db => (db, Ret a))
    9 Concrete.new_appointment Concrete.booked
  = (Concrete.booked,
     Ret (update_response (UError "Cita no encontrada") HTTP_404_NOT_FOUND)).
Proof.
  apply update_not_found_before_validation.
  apply no_active_row. vm_compute. reflexivity.
Defined.

(** X6 for the second appointment of [booked]. *)
Lemma get_by_id_returns_the_active_row_witness :
  get_by_id Concrete.booked (id Concrete.a2)
  = response (BAppointment Concrete.a2) HTTP_200_OK.
Proof.
  apply get_by_id_returns_the_active_row.
  - apply (bool_decide_unpack _). vm_compute. exact I.
  - apply (bool_decide_unpack _). vm_compute. exact I.
  - reflexivity.
Defined.

(** X7: appointment 1 of [booked], deleted twice. *)
Lemma delete_again_is_not_found_witness :
  delete Concrete.env 1 (delete Concrete.env 1 Concrete.booked).1
  = ((delete Concrete.env 1 Concrete.booked).1,
     Ret (response (BError "Cita no encontrada") HTTP_404_NOT_FOUND)).
Proof.
  apply (delete_again_is_not_found Concrete.env Concrete.booked _ 1
           (response (BMessage "Cita eliminada exitosamente") HTTP_200_OK)).
  - vm_compute. reflexivity.
  - reflexivity.
Defined.

(** X8: deleting appointment 1 leaves appointment 2 as it was. *)
Lemma delete_touches_only_its_rows_witness :
  filter (fun a => id a ≠ 1)
    (appointments (delete Concrete.env 1 Concrete.booked).1)
  = filter (fun a => id a ≠ 1) (appointments Concrete.booked).
Proof.
  apply (delete_touches_only_its_rows Concrete.env Concrete.booked 1).
  apply (bool_decide_unpack _). vm_compute. exact I.
Defined.

End ByIdExamples.

(** ** Creating an appointment *)

Section CreateEdges.
Import AppointmentService.
Variable is_valid : gmap string value -> Store -> bool.
Variable errors : gmap string value -> Store -> string.
Variable save : gmap string value -> io Store Appointment.

Lemma find_first {A} (f : A -> bool) (before : list A) x after :
  (∀ g, g ∈ before -> f g = false) -> f x = true ->
  List.find f (before ++ x :: after)%list = Some x.
Proof.
  induction before as [|b before IH]; intros Hb Hx; simpl.
  - by rewrite Hx.
  - rewrite (Hb b) by left. apply IH; [|done]. intros g Hg. apply Hb. by right.
Qed.

(** X9. The required fields are checked in the order patient,
    appointment_date, hour: the first one whose key is missing is the one
    reported, with 400, before the serializer is consulted and with
    nothing written. *)
Theorem create_reports_first_missing_field payload db
    (before : list string) field after :
  required_fields = (before ++ field :: after)%list ->
  (∀ g, g ∈ before -> is_Some (payload !! g)) ->
  payload !! field = None ->
  create is_valid errors save payload db
  = (db, Ret (response (BError ("El campo " +:+ field +:+ " es requerido"))
                HTTP_400_BAD_REQUEST)).
Proof.
  intros Hfields Hbefore Hmissing.
  unfold create, atomic, create_body. rewrite Hfields.
  rewrite find_first; [done| |].
  - intros g Hg. unfold dict_in. by rewrite bool_decide_eq_true_2 by auto.
  - unfold dict_in. rewrite Hmissing, bool_decide_eq_false_2; [done|].
    by intros [? ?].
Qed.

(** X10. [create] never lets an exception out and answers 201, 400 or 500.
    A 400 leaves the store as it was; a 201 means that [save] returned the
    appointment and that the committed store holds exactly one Ticket for
    it, whose number is the one reported. *)
Theorem create_outcomes payload db :
  ∃ db' r,
    create is_valid errors save payload db = (db', Ret r)
    ∧ (status r = HTTP_201_CREATED ∨ status r = HTTP_400_BAD_REQUEST
       ∨ status r = HTTP_500_INTERNAL_SERVER_ERROR)
    ∧ (status r = HTTP_400_BAD_REQUEST -> db' = db)
    ∧ (status r = HTTP_201_CREATED ->
       ∃ a t,
         save payload db = (db', Ret a)
         ∧ filter (fun t => ticket_appointment t = id a) (tickets db') = [t]
         ∧ data r = BCreated "Cita creada exitosamente con ticket automático"
                      a (ticket_number t)).
Proof.
  unfold create, atomic, create_body.
  assert (∀ db' r,
    status r = HTTP_400_BAD_REQUEST ∧ db' = db
    ∨ status r = HTTP_500_INTERNAL_SERVER_ERROR ->
    (status r = HTTP_201_CREATED ∨ status r = HTTP_400_BAD_REQUEST
     ∨ status r = HTTP_500_INTERNAL_SERVER_ERROR)
    ∧ (status r = HTTP_400_BAD_REQUEST -> db' = db)
    ∧ (status r = HTTP_201_CREATED ->
       ∃ a t,
         save payload db = (db', Ret a)
         ∧ filter (fun t => ticket_appointment t = id a) (tickets db') = [t]
         ∧ data r = BCreated "Cita creada exitosamente con ticket automático"
                      a (ticket_number t))) as Hfailed.
  { intros db' r [[Hr ->]|Hr]; rewrite Hr; split; auto; split; done. }
  destruct (List.find _ required_fields); io_simpl.
  { eexists _, _. split; [reflexivity|]. apply Hfailed. by left. }
  destruct (is_valid payload db); io_simpl.
  2:{ eexists _, _. split; [reflexivity|]. apply Hfailed. by left. }
  destruct (save payload db) as [db1 [a|e]]; io_simpl.
  2:{ eexists _, _. split; [reflexivity|]. apply Hfailed. by right. }
  destruct (objects_get "Ticket" _) as [t|e] eqn:Hticket; io_simpl.
  - apply objects_get_Ret in Hticket.
    eexists _, _. split; [reflexivity|]. simpl.
    split; [by auto|]. split; [done|]. intros _. by exists a, t.
  - destruct (is_DoesNotExist "Ticket" e); io_simpl;
      (eexists _, _; split; [reflexivity|]; apply Hfailed; by right).
Qed.

End CreateEdges.

Section CreateExamples.
Import AppointmentService.

(** X9: a payload with a patient and an hour but no date. *)
Lemma create_reports_first_missing_field_witness :
  create Concrete.accept_all Concrete.no_errors (Concrete.save true)
    {["patient" := PInt 7; "hour" := PInt 0]} Concrete.empty_store
  = (Concrete.empty_store,
     Ret (response (BError "El campo appointment_date es requerido")
            HTTP_400_BAD_REQUEST)).
Proof.
  apply (create_reports_first_missing_field _ _ _ _ _ ["patient"]
           "appointment_date" ["hour"]).
  - reflexivity.
  - intros g ->%list_elem_of_singleton. vm_compute. eauto.
  - vm_compute. reflexivity.
Defined.

End CreateExamples.

(** ** Pages of the listings *)

Section PageEdges.
Import AppointmentService.
Variable env : Env.

#[local] Instance newest_first_transitive : Transitive newest_first.
Proof. intros a b c. unfold newest_first. lia. Qed.

#[local] Instance newest_first_total : Total newest_first.
Proof. intros a b. unfold newest_first. lia. Qed.

Lemma StronglySorted_take_drop {A} (R : relation A) (l : list A) n m :
  StronglySorted R l -> StronglySorted R (take n (drop m l)).
Proof.
  intros Hl.
  apply (StronglySorted_app_1_l R _ (drop n (drop m l))). rewrite take_drop.
  apply (StronglySorted_app_1_r R (take m l)). by rewrite take_drop.
Qed.

(** X11. A page number below 1 (with a page size of at least 1) makes the
    slice bounds negative, which the query set refuses: [list_all] and
    [get_completed_appointments] answer 500. *)
Theorem non_positive_page_is_an_error db filters p :
  page_param p "page" 1 <= 0 ->
  1 <= page_param p "page_size" 10 ->
  status (list_all env db filters (Some p)) = HTTP_500_INTERNAL_SERVER_ERROR
  ∧ status (get_completed_appointments env db filters (Some p))
    = HTTP_500_INTERNAL_SERVER_ERROR.
Proof.
  intros Hpage Hsize.
  assert (dict_truthy (Some p) = true) as Htruthy.
  { unfold dict_truthy. rewrite bool_decide_eq_false_2; [done|].
    intros ->. unfold page_param in Hpage. rewrite lookup_empty in Hpage.
    simpl in Hpage. lia. }
  assert (∀ qs : list Appointment,
            slice qs ((page_param p "page" 1 - 1) * page_param p "page_size" 10)
              ((page_param p "page" 1 - 1) * page_param p "page_size" 10
               + page_param p "page_size" 10)
            = Raise (ValueError "Negative indexing is not supported."))
    as Hslice.
  { intros qs. unfold slice.
    destruct (Z.ltb_spec
                ((page_param p "page" 1 - 1) * page_param p "page_size" 10) 0);
      [done|nia]. }
  unfold list_all, get_completed_appointments. rewrite Htruthy. simpl.
  split.
  - destruct (list_all_queryset env db filters); simpl; [|done].
    by rewrite Hslice.
  - destruct (completed_queryset env db filters); simpl; [|done].
    by rewrite Hslice.
Qed.

(** X12. With pagination the rows [get_completed_appointments] returns are
    ordered: later dates first, and later hours first within a date. *)
Theorem get_completed_page_is_sorted db filters pagination n results st :
  dict_truthy pagination = true ->
  get_completed_appointments env db filters pagination
  = response (BList n results) st ->
  StronglySorted newest_first results.
Proof.
  intros Htruthy. unfold get_completed_appointments. rewrite Htruthy.
  destruct (completed_queryset env db filters) as [qs|]; simpl; [|done].
  unfold slice. case_match; simpl; [done|]. intros [= _ <- _].
  apply StronglySorted_take_drop. unfold order_by_date_hour_desc.
  apply (StronglySorted_merge_sort newest_first).
Qed.

(** X13. When no two rows of the query set share both date and hour, the
    order is settled by the ORDER BY alone, and the pages of
    [get_completed_appointments] cut the ordered set into consecutive
    blocks: for any listing [ordered] of the query set by descending date
    and hour, its row number [i] (from 0) is row [i mod size] of page
    [i / size + 1], and every page reports the size of the whole set. *)
Theorem get_completed_page_of_row db filters qs ordered (i size : nat) a :
  completed_queryset env db filters = Ret qs ->
  (∀ x y, x ∈ qs -> y ∈ qs ->
          appointment_date x = appointment_date y -> hour x = hour y -> x = y) ->
  ordered ≡ₚ qs ->
  StronglySorted newest_first ordered ->
  (1 <= size)%nat ->
  ordered !! i = Some a ->
  ∃ results,
    get_completed_appointments env db filters
      (Concrete.paging (Z.of_nat (i / size) + 1) (Z.of_nat size))
    = response (BList (length qs) results) HTTP_200_OK
    ∧ results !! (i mod size)%nat = Some a.
Proof.
  intros Hqs Hties Hperm Hsorted Hsize Hrow.
  assert (ordered = order_by_date_hour_desc qs) as ->.
  { unfold order_by_date_hour_desc.
    apply (StronglySorted_unique_strong newest_first); [|done| |].
    - intros x y Hx Hy Hxy Hyx. rewrite Hperm in Hx.
      rewrite merge_sort_Permutation in Hy.
      unfold newest_first in Hxy, Hyx. apply Hties; [done|done|lia|lia].
    - apply (StronglySorted_merge_sort newest_first).
    - by rewrite merge_sort_Permutation. }
  unfold get_completed_appointments.
  rewrite Hqs, paging_truthy, paging_page, paging_page_size. simpl.
  rewrite slice_ok by nia. simpl.
  eexists. split; [reflexivity|].
  rewrite lookup_take_lt.
  2:{ pose proof (Nat.mod_upper_bound i size). lia. }
  rewrite lookup_drop, <- Hrow. f_equal.
  pose proof (Nat.div_mod_eq i size). nia.
Qed.

End PageEdges.

Section PageExamples.
Import AppointmentService.

(** X11 for page 0 of size 10. *)
Lemma non_positive_page_is_an_error_witness :
  status (list_all Concrete.env Concrete.three_appointments None
            (Concrete.paging 0 10))
  = HTTP_500_INTERNAL_SERVER_ERROR.
Proof.
  apply (non_positive_page_is_an_error Concrete.env Concrete.three_appointments
           None {["page" := 0; "page_size" := 10]}).
  - vm_compute. discriminate.
  - vm_compute. discriminate.
Defined.

(** X12 for the first page of two of the three appointments. *)
Lemma get_completed_page_is_sorted_witness :
  StronglySorted newest_first [Concrete.a3; Concrete.a2].
Proof.
  apply (get_completed_page_is_sorted Concrete.env Concrete.three_appointments
           None (Concrete.paging 1 2) 3 _ HTTP_200_OK).
  - vm_compute. reflexivity.
  - vm_compute. reflexivity.
Defined.

(** X13: the three appointments are on three days; the oldest is row 2 of
    the listing by descending date, hence row 0 of page 2 when pages hold
    two rows. *)
Lemma get_completed_page_of_row_witness :
  ∃ results,
    get_completed_appointments Concrete.env Concrete.three_appointments None
      (Concrete.paging 2 2)
    = response (BList 3 results) HTTP_200_OK
    ∧ results !! 0%nat = Some Concrete.a1.
Proof.
  apply (get_completed_page_of_row Concrete.env Concrete.three_appointments None
           [Concrete.a1; Concrete.a2; Concrete.a3]
           [Concrete.a3; Concrete.a2; Concrete.a1] 2 2 Concrete.a1).
  - vm_compute. reflexivity.
  - intros x y Hx Hy Hdate _.
    repeat (apply elem_of_cons in Hx as [->|Hx]);
      try (by apply elem_of_nil in Hx);
      repeat (apply elem_of_cons in Hy as [->|Hy]);
      try (by apply elem_of_nil in Hy);
      first [reflexivity | vm_compute in Hdate; discriminate Hdate].
  - apply (reverse_Permutation [Concrete.a1; Concrete.a2; Concrete.a3]).
  - apply (bool_decide_unpack _). vm_compute. exact I.
  - lia.
  - reflexivity.
Defined.

End PageExamples.

(** ** What the listings read from the filter bag *)

Section FilterEdges.
Import AppointmentService AppointmentServiceRest.
Variable env : Env.

Lemma dict_in_lookup (f g : gmap string value) k :
  f !! k = g !! k -> dict_in k f = dict_in k g ∧ dict_get f k = dict_get g k.
Proof. intros Hk. unfold dict_in, dict_get. by rewrite Hk. Qed.

Lemma dict_in_empty k : dict_in k ∅ = false.
Proof.
  unfold dict_in. rewrite lookup_empty, bool_decide_eq_false_2; [done|].
  by intros [? ?].
Qed.

Lemma dict_get_empty k : dict_get ∅ k = PNone.
Proof. unfold dict_get. by rewrite lookup_empty. Qed.

(** [k in f and f[k]] is decided by [f.get(k)]. *)
Lemma dict_in_and_truthy (f : gmap string value) k :
  dict_in k f && truthy (dict_get f k) = truthy (dict_get f k).
Proof.
  unfold dict_in, dict_get. by destruct (f !! k).
Qed.

Lemma dict_truthy_default {V} (filters : option (gmap string V)) :
  dict_truthy filters = false -> default ∅ filters = ∅.
Proof.
  destruct filters as [f|]; [|done]. simpl.
  by intros ?%negb_false_iff%bool_decide_eq_true_1.
Qed.

Lemma filter_fk_off col v qs : filter_fk env false col v qs = Ret qs.
Proof. done. Qed.

Lemma date_window_empty qs : date_window env ∅ qs = Ret qs.
Proof. unfold date_window. by rewrite !dict_get_empty. Qed.

Lemma other_filters_empty qs : other_filters env ∅ qs = Ret qs.
Proof.
  unfold other_filters. rewrite !dict_in_empty. simpl.
  apply date_window_empty.
Qed.

(** An empty or missing bag takes the same path as the branch for a
    non-empty one. *)
Lemma completed_queryset_bag db filters :
  completed_queryset env db filters
  = (let f := default ∅ filters in
     completed_status_id ← status_id_by_name db "Completado";
     let queryset := filter (fun a => deleted_at a = None) (appointments db) in
     qs ← (if dict_in "appointment_status" f
           then filter_fk env true appointment_status
                  (dict_get f "appointment_status") queryset
           else Ret (completed_or_past env completed_status_id queryset));
     other_filters env f qs).
Proof.
  unfold completed_queryset.
  destruct (status_id_by_name db "Completado") as [cid|]; simpl; [|done].
  destruct (dict_truthy filters) eqn:Htruthy; [done|].
  rewrite (dict_truthy_default _ Htruthy), dict_in_empty. simpl.
  by rewrite other_filters_empty.
Qed.

Lemma pending_queryset_bag db filters :
  pending_queryset env db filters
  = (let f := default ∅ filters in
     pending_status_id ← status_id_by_name db "Pendiente";
     let queryset := filter (fun a => deleted_at a = None) (appointments db) in
     qs ← (if dict_in "appointment_status" f
           then filter_fk env true appointment_status
                  (dict_get f "appointment_status") queryset
           else Ret (pending_or_upcoming env pending_status_id queryset));
     qs ← filter_fk env (dict_in "patient" f) patient (dict_get f "patient") qs;
     filter_fk env (dict_in "therapist" f) therapist (dict_get f "therapist") qs).
Proof.
  unfold pending_queryset.
  destruct (status_id_by_name db "Pendiente") as [pid|]; simpl; [|done].
  destruct (dict_truthy filters) eqn:Htruthy; [done|].
  rewrite (dict_truthy_default _ Htruthy), !dict_in_empty. done.
Qed.

(** A guarded key filter sees a value only when it is truthy. *)
Lemma filter_fk_truthy_agree col v w qs :
  (truthy v = true ∨ truthy w = true -> v = w) ->
  filter_fk env (truthy v) col v qs = filter_fk env (truthy w) col w qs.
Proof.
  intros Hvw. destruct (truthy v) eqn:Hv.
  - rewrite <- Hvw by auto. by rewrite Hv.
  - destruct (truthy w) eqn:Hw; [|done].
    rewrite <- Hvw in Hw by auto. congruence.
Qed.

Lemma date_window_agree (f g : gmap string value) qs :
  (∀ k, k ∈ ["date"; "start_date"; "end_date"] ->
        truthy (dict_get f k) = true ∨ truthy (dict_get g k) = true ->
        dict_get f k = dict_get g k) ->
  date_window env f qs = date_window env g qs.
Proof.
  intros Hkeys.
  assert (∀ k, k ∈ ["date"; "start_date"; "end_date"] ->
            truthy (dict_get g k) = truthy (dict_get f k)
            ∧ (truthy (dict_get f k) = true -> dict_get g k = dict_get f k))
    as Hk.
  { intros k Hin. specialize (Hkeys k Hin).
    destruct (truthy (dict_get f k)) eqn:Hf.
    - rewrite <- Hkeys by auto. by rewrite Hf.
    - split; [|done]. destruct (truthy (dict_get g k)) eqn:Hg; [|done].
      rewrite <- Hkeys in Hg by auto. congruence. }
  destruct (Hk "date") as [Hd Hd']; [repeat constructor|].
  destruct (Hk "start_date") as [Hs Hs']; [repeat constructor|].
  destruct (Hk "end_date") as [He He']; [repeat constructor|].
  unfold date_window. rewrite Hd, Hs, He.
  destruct (truthy (dict_get f "date")); [by rewrite Hd'|].
  destruct (truthy (dict_get f "start_date")),
    (truthy (dict_get f "end_date")); simpl;
    rewrite ?Hs', ?He' by done; done.
Qed.

(** X14. [get_completed_appointments] reads the bag only through the key
    [appointment_status] and the truthy values of [patient], [therapist],
    [date], [start_date] and [end_date]: two bags that agree there get the
    same answer. A missing bag is an empty one, a falsy value is as good as
    a missing key, and [appointment_date] is not read at all. *)
Theorem get_completed_reads_six_keys db filters filters' pagination :
  let f := default ∅ filters in
  let g := default ∅ filters' in
  f !! "appointment_status" = g !! "appointment_status" ->
  (∀ k, k ∈ ["patient"; "therapist"; "date"; "start_date"; "end_date"] ->
        truthy (dict_get f k) = true ∨ truthy (dict_get g k) = true ->
        dict_get f k = dict_get g k) ->
  get_completed_appointments env db filters pagination
  = get_completed_appointments env db filters' pagination.
Proof.
  intros f g Hstatus Hkeys.
  assert (∀ qs, other_filters env f qs = other_filters env g qs) as Hother.
  { intros qs. unfold other_filters. rewrite !dict_in_and_truthy.
    rewrite (filter_fk_truthy_agree patient _ (dict_get g "patient"))
      by (apply Hkeys; repeat constructor).
    destruct (filter_fk env _ patient _ qs) as [q1|]; simpl; [|done].
    rewrite (filter_fk_truthy_agree therapist _ (dict_get g "therapist"))
      by (apply Hkeys; repeat constructor).
    destruct (filter_fk env _ therapist _ q1) as [q2|]; simpl; [|done].
    apply date_window_agree. intros k Hk. apply Hkeys.
    do 2 apply list_elem_of_further. exact Hk. }
  unfold get_completed_appointments.
  rewrite !completed_queryset_bag. fold f g. cbv zeta.
  destruct (dict_in_lookup f g _ Hstatus) as [-> ->].
  destruct (status_id_by_name db "Completado") as [cid|]; simpl; [|done].
  destruct (if dict_in "appointment_status" g then _ else _) as [q0|];
    simpl; [|done].
  by rewrite Hother.
Qed.

(** X15. [get_pending_appointments] reads the bag only through the keys
    [appointment_status], [patient] and [therapist]: no date key narrows
    the pending view, and a missing bag is an empty one. *)
Theorem get_pending_reads_three_keys db filters filters' :
  (∀ k, k ∈ ["appointment_status"; "patient"; "therapist"] ->
        default ∅ filters !! k = default ∅ filters' !! k) ->
  get_pending_appointments env db filters
  = get_pending_appointments env db filters'.
Proof.
  intros Hkeys. unfold get_pending_appointments.
  rewrite !pending_queryset_bag. cbv zeta.
  destruct (dict_in_lookup _ _ _ (Hkeys "appointment_status"
                                    ltac:(repeat constructor))) as [-> ->].
  destruct (dict_in_lookup _ _ _ (Hkeys "patient" ltac:(repeat constructor)))
    as [-> ->].
  destruct (dict_in_lookup _ _ _ (Hkeys "therapist" ltac:(repeat constructor)))
    as [-> ->].
  done.
Qed.

Lemma filter_fk_filter_comm (R : Appointment -> Prop) `{!∀ a, Decision (R a)}
    g col v qs :
  filter_fk env g col v (filter R qs)
  = (qs' ← filter_fk env g col v qs; Ret (filter R qs')).
Proof.
  unfold filter_fk. destruct g; [|done].
  destruct (fk_exact env v) as [p|]; simpl; [|done]. f_equal.
  rewrite !list_filter_filter. apply list_filter_iff. tauto.
Qed.

(** X16. Without the key [appointment_date] in the bag,
    [get_by_date_range] returns the rows of [list_all]'s query set whose
    date lies in the closed range, in the same order, and fails when
    [list_all]'s filters fail. *)
Theorem get_by_date_range_refines_list_all db start_date end_date filters :
  dict_in "appointment_date" (default ∅ filters) = false ->
  get_by_date_range env db start_date end_date filters
  = match list_all_queryset env db filters with
    | Ret qs =>
        let results :=
          filter (fun a => prep_date env start_date <= appointment_date a
                           ∧ appointment_date a <= prep_date env end_date) qs in
        response (BList (length results) results) HTTP_200_OK
    | Raise e =>
        response (BError ("Error al obtener citas por rango: " +:+ str e))
          HTTP_500_INTERNAL_SERVER_ERROR
    end.
Proof.
  intros Hdate. unfold get_by_date_range, list_all_queryset.
  rewrite <- (list_filter_filter
                (fun a => prep_date env start_date <= appointment_date a
                          ∧ appointment_date a <= prep_date env end_date)
                (fun a => deleted_at a = None)).
  destruct (dict_truthy filters); [|done].
  rewrite Hdate. simpl.
  rewrite filter_fk_filter_comm.
  destruct (filter_fk env _ appointment_status _ _) as [q1|]; simpl; [|done].
  rewrite filter_fk_filter_comm.
  destruct (filter_fk env _ patient _ q1) as [q2|]; simpl; [|done].
  rewrite filter_fk_filter_comm.
  destruct (filter_fk env _ therapist _ q2) as [q3|]; simpl; done.
Qed.

(** X17. A range of one day is the exact-date filter: [get_by_date_range]
    from [d] to [d] answers what [list_all] answers for the bag that holds
    only [appointment_date], given as a string the date column reads as
    [d]. *)
Theorem one_day_range_is_the_exact_date db s d :
  to_python_date env s = Some d ->
  get_by_date_range env db d d None
  = list_all env db (Some {["appointment_date" := PStr s]}) None.
Proof.
  intros Hd.
  set (f := ({["appointment_date" := PStr s]} : gmap string value)).
  assert (dict_truthy (Some f) = true) as Htruthy.
  { unfold dict_truthy. rewrite bool_decide_eq_false_2; [reflexivity|].
    intros Hm. apply (f_equal (lookup "appointment_date")) in Hm.
    unfold f in Hm. rewrite lookup_singleton_eq, lookup_empty in Hm.
    discriminate Hm. }
  assert (dict_in "appointment_date" f = true
          ∧ dict_get f "appointment_date" = PStr s) as [Hin Hget].
  { unfold dict_in, dict_get, f. rewrite lookup_singleton_eq.
    split; reflexivity. }
  assert (∀ k, k ≠ "appointment_date" -> dict_in k f = false) as Hout.
  { intros k Hk. unfold dict_in, f.
    rewrite lookup_singleton_ne by congruence. reflexivity. }
  clearbody f.
  unfold get_by_date_range, list_all, list_all_queryset.
  rewrite Htruthy. cbn [default dict_truthy]. unfold Datatypes.id.
  rewrite Hin, Hget. cbn [date_exact]. rewrite Hd. simpl.
  rewrite !Hout by done. simpl.
  rewrite list_filter_filter.
  rewrite (list_filter_iff
             (fun a => (prep_date env d <= appointment_date a
                        ∧ appointment_date a <= prep_date env d)
                       ∧ deleted_at a = None)
             (fun a => bool_decide (appointment_date a = prep_date env d) = true
                       ∧ deleted_at a = None)); [done|].
  intros a. rewrite bool_decide_eq_true.
  split; intros [Hday Hact]; (split; [lia|exact Hact]).
Qed.

Lemma status_id_by_name_missing db label :
  (∀ s, s ∈ statuses db -> name s ≠ label) ->
  status_id_by_name db label = Ret None.
Proof.
  intros Hnone. unfold status_id_by_name.
  rewrite filter_empty; [done|]. intros s Hs. by apply Hnone.
Qed.

(** X18. While neither a status named "Completado" nor one named
    "Pendiente" exists, the two views called without filters split the
    non-deleted appointments between them: each one is in exactly one of
    the two answers. *)
Theorem completed_and_pending_partition db :
  (∀ s, s ∈ statuses db -> name s ≠ "Completado" ∧ name s ≠ "Pendiente") ->
  ∃ past upcoming,
    get_completed_appointments env db None None
    = response (BList (length past) past) HTTP_200_OK
    ∧ get_pending_appointments env db None
      = response (BList (length upcoming) upcoming) HTTP_200_OK
    ∧ past ++ upcoming ≡ₚ filter (fun a => deleted_at a = None) (appointments db)
    ∧ (∀ a, a ∈ past -> a ∉ upcoming).
Proof.
  intros Hnone.
  unfold get_completed_appointments, get_pending_appointments,
    completed_queryset, pending_queryset.
  rewrite !status_id_by_name_missing by (intros s Hs; by apply Hnone).
  simpl. eexists _, _. split; [reflexivity|]. split; [reflexivity|].
  unfold completed_or_past, pending_or_upcoming. simpl.
  set (base := filter _ (appointments db)).
  rewrite (list_filter_iff
             (fun a => prep_date env (today env) <= appointment_date a)
             (fun a => ¬ appointment_date a < prep_date env (today env)))
    by (intros a; lia).
  split; [apply filter_app_complement|].
  intros a [Hpast _]%list_elem_of_filter [Hup _]%list_elem_of_filter. done.
Qed.

End FilterEdges.

Section FilterExamples.
Import AppointmentService AppointmentServiceRest.

(** X14: a bag with an [appointment_date] and a patient 0 is answered like
    no bag. *)
Lemma get_completed_reads_six_keys_witness :
  get_completed_appointments Concrete.env Concrete.with_statuses
    (Some {["appointment_date" := PStr "2024-05-02"; "patient" := PInt 0]}) None
  = get_completed_appointments Concrete.env Concrete.with_statuses None None.
Proof.
  apply get_completed_reads_six_keys.
  - vm_compute. reflexivity.
  - intros k Hk.
    repeat (apply elem_of_cons in Hk as [->|Hk];
            [vm_compute; intros [H|H]; discriminate H|]).
    by apply elem_of_nil in Hk.
Defined.

(** X15: a date in the bag does not narrow the pending view. *)
Lemma get_pending_reads_three_keys_witness :
  get_pending_appointments Concrete.env Concrete.with_statuses
    (Some {["date" := PStr "2024-05-02"]})
  = get_pending_appointments Concrete.env Concrete.with_statuses None.
Proof.
  apply get_pending_reads_three_keys. intros k Hk.
  repeat (apply elem_of_cons in Hk as [->|Hk]; [vm_compute; reflexivity|]).
  by apply elem_of_nil in Hk.
Defined.

(** X16: the second and third of May out of three appointments. *)
Lemma get_by_date_range_refines_list_all_witness :
  get_by_date_range Concrete.env Concrete.three_appointments
    (Concrete.ymd 2024 5 2) (Concrete.ymd 2024 5 3) None
  = response (BList 2 [Concrete.a2; Concrete.a3]) HTTP_200_OK.
Proof.
  etrans; [apply get_by_date_range_refines_list_all|].
  - vm_compute. reflexivity.
  - vm_compute. reflexivity.
Defined.

(** X17 on the second of May. *)
Lemma one_day_range_is_the_exact_date_witness :
  get_by_date_range Concrete.env Concrete.three_appointments
    (Concrete.ymd 2024 5 2) (Concrete.ymd 2024 5 2) None
  = list_all Concrete.env Concrete.three_appointments
      (Some {["appointment_date" := PStr "2024-05-02"]}) None.
Proof.
  apply one_day_range_is_the_exact_date. vm_compute. reflexivity.
Defined.

(** X18 with one past and one coming appointment and a status of another
    name. *)
Lemma completed_and_pending_partition_witness :
  ∃ past upcoming,
    get_completed_appointments Concrete.env
      (mkStore [Concrete.a1; Concrete.appt 4 (Concrete.ymd 2024 6 1) 0 None] []
         [mkAppointmentStatus 3 "Cancelado" None]) None None
    = response (BList (length past) past) HTTP_200_OK
    ∧ get_pending_appointments Concrete.env
        (mkStore [Concrete.a1; Concrete.appt 4 (Concrete.ymd 2024 6 1) 0 None] []
           [mkAppointmentStatus 3 "Cancelado" None]) None
      = response (BList (length upcoming) upcoming) HTTP_200_OK.
Proof.
  destruct (completed_and_pending_partition Concrete.env
              (mkStore [Concrete.a1; Concrete.appt 4 (Concrete.ymd 2024 6 1) 0 None]
                 [] [mkAppointmentStatus 3 "Cancelado" None]))
    as (past & upcoming & Hpast & Hupcoming & _).
  - intros s ->%list_elem_of_singleton. simpl. split; discriminate.
  - exists past, upcoming. split; assumption.
Defined.

End FilterExamples.

(** ** The date window within the completed view *)

Section DateWindowView.
Import AppointmentService.
Variable env : Env.

Lemma date_window_no_keys (g : gmap string value) qs :
  g !! "date" = None -> g !! "start_date" = None -> g !! "end_date" = None ->
  date_window env g qs = Ret qs.
Proof.
  intros Hd Hs He. unfold date_window, dict_get. by rewrite Hd, Hs, He.
Qed.

(** The window is the last filter of the view: it is applied to the rows
    the view selects for the bag without the three date keys. *)
Lemma completed_queryset_window db (f : gmap string value) :
  completed_queryset env db (Some f)
  = (qs ← completed_queryset env db
            (Some (base.delete "date"
                     (base.delete "start_date" (base.delete "end_date" f))));
     date_window env f qs).
Proof.
  set (g := base.delete "date"
              (base.delete "start_date" (base.delete "end_date" f))).
  assert (∀ k, k ≠ "date" -> k ≠ "start_date" -> k ≠ "end_date" ->
               g !! k = f !! k) as Hkeep.
  { intros k H1 H2 H3. unfold g.
    by rewrite !lookup_delete_ne by congruence. }
  assert (g !! "date" = None ∧ g !! "start_date" = None
          ∧ g !! "end_date" = None) as (Hd & Hs & He).
  { unfold g. split; [|split].
    - apply lookup_delete_eq.
    - rewrite lookup_delete_ne by discriminate. apply lookup_delete_eq.
    - rewrite !lookup_delete_ne by discriminate. apply lookup_delete_eq. }
  clearbody g.
  destruct (dict_in_lookup g f "appointment_status") as [Hs_in Hs_get];
    [apply Hkeep; discriminate|].
  destruct (dict_in_lookup g f "patient") as [Hp_in Hp_get];
    [apply Hkeep; discriminate|].
  destruct (dict_in_lookup g f "therapist") as [Ht_in Ht_get];
    [apply Hkeep; discriminate|].
  rewrite !completed_queryset_bag. cbv zeta. cbn [default].
  destruct (status_id_by_name db "Completado") as [cid|]; simpl; [|done].
  rewrite Hs_in, Hs_get.
  destruct (if dict_in "appointment_status" f then _ else _) as [q0|];
    simpl; [|done].
  unfold other_filters. rewrite Hp_in, Hp_get.
  destruct (filter_fk env _ patient _ q0) as [q1|]; simpl; [|done].
  rewrite Ht_in, Ht_get.
  destruct (filter_fk env _ therapist _ q1) as [q2|]; simpl; [|done].
  by rewrite (date_window_no_keys g) by done.
Qed.

(** C7. In [get_completed_appointments] the date window is applied to the
    rows [qs] that the view selects for the same bag without the keys
    [date], [start_date] and [end_date]. With [midnight d] the start of
    day [d] in the configured zone (the default zone when [zoneinfo] is
    missing), and every consulted string a parsable date whose next day
    exists:
    - a non-empty [date = D] makes the view return the rows of [qs] with
      [midnight D <= appointment_date < midnight (D+1)], whatever
      [start_date] and [end_date] hold; a row at exactly [midnight D] is
      returned and one at [midnight (D+1)] is not;
    - otherwise [start_date] and [end_date] together give
      [midnight start <= appointment_date < midnight (end+1)];
    - otherwise [start_date] alone gives [midnight start <= appointment_date];
    - otherwise [end_date] alone gives [appointment_date < midnight (end+1)]. *)
Theorem date_window_precedence db (f : gmap string value)
    (qs : list Appointment) :
  let tz := if ZoneInfo_available env then Some (TIME_ZONE env) else None in
  let midnight d :=
    make_aware env (Datetime.combine d Datetime.time_min) tz in
  let next_day_exists d :=
    Datetime.MIN_ORDINAL <= d + 1 <= Datetime.MAX_ORDINAL in
  let undated :=
    base.delete "date" (base.delete "start_date" (base.delete "end_date" f)) in
  let returns rows :=
    completed_queryset env db (Some f) = Ret rows
    ∧ get_completed_appointments env db (Some f) None
      = response (BList (length rows) rows) HTTP_200_OK in
  completed_queryset env db (Some undated) = Ret qs ->
  (∀ s D,
      dict_get f "date" = PStr s -> s ≠ "" ->
      fromisoformat env s = Some D -> next_day_exists D ->
      let window :=
        filter (fun a => midnight D <= appointment_date a
                         ∧ appointment_date a < midnight (D + 1)) qs in
      returns window
      ∧ (∀ a, a ∈ qs -> midnight D < midnight (D + 1) ->
              appointment_date a = midnight D -> a ∈ window)
      ∧ (∀ a, appointment_date a = midnight (D + 1) -> a ∉ window))
  ∧ (∀ s1 D1 s2 D2,
      truthy (dict_get f "date") = false ->
      dict_get f "start_date" = PStr s1 -> s1 ≠ "" ->
      dict_get f "end_date" = PStr s2 -> s2 ≠ "" ->
      fromisoformat env s1 = Some D1 -> fromisoformat env s2 = Some D2 ->
      next_day_exists D2 ->
      returns (filter (fun a => midnight D1 <= appointment_date a
                                ∧ appointment_date a < midnight (D2 + 1)) qs))
  ∧ (∀ s1 D1,
      truthy (dict_get f "date") = false ->
      dict_get f "start_date" = PStr s1 -> s1 ≠ "" ->
      truthy (dict_get f "end_date") = false ->
      fromisoformat env s1 = Some D1 ->
      returns (filter (fun a => midnight D1 <= appointment_date a) qs))
  ∧ (∀ s2 D2,
      truthy (dict_get f "date") = false ->
      truthy (dict_get f "start_date") = false ->
      dict_get f "end_date" = PStr s2 -> s2 ≠ "" ->
      fromisoformat env s2 = Some D2 -> next_day_exists D2 ->
      returns (filter (fun a => appointment_date a < midnight (D2 + 1)) qs)).
Proof.
  intros tz midnight next_day_exists undated returns Hqs.
  assert (∀ rows, date_window env f qs = Ret rows -> returns rows) as Hview.
  { intros rows Hrows. unfold returns.
    assert (completed_queryset env db (Some f) = Ret rows) as Hf.
    { rewrite completed_queryset_window. fold undated. by rewrite Hqs. }
    split; [exact Hf|]. unfold get_completed_appointments. by rewrite Hf. }
  destruct (date_window_cases env f qs) as (Hdate & Hboth & Hstart & Hend).
  fold tz in Hdate, Hboth, Hstart, Hend.
  split; [|split; [|split]].
  - intros s D Hs Hne Hparse Hnext window.
    destruct (Hdate s D Hs Hne Hparse Hnext) as (Hw & Hin & Hout).
    split; [by apply Hview|]. split; assumption.
  - intros s1 D1 s2 D2 Hd Hs1 Hne1 Hs2 Hne2 Hp1 Hp2 Hnext.
    apply Hview. by apply (Hboth s1 D1 s2 D2).
  - intros s1 D1 Hd Hs1 Hne1 He Hp1.
    apply Hview. by apply (Hstart s1 D1).
  - intros s2 D2 Hd Hs He Hne2 Hp2 Hnext.
    apply Hview. by apply (Hend s2 D2).
Qed.

End DateWindowView.

Section DateWindowViewExamples.
Import AppointmentService.

(** The theorem for [date = 2024-05-02] next to an unusable [start_date]:
    of the appointments on May 1, 2 and 3 the view returns the second
    only. *)
Lemma date_window_precedence_witness :
  get_completed_appointments Concrete.env Concrete.three_appointments
    (Some {["date" := PStr "2024-05-02"; "start_date" := PStr "junio"]}) None
  = response (BList 1 [Concrete.a2]) HTTP_200_OK.
Proof.
  destruct (date_window_precedence Concrete.env Concrete.three_appointments
              {["date" := PStr "2024-05-02"; "start_date" := PStr "junio"]}
              [Concrete.a1; Concrete.a2; Concrete.a3]) as [Hdate _].
  - vm_compute. reflexivity.
  - destruct (Hdate "2024-05-02" (Concrete.ymd 2024 5 2)) as [[_ Hw] _].
    + vm_compute. reflexivity.
    + discriminate.
    + vm_compute. reflexivity.
    + vm_compute. split; discriminate.
    + rewrite Hw. vm_compute. reflexivity.
Defined.

End DateWindowViewExamples.

(** ** Deleting and restoring an appointment status *)

Section StatusEdges.
Import AppointmentStatusViewSet AppointmentStatusViewSetRest.
Variable now : Z.
Variable count_fault : option string.

Lemma get_object_missing pk db :
  (∀ s, s ∈ statuses db -> status_id s = pk -> status_deleted_at s ≠ None) ->
  get_object pk db
  = Raise (Http404 "No AppointmentStatus matches the given query.").
Proof.
  intros Hmissing. unfold get_object, get_queryset.
  rewrite filter_empty; [done|].
  intros s [Hact Hs]%list_elem_of_filter Hpk. by apply (Hmissing s).
Qed.

(** A successful [destroy] found its status and marked it. *)
Lemma destroy_ok_inv db db' pk r :
  destroy now count_fault pk db = (db', Ret r) ->
  status r = HTTP_200_OK ->
  ∃ instance,
    get_object pk db = Ret instance
    ∧ db' = (mark_deleted now instance db).1.
Proof.
  unfold destroy. io_simpl.
  destruct (get_object pk db) as [instance|e] eqn:Hobj; io_simpl.
  2:{ by intros [= <- <-] [=]. }
  destruct (appointment_set_count count_fault instance db) as [n|e]; io_simpl.
  - destruct n; io_simpl.
    + intros [= <- <-] _. by exists instance.
    + by intros [= <- <-] [=].
  - destruct (contains _ _ && contains _ _); io_simpl.
    + intros [= <- <-] _. by exists instance.
    + by intros [= <- <-] [=].
Qed.

(** X19. [destroy] on a key that no non-deleted status has answers 500,
    not 404: the not-found condition of the look-up is caught by the
    general handler. Nothing is written. *)
Theorem destroy_of_missing_status_is_500 db pk :
  (∀ s, s ∈ statuses db -> status_id s = pk -> status_deleted_at s ≠ None) ->
  destroy now count_fault pk db
  = (db, Ret (response
                (BError "Error al eliminar el estado: No AppointmentStatus matches the given query.")
                HTTP_500_INTERNAL_SERVER_ERROR)).
Proof.
  intros Hmissing. unfold destroy. io_simpl.
  by rewrite (get_object_missing _ _ Hmissing).
Qed.

(** X20. After a successful [destroy] the status is gone from
    [get_queryset], so that a second [destroy] answers 500, while
    [all_including_deleted] still lists it, with the deletion time. *)
Theorem destroy_hides_the_status db db' pk r :
  destroy now count_fault pk db = (db', Ret r) ->
  status r = HTTP_200_OK ->
  (∀ s, s ∈ get_queryset db' -> status_id s ≠ pk)
  ∧ (∃ rows s,
       all_including_deleted db'
       = action_response
           (AListed "Estados obtenidos (incluyendo eliminados)" rows)
           HTTP_200_OK
       ∧ s ∈ rows ∧ status_id s = pk ∧ status_deleted_at s = Some now)
  ∧ status_id <$> statuses db' = status_id <$> statuses db
  ∧ (destroy now count_fault pk db').2
    = Ret (response
             (BError "Error al eliminar el estado: No AppointmentStatus matches the given query.")
             HTTP_500_INTERNAL_SERVER_ERROR).
Proof.
  intros Hdestroy Hok.
  destruct (destroy_ok_inv _ _ _ _ Hdestroy Hok) as (instance & Hobj & ->).
  destruct (get_object_Ret _ _ _ Hobj) as (Hin & Hpk & Hact).
  assert (∀ s, s ∈ statuses (mark_deleted now instance db).1 ->
               status_id s = pk -> status_deleted_at s = Some now) as Hmarked.
  { simpl. intros s Hs Hs_pk.
    apply (list_elem_of_fmap (A:=AppointmentStatus)) in Hs as (s0 & -> & _).
    case_bool_decide; [done|]. simpl in Hs_pk. congruence. }
  split; [|split; [|split]].
  - intros s [Hs_act Hs]%list_elem_of_filter Hs_pk.
    rewrite (Hmarked s Hs Hs_pk) in Hs_act. done.
  - eexists _, (mkAppointmentStatus (status_id instance) (name instance) (Some now)).
    split; [reflexivity|]. split; [|done]. simpl.
    apply (list_elem_of_fmap (A:=AppointmentStatus)). exists instance.
    by rewrite bool_decide_eq_true_2.
  - simpl. clear. induction (statuses db) as [|s l IH]; [done|]. cbn.
    f_equal; [by case_bool_decide | apply IH].
  - unfold destroy. io_simpl. rewrite get_object_missing; [done|].
    intros s Hs Hs_pk. by rewrite (Hmarked s Hs Hs_pk).
Qed.

End StatusEdges.

Section StatusRestore.
Import AppointmentStatusViewSet AppointmentStatusViewSetRest.

Lemma filter_unique_key {A B} `{!EqDecision B} (f : A -> B) (l : list A) x :
  NoDup (f <$> l) -> x ∈ l -> filter (fun y => f y = f x) l = [x].
Proof.
  intros Hkeys Hx.
  assert (x ∈ filter (fun y => f y = f x) l) as Hin
    by (by apply list_elem_of_filter).
  pose proof (filter_at_most_one f (fun y => f y = f x) l Hkeys) as Hone.
  destruct (filter _ l) as [|y [|z l']].
  - by apply elem_of_nil in Hin.
  - by apply list_elem_of_singleton in Hin as ->.
  - exfalso. simpl in Hone.
    assert (S (S (length l')) <= 1)%nat; [|lia].
    apply Hone. intros ? ? _ _ -> ->. done.
Qed.

Lemma map_fixes {A} (g : A -> A) (l : list A) :
  (∀ x, x ∈ l -> g x = x) -> map g l = l.
Proof.
  induction l as [|a l IH]; intros Hg; [done|]. cbn [map].
  rewrite (Hg a) by left. f_equal. apply IH. intros x Hx. apply Hg. by right.
Qed.

(** X21. With unique keys, [restore] undoes a successful [destroy]: it
    answers 200 with the status as it was and the store is exactly the one
    before the [destroy]. *)
Theorem destroy_then_restore now count_fault db db' pk r :
  NoDup (status_id <$> statuses db) ->
  destroy now count_fault pk db = (db', Ret r) ->
  status r = HTTP_200_OK ->
  ∃ instance,
    instance ∈ statuses db ∧ status_id instance = pk
    ∧ restore pk db'
      = (db, Ret (action_response
                    (ARestored ("Estado '" +:+ name instance
                                +:+ "' restaurado correctamente") instance)
                    HTTP_200_OK)).
Proof.
  intros Hkeys Hdestroy Hok.
  destruct (destroy_ok_inv _ _ _ _ _ _ Hdestroy Hok) as (instance & Hobj & ->).
  destruct (get_object_Ret _ _ _ Hobj) as (Hin & Hpk & Hact).
  exists instance. split; [done|]. split; [done|].
  set (mark := fun r : AppointmentStatus =>
         if bool_decide (status_id r = status_id instance)
         then mkAppointmentStatus (status_id r) (name r) (Some now) else r).
  assert (∀ s, status_id (mark s) = status_id s) as Hmark_id.
  { intros s. unfold mark. by case_bool_decide. }
  assert (filter (fun s => status_id s = pk) (map mark (statuses db))
          = [mkAppointmentStatus (status_id instance) (name instance) (Some now)])
    as Hfound.
  { rewrite <- Hpk.
    transitivity (map mark (filter (fun s => status_id s = status_id instance)
                              (statuses db))).
    - clear -Hmark_id. induction (statuses db) as [|s l IH]; [done|]. cbn [map].
      rewrite !filter_cons, IH, Hmark_id. by destruct (decide _).
    - rewrite (filter_unique_key status_id) by done. simpl. unfold mark.
      by rewrite bool_decide_eq_true_2. }
  assert (map (fun r : AppointmentStatus =>
                 if bool_decide (status_id r = status_id instance)
                 then mkAppointmentStatus (status_id r) (name r) None else r)
            (map mark (statuses db)) = statuses db) as Hback.
  { rewrite map_map. apply map_fixes. intros s Hs. rewrite Hmark_id.
    unfold mark. case_bool_decide as Hsame; [|done]. simpl.
    rewrite (NoDup_fmap_same_key status_id (statuses db) s instance) by done.
    destruct instance. simpl in *. by subst. }
  unfold restore. io_simpl. fold mark. rewrite Hfound. io_simpl.
  fold mark. rewrite Hback. destruct db, instance. simpl in *. by subst.
Qed.

(** X22. [restore] never lets an exception out and touches status rows
    only. It answers 404 exactly when no row has the key, changes the
    store only when it answers 200, and then the status is back in
    [get_queryset]. *)
Theorem restore_outcomes pk db :
  ∃ db' r,
    restore pk db = (db', Ret r)
    ∧ appointments db' = appointments db ∧ tickets db' = tickets db
    ∧ (action_status r = HTTP_404_NOT_FOUND
       <-> ∀ s, s ∈ statuses db -> status_id s ≠ pk)
    ∧ (action_status r ≠ HTTP_200_OK -> db' = db)
    ∧ (action_status r = HTTP_200_OK ->
       ∃ s, s ∈ get_queryset db' ∧ status_id s = pk).
Proof.
  unfold restore. io_simpl.
  destruct (filter _ (statuses db)) as [|s [|s' l]] eqn:Hrows; io_simpl.
  - eexists _, _. split; [reflexivity|]. simpl.
    split; [done|]. split; [done|]. split; [|split; [done|by intros [=]]].
    split; [|done]. intros _ s Hs Hpk.
    assert (s ∈ filter (fun s => status_id s = pk) (statuses db)) as Hin
      by (by apply list_elem_of_filter).
    rewrite Hrows in Hin. by apply elem_of_nil in Hin.
  - assert (s ∈ statuses db ∧ status_id s = pk) as [Hs Hpk].
    { assert (s ∈ filter (fun s => status_id s = pk) (statuses db)) as Hin
        by (rewrite Hrows; left).
      apply list_elem_of_filter in Hin. tauto. }
    case_bool_decide as Hact; io_simpl.
    + eexists _, _. split; [reflexivity|]. simpl.
      split; [done|]. split; [done|]. split; [|split; [done|by intros [=]]].
      split; [by intros [=]|]. intros Hnone. by destruct (Hnone s Hs).
    + eexists _, _. split; [reflexivity|]. simpl.
      split; [done|]. split; [done|]. split; [|split; [done|]].
      * split; [by intros [=]|]. intros Hnone. by destruct (Hnone s Hs).
      * intros _. exists (mkAppointmentStatus (status_id s) (name s) None).
        split; [|done]. unfold get_queryset. apply list_elem_of_filter.
        split; [done|]. simpl.
        apply (list_elem_of_fmap (A:=AppointmentStatus)). exists s.
        by rewrite bool_decide_eq_true_2.
  - assert (s ∈ statuses db ∧ status_id s = pk) as [Hs Hpk].
    { assert (s ∈ filter (fun s => status_id s = pk) (statuses db)) as Hin
        by (rewrite Hrows; left).
      apply list_elem_of_filter in Hin. tauto. }
    eexists _, _. split; [reflexivity|]. simpl.
    split; [done|]. split; [done|]. split; [|split; [done|by intros [=]]].
    split; [by intros [=]|]. intros Hnone. by destruct (Hnone s Hs).
Qed.

End StatusRestore.

Section StatusExamples.
Import AppointmentStatusViewSet AppointmentStatusViewSetRest.

(** X19 on a key that no status has. *)
Lemma destroy_of_missing_status_is_500_witness :
  destroy 77 None 9 Concrete.with_statuses
  = (Concrete.with_statuses,
     Ret (response
            (BError "Error al eliminar el estado: No AppointmentStatus matches the given query.")
            HTTP_500_INTERNAL_SERVER_ERROR)).
Proof.
  apply destroy_of_missing_status_is_500. intros s Hs Hpk. exfalso.
  repeat (apply elem_of_cons in Hs as [->|Hs]; [discriminate Hpk|]).
  by apply elem_of_nil in Hs.
Defined.

(** X20: "Pendiente", which no appointment uses, after its [destroy]. *)
Lemma destroy_hides_the_status_witness :
  (destroy 77 None 5 (destroy 77 None 5 Concrete.with_statuses).1).2
  = Ret (response
           (BError "Error al eliminar el estado: No AppointmentStatus matches the given query.")
           HTTP_500_INTERNAL_SERVER_ERROR).
Proof.
  apply (destroy_hides_the_status 77 None Concrete.with_statuses _ 5
           (response (BMessage "Estado 'Pendiente' eliminado correctamente")
              HTTP_200_OK)).
  - vm_compute. reflexivity.
  - reflexivity.
Defined.

(** X21: "Pendiente" deleted and restored. *)
Lemma destroy_then_restore_witness :
  ∃ instance,
    instance ∈ statuses Concrete.with_statuses ∧ status_id instance = 5
    ∧ restore 5 (destroy 77 None 5 Concrete.with_statuses).1
      = (Concrete.with_statuses,
         Ret (action_response
                (ARestored ("Estado '" +:+ name instance
                            +:+ "' restaurado correctamente") instance)
                HTTP_200_OK)).
Proof.
  apply (destroy_then_restore 77 None Concrete.with_statuses _ 5
           (response (BMessage "Estado 'Pendiente' eliminado correctamente")
              HTTP_200_OK)).
  - apply (bool_decide_unpack _). vm_compute. exact I.
  - vm_compute. reflexivity.
  - reflexivity.
Defined.

End StatusExamples.

(** ** The reverse transform of the DIU-type migration *)

Section ReverseMigration.
Import Migration0011 Migration0011Reverse.

(** What the reverse transform makes of one row: an integer cell that is
    the key of a [DIUType] becomes that type's name. *)
#[local] Abbreviation named types r :=
  (match row_diu_type_id r with
   | CInt i =>
       match filter (fun t => id t = i) types with
       | [t] => mkRow (row_id r) (CStr (name t))
       | _ => r
       end
   | _ => r
   end).

Lemma map_agree {A B} (f g : A -> B) (l : list A) :
  (∀ x, x ∈ l -> f x = g x) -> map f l = map g l.
Proof.
  induction l as [|a l IH]; intros Hfg; [done|]. cbn [map].
  rewrite (Hfg a) by left. f_equal. apply IH. intros x Hx. apply Hfg. by right.
Qed.

Lemma tables_eta db : mkTables (rows db) (types db) = db.
Proof. by destruct db. Qed.

Lemma named_row_id types r : row_id (named types r) = row_id r.
Proof.
  destruct (row_diu_type_id r) as [|i|s]; [done| |done].
  by destruct (filter _ types) as [|t [|t' l]].
Qed.

Lemma revert_one_run h c db :
  NoDup (id <$> types db) ->
  revert_one h c db
  = (mkTables
       (map (fun r => if bool_decide (row_id r = h)
                      then match c with
                           | CInt i =>
                               match filter (fun t => id t = i) (types db) with
                               | [t] => mkRow (row_id r) (CStr (name t))
                               | _ => r
                               end
                           | _ => r
                           end
                      else r) (rows db))
       (types db), Ret tt).
Proof.
  intros Htypes.
  assert (∀ g : Row -> Row, (∀ r, g r = r) ->
            (db, Ret tt) = (mkTables (map g (rows db)) (types db), Ret tt))
    as Hsame.
  { intros g Hg. rewrite map_fixes by (intros; apply Hg). by rewrite tables_eta. }
  destruct c as [|i|s]; unfold revert_one.
  - apply Hsame. intros r. by case_bool_decide.
  - io_simpl.
    pose proof (filter_at_most_one id (fun t => id t = i) (types db) Htypes)
      as Hone.
    destruct (filter _ (types db)) as [|t [|t' l]]; io_simpl.
    + apply Hsame. intros r. by case_bool_decide.
    + done.
    + exfalso. simpl in Hone. assert (S (S (length l)) <= 1)%nat; [|lia].
      apply Hone. intros ? ? _ _ -> ->. done.
  - apply Hsame. intros r. by case_bool_decide.
Qed.

Lemma revert_all_run hs db :
  NoDup (id <$> types db) ->
  NoDup hs.*1 ->
  (∀ h c r, (h, c) ∈ hs -> r ∈ rows db -> row_id r = h ->
            row_diu_type_id r = c) ->
  revert_all hs db
  = (mkTables
       (map (fun r => if bool_decide (row_id r ∈ hs.*1)
                      then named (types db) r else r) (rows db))
       (types db), Ret tt).
Proof.
  revert db. induction hs as [|[h c] rest IH]; intros db Htypes Hkeys Hcells.
  - cbn [revert_all]. rewrite map_fixes; [by rewrite tables_eta|].
    intros r _. rewrite bool_decide_eq_false_2; [done|]. apply not_elem_of_nil.
  - rewrite fmap_cons in Hkeys. apply NoDup_cons in Hkeys as [Hfresh Hkeys].
    cbn [revert_all]. unfold mbind, io_mbind, io_bind.
    rewrite revert_one_run by done.
    set (g := fun r : Row => if bool_decide (row_id r = h) then _ else r).
    assert (∀ r, row_id (g r) = row_id r) as Hg_id.
    { intros r. unfold g. case_bool_decide; [|done].
      destruct c as [|i|s]; [done| |done].
      by destruct (filter _ (types db)) as [|t [|t' l]]. }
    rewrite IH; [|done|done|].
    2:{ cbn [rows types]. intros h' c' r1 Hin Hr1 Hid.
        apply (list_elem_of_fmap (A:=Row)) in Hr1 as (r & -> & Hr).
        rewrite Hg_id in Hid.
        assert (row_id r ≠ h) as Hne.
        { intros Heq. apply Hfresh. rewrite <- Heq, Hid.
          apply (list_elem_of_fmap_2 fst _ (h', c')). exact Hin. }
        unfold g. rewrite bool_decide_eq_false_2 by done.
        apply (Hcells h' c'); [by right|done|done]. }
    cbn [rows types]. rewrite map_map. f_equal. f_equal.
    apply map_agree. intros r Hr. rewrite Hg_id.
    destruct (decide (row_id r = h)) as [Hh|Hh].
    + rewrite (bool_decide_eq_false_2 (row_id r ∈ rest.*1))
        by (by rewrite Hh).
      rewrite (bool_decide_eq_true_2 (row_id r ∈ ((h, c) :: rest).*1))
        by (rewrite fmap_cons, Hh; left).
      unfold g. rewrite bool_decide_eq_true_2 by done.
      rewrite (Hcells h c r); [done|left|done|done].
    + unfold g. rewrite (bool_decide_eq_false_2 (row_id r = h)) by done.
      rewrite (bool_decide_ext (row_id r ∈ rest.*1)
                 (row_id r ∈ ((h, c) :: rest).*1)); [done|].
      rewrite fmap_cons, elem_of_cons. simpl. tauto.
Qed.

(** The rows the transform fetches carry their current cells. *)
Lemma select_not_null_cells db :
  NoDup (row_id <$> rows db) ->
  NoDup (select_not_null db).*1
  ∧ (∀ h c r, (h, c) ∈ select_not_null db -> r ∈ rows db -> row_id r = h ->
              row_diu_type_id r = c)
  ∧ (∀ r, r ∈ rows db -> row_diu_type_id r ≠ CNull ->
          row_id r ∈ (select_not_null db).*1).
Proof.
  intros Hkeys. unfold select_not_null. split; [|split].
  - rewrite <- list_fmap_compose.
    by apply (NoDup_fmap_filter row_id).
  - intros h c r Hin Hr Hid.
    apply list_elem_of_fmap in Hin as (r0 & [= -> ->] & Hr0).
    apply list_elem_of_filter in Hr0 as [_ Hr0].
    by rewrite (NoDup_fmap_same_key row_id (rows db) r r0).
  - intros r Hr Hcell. rewrite <- list_fmap_compose.
    apply list_elem_of_fmap. exists r. split; [done|].
    by apply list_elem_of_filter.
Qed.

Lemma reverse_migrate_run db :
  NoDup (row_id <$> rows db) ->
  NoDup (id <$> types db) ->
  reverse_migrate_diu_type_data db
  = (mkTables (map (fun r => named (types db) r) (rows db)) (types db), Ret tt).
Proof.
  intros Hrows Htypes.
  destruct (select_not_null_cells db Hrows) as (Hkeys & Hcells & Hall).
  unfold reverse_migrate_diu_type_data. unfold mbind, io_mbind, io_bind, query.
  cbn [result_ret mret]. rewrite revert_all_run by done.
  f_equal. f_equal. apply map_agree. intros r Hr.
  case_bool_decide as Hin; [done|].
  destruct (row_diu_type_id r) as [|i|s] eqn:Hcell; [done| |done].
  destruct Hin. apply Hall; [done|]. by rewrite Hcell.
Qed.

Lemma Forall2_map_self {A} (P : A -> A -> Prop) (f : A -> A) (l : list A) :
  (∀ x, x ∈ l -> P x (f x)) -> Forall2 P l (map f l).
Proof.
  induction l as [|a l IH]; intros HP; [constructor|]. cbn [map].
  constructor; [apply HP; left|]. apply IH. intros x Hx. apply HP. by right.
Qed.

Lemma revert_all_no_int hs db :
  (∀ h c, (h, c) ∈ hs -> ∀ i, c ≠ CInt i) -> revert_all hs db = (db, Ret tt).
Proof.
  induction hs as [|[h c] rest IH]; intros Hcells; [done|].
  cbn [revert_all]. unfold mbind, io_mbind, io_bind.
  assert (revert_one h c db = (db, Ret tt)) as ->.
  { destruct c as [|i|s]; [done| |done]. by destruct (Hcells h (CInt i) ltac:(left) i). }
  apply IH. intros h' c' Hin. apply (Hcells h' c'). by right.
Qed.

(** X23. With unique keys in both tables the reverse transform succeeds
    and leaves the [DIUType] table alone. Row by row: an integer cell that
    is the key of a [DIUType] is replaced by that type's name; an integer
    cell without a [DIUType], a text cell and a NULL cell stay as they
    are. *)
Theorem reverse_restores_names db :
  NoDup (row_id <$> rows db) ->
  NoDup (id <$> types db) ->
  ∃ db',
    reverse_migrate_diu_type_data db = (db', Ret tt)
    ∧ types db' = types db
    ∧ Forall2
        (fun r r' =>
           row_id r' = row_id r
           ∧ match row_diu_type_id r with
             | CInt i =>
                 (∀ t, t ∈ types db -> id t = i ->
                       row_diu_type_id r' = CStr (name t))
                 ∧ ((∀ t, t ∈ types db -> id t ≠ i) -> r' = r)
             | _ => r' = r
             end)
        (rows db) (rows db').
Proof.
  intros Hrows Htypes. rewrite reverse_migrate_run by done.
  eexists. split; [reflexivity|]. split; [done|]. cbn [rows].
  apply Forall2_map_self. intros r _. split; [apply named_row_id|].
  destruct (row_diu_type_id r) as [|i|s]; [done| |done].
  pose proof (filter_at_most_one id (fun t => id t = i) (types db) Htypes)
    as Hone.
  destruct (filter _ (types db)) as [|t0 [|t1 l]] eqn:Hfound.
  - split; [|done]. intros t Ht Hid.
    assert (t ∈ filter (fun t => id t = i) (types db)) as Hin
      by (by apply list_elem_of_filter).
    rewrite Hfound in Hin. by apply elem_of_nil in Hin.
  - assert (t0 ∈ types db ∧ id t0 = i) as [Ht0 Hid0].
    { assert (t0 ∈ filter (fun t => id t = i) (types db)) as Hin
        by (rewrite Hfound; left).
      apply list_elem_of_filter in Hin. tauto. }
    split.
    + intros t Ht Hid. simpl.
      by rewrite (NoDup_fmap_same_key id (types db) t t0) by congruence.
    + intros Hnone. by destruct (Hnone t0 Ht0).
  - exfalso. simpl in Hone. assert (S (S (length l)) <= 1)%nat; [|lia].
    apply Hone. intros ? ? _ _ -> ->. done.
Qed.

(** X24. The reverse transform is idempotent: run on its own result it
    changes nothing. *)
Theorem reverse_twice_is_reverse_once db :
  NoDup (row_id <$> rows db) ->
  NoDup (id <$> types db) ->
  reverse_migrate_diu_type_data (reverse_migrate_diu_type_data db).1
  = ((reverse_migrate_diu_type_data db).1, Ret tt).
Proof.
  intros Hrows Htypes. rewrite (reverse_migrate_run db) by done. cbn [fst].
  rewrite reverse_migrate_run; cbn [rows types]; [|
    |done].
  - rewrite map_map. f_equal. f_equal. apply map_agree. intros r _.
    destruct (row_diu_type_id r) as [|i|s] eqn:Hcell;
      [by rewrite Hcell| |by rewrite Hcell].
    destruct (filter (fun t => id t = i) (types db)) as [|t0 [|t1 l]] eqn:Hfound;
      [by rewrite Hcell, Hfound|done|by rewrite Hcell, Hfound].
  - replace (row_id <$> map (fun r => named (types db) r) (rows db))
      with (row_id <$> rows db); [done|].
    symmetry. etrans; [apply (map_map _ row_id)|].
    apply map_agree. intros r _. apply named_row_id.
Qed.

(** X25. A column that holds text (every cell a string or NULL, as the
    forward transform reads and leaves it) is not touched by the reverse
    transform: the keys the forward transform wrote are strings there, and
    the reverse transform only converts integers. *)
Theorem reverse_leaves_text_untouched (db : Migration0011.Store) :
  reverse_migrate_diu_type_data (of_text db) = (of_text db, Ret tt)
  ∧ (let migrated := (migrate_diu_type_data db).1 in
     reverse_migrate_diu_type_data (of_text migrated)
     = (of_text migrated, Ret tt)).
Proof.
  assert (∀ db : Migration0011.Store,
            reverse_migrate_diu_type_data (of_text db) = (of_text db, Ret tt))
    as Htext; [|by split].
  clear db. intros db.
  unfold reverse_migrate_diu_type_data. unfold mbind, io_mbind, io_bind, query.
  cbn [result_ret mret]. apply revert_all_no_int.
  intros h c Hin i ->. unfold select_not_null, of_text in Hin. cbn [rows] in Hin.
  apply list_elem_of_fmap in Hin as (r & [= _ Hcell] & Hr).
  apply list_elem_of_filter in Hr as [_ Hr].
  apply list_elem_of_fmap in Hr as (h0 & -> & _). simpl in Hcell.
  by destruct (diu_type_id h0).
Qed.

End ReverseMigration.

(** ** The forward transform of the DIU-type migration, row by row *)

Section ForwardMigration.
Import Migration0011.

(** What the second loop makes of one history: a value of the list becomes
    the decimal writing of the key the mapping holds for it. *)
#[local] Abbreviation linked values mapping h :=
  (match diu_type_id h with
   | Some v =>
       if bool_decide (v ∈ values)
       then match mapping !! v with
            | Some i => mkHistory (history_id h) (Some (pretty i))
            | None => h
            end
       else h
   | None => h
   end).

Lemma store_eta db : mkStore (histories db) (diu_types db) (next_id db) = db.
Proof. by destruct db. Qed.

Lemma filter_map_length {A} (P Q : A -> Prop)
    `{!∀ x, Decision (P x), !∀ x, Decision (Q x)} (f : A -> A) (l : list A) :
  (∀ x, x ∈ l -> P (f x) <-> Q x) ->
  length (filter P (map f l)) = length (filter Q l).
Proof.
  induction l as [|a l IH]; intros HPQ; [done|]. cbn [map].
  rewrite !filter_cons.
  specialize (IH (fun x Hx => HPQ x (list_elem_of_further _ _ _ Hx))).
  destruct (HPQ a (list_elem_of_here _ _)) as [H1 H2].
  destruct (decide (P (f a))), (decide (Q a)); simpl; auto; tauto.
Qed.

(** The first character of a decimal writing is a digit or the sign. *)
Lemma pretty_N_go_head (x : N) (s : string) :
  (0 < x)%N ->
  match pretty_N_go x s with
  | String c _ => (48 <= Ascii.nat_of_ascii c <= 57)%nat
  | EmptyString => False
  end.
Proof.
  revert s. induction (N.lt_wf_0 x) as [x _ IH]. intros s Hx.
  rewrite pretty_N_go_step by done.
  destruct (decide (x `div` 10 = 0)%N) as [->|Hdiv].
  - rewrite pretty_N_go_0. unfold pretty_N_char.
    repeat case_match; vm_compute; lia.
  - apply IH; [apply N.div_lt; lia|by apply N.neq_0_lt_0].
Qed.

Lemma pretty_Z_head (i : Z) :
  match pretty i with
  | String c _ =>
      (48 <= Ascii.nat_of_ascii c <= 57)%nat ∨ Ascii.nat_of_ascii c = 45%nat
  | EmptyString => False
  end.
Proof.
  destruct i as [|q|q].
  - left. vm_compute. lia.
  - unfold pretty, pretty_Z, pretty, pretty_positive, pretty, pretty_N.
    rewrite decide_False by done.
    pose proof (pretty_N_go_head (N.pos q) "" ltac:(lia)) as Hhead.
    destruct (pretty_N_go (N.pos q) ""); [done|by left].
  - by right.
Qed.

Lemma get_or_create_named value db :
  NoDup (name <$> diu_types db) ->
  ∃ t created db',
    get_or_create value db = (db', Ret (t, created))
    ∧ histories db' = histories db
    ∧ NoDup (name <$> diu_types db')
    ∧ diu_types db `prefix_of` diu_types db'
    ∧ t ∈ diu_types db' ∧ name t = value.
Proof.
  intros Hnames. unfold get_or_create.
  destruct (filter (fun t => name t = value) (diu_types db))
    as [|t [|t' l]] eqn:Hf.
  - eexists _, _, _. split; [reflexivity|]. split; [done|]. simpl.
    split; [|split; [by eexists|split; [|done]]].
    + rewrite fmap_app. apply NoDup_app. split; [done|]. split.
      * intros v (x & -> & Hx)%list_elem_of_fmap Hv.
        apply list_elem_of_singleton in Hv. simpl in Hv.
        by apply (filter_nil_not_elem_of _ _ x Hf).
      * apply NoDup_singleton.
    + apply elem_of_app. right. left.
  - assert (t ∈ filter (fun t => name t = value) (diu_types db)) as Ht
      by (rewrite Hf; left).
    apply list_elem_of_filter in Ht as [Hname Ht].
    eexists _, _, _. split; [reflexivity|]. by repeat split.
  - exfalso.
    pose proof (filter_at_most_one name (fun t => name t = value)
                  (diu_types db) Hnames) as Hone.
    rewrite Hf in Hone. simpl in Hone.
    assert (S (S (length l)) <= 1)%nat; [|lia].
    apply Hone. intros x y _ _ Hx Hy. congruence.
Qed.

(** The first loop keeps the mapping in step with the table: every key it
    holds is the key of the [DIUType] named after the value. *)
Lemma create_types_named values mapping db :
  NoDup (name <$> diu_types db) ->
  (∀ v i, mapping !! v = Some i ->
          ∃ t, t ∈ diu_types db ∧ name t = v ∧ id t = i) ->
  ∃ db' mapping',
    create_types values mapping db = (db', Ret mapping')
    ∧ histories db' = histories db
    ∧ NoDup (name <$> diu_types db')
    ∧ diu_types db `prefix_of` diu_types db'
    ∧ (∀ v i, mapping' !! v = Some i ->
              ∃ t, t ∈ diu_types db' ∧ name t = v ∧ id t = i)
    ∧ (∀ v, v ∈ values -> is_Some (mapping' !! v))
    ∧ (∀ v, is_Some (mapping !! v) -> is_Some (mapping' !! v)).
Proof.
  revert mapping db.
  induction values as [|value rest IH]; intros mapping db Hnames Hmap.
  - eexists _, _. split; [reflexivity|]. repeat split; try done.
    intros v Hv. by apply elem_of_nil in Hv.
  - destruct (get_or_create_named value db Hnames)
      as (t & created & db1 & Hgoc & Hh1 & Hn1 & Hpre1 & Ht & Hname).
    destruct (IH (<[value := id t]> mapping) db1 Hn1)
      as (db' & mapping' & Hrest & Hh & Hn & Hpre & Hmap' & Hin & Hkeep).
    { intros v i. destruct (decide (value = v)) as [<-|Hne].
      - rewrite lookup_insert_eq. intros [= <-]. by exists t.
      - rewrite lookup_insert_ne by done. intros Hv.
        destruct (Hmap v i Hv) as (t0 & Ht0 & Hrest0).
        exists t0. split; [|done].
        destruct Hpre1 as [k ->]. apply elem_of_app. by left. }
    exists db', mapping'.
    split; [|split; [|split; [|split; [|split; [|split]]]]].
    + cbn [create_types]. io_simpl. rewrite Hgoc. exact Hrest.
    + congruence.
    + done.
    + by etrans.
    + done.
    + intros v [->|Hv]%elem_of_cons; [|by apply Hin].
      apply Hkeep. rewrite lookup_insert_eq. by eexists.
    + intros v Hv. apply Hkeep.
      destruct (decide (value = v)) as [->|Hne].
      * rewrite lookup_insert_eq. by eexists.
      * by rewrite lookup_insert_ne.
Qed.

(** The second loop on values none of which is a decimal writing: every
    history is rewritten at most once, and each count is the number of
    histories that carried the value. *)
Lemma update_all_exact values mapping db :
  NoDup values ->
  (∀ v, v ∈ values -> is_Some (mapping !! v)) ->
  (∀ v (i : Z), v ∈ values -> v ≠ pretty i) ->
  update_all values mapping db
  = (mkStore (map (fun h => linked values mapping h) (histories db))
       (diu_types db) (next_id db),
     Ret (map (fun v => length (filter (fun h => diu_type_id h = Some v)
                                  (histories db))) values)).
Proof.
  revert db. induction values as [|v vs IH]; intros db Hnd Hmap Hplain.
  - cbn [update_all map]. rewrite map_fixes; [by rewrite store_eta|].
    intros h _. destruct (diu_type_id h) as [w|]; [|done].
    rewrite bool_decide_eq_false_2; [done|]. apply not_elem_of_nil.
  - apply NoDup_cons in Hnd as [Hfresh Hnd].
    destruct (Hmap v) as [i Hi]; [left|].
    cbn [update_all]. rewrite Hi. unfold mbind, io_mbind, io_bind.
    unfold update_histories at 1. cbv beta iota.
    rewrite IH; [|done|intros w Hw; apply Hmap; by right
                 |intros w j Hw; apply Hplain; by right].
    cbn [histories diu_types next_id]. unfold mret, io_mret, io_ret.
    f_equal; [f_equal|f_equal].
    + rewrite map_map. apply map_agree. intros h _.
      destruct (diu_type_id h) as [w|] eqn:Hw.
      * case_bool_decide as Hv.
        -- simplify_eq. cbn [diu_type_id history_id].
           rewrite (bool_decide_eq_false_2 (pretty i ∈ vs)).
           2:{ intros Hin. by apply (Hplain (pretty i) i); [right|]. }
           rewrite bool_decide_eq_true_2 by left. by rewrite Hi.
        -- rewrite Hw.
           rewrite (bool_decide_ext (w ∈ vs) (w ∈ v :: vs)); [done|].
           rewrite elem_of_cons. split; [tauto|]. intros [->|?]; [|done].
           by destruct Hv.
      * rewrite bool_decide_eq_false_2 by done. by rewrite Hw.
    + cbn [map]. f_equal. apply map_agree. intros w Hw.
      apply filter_map_length. intros h _.
      case_bool_decide as Hv; [|done]. cbn [diu_type_id]. split.
      * intros [= Heq]. destruct (Hplain w i); [by right|done].
      * intros Hh. rewrite Hv in Hh. simplify_eq. done.
Qed.

(** X26. On a table with unique [DIUType] names, and when no value found in
    the histories is itself the decimal writing of an integer, the forward
    transform succeeds in whatever order the cursor returns the distinct
    values. [migrate_diu_type_data] is the two loops run on that list, and
    for every list [values] of the same values: existing [DIUType] rows
    stay and the names stay unique; NULL and empty cells are left alone;
    every other cell is replaced by the decimal writing of the key of the
    [DIUType] named after its value; and the count reported for a value is
    the number of histories that carried it. *)
Theorem migrate_links_every_history db :
  NoDup (name <$> diu_types db) ->
  (∀ v (i : Z), v ∈ select_distinct db -> v ≠ pretty i) ->
  let loops values :=
    diu_type_mapping ← create_types values ∅;
    update_all values diu_type_mapping in
  migrate_diu_type_data db = loops (select_distinct db) db
  ∧ ∀ values,
      values ≡ₚ select_distinct db ->
      ∃ db' counts,
        loops values db = (db', Ret counts)
        ∧ diu_types db `prefix_of` diu_types db'
        ∧ NoDup (name <$> diu_types db')
        ∧ Forall2
            (fun h h' =>
               history_id h' = history_id h
               ∧ match diu_type_id h with
                 | None => diu_type_id h' = None
                 | Some v =>
                     if decide (v = EmptyString) then diu_type_id h' = Some v
                     else ∃ t, t ∈ diu_types db' ∧ name t = v
                               ∧ diu_type_id h' = Some (pretty (id t))
                 end)
            (histories db) (histories db')
        ∧ Forall2
            (fun v c => c = length (filter (fun h => diu_type_id h = Some v)
                                      (histories db)))
            values counts.
Proof.
  intros Hnames Hplain loops. split; [done|]. intros values Hperm.
  assert (∀ v, v ∈ values <-> v ∈ select_distinct db) as Hsame
    by (intros v; by rewrite Hperm).
  destruct (create_types_named values ∅ db Hnames)
    as (db1 & mapping & Hcreate & Hh1 & Hn1 & Hpre & Hmap & Hin & _).
  { intros v i Hv. by rewrite lookup_empty in Hv. }
  eexists _, _. split; [|split; [|split; [|split]]].
  - unfold loops. unfold mbind, io_mbind, io_bind. rewrite Hcreate.
    apply update_all_exact; [|done|].
    + rewrite Hperm. unfold select_distinct. apply NoDup_distinct.
    + intros v i Hv. apply Hplain. by apply Hsame.
  - done.
  - done.
  - cbn [histories]. rewrite Hh1. apply Forall2_map_self. intros h Hh.
    destruct (diu_type_id h) as [v|] eqn:Hv; [|by rewrite Hv].
    case_bool_decide as Hsel.
    + pose proof (select_distinct_nonempty _ _ (proj1 (Hsame v) Hsel)) as Hne.
      rewrite decide_False by done.
      destruct (Hin v Hsel) as [i Hi]. rewrite Hi.
      destruct (Hmap v i Hi) as (t & Ht & Hname & <-).
      split; [done|]. by exists t.
    + rewrite Hv. split; [done|].
      destruct (decide (v = EmptyString)) as [->|Hne]; [done|].
      destruct Hsel. apply Hsame.
      assert (diu_type_id h ∈ Some <$> select_distinct db) as Hcov.
      { apply select_distinct_covers; [done|]. unfold nonempty. by rewrite Hv. }
      rewrite Hv in Hcov.
      by apply list_elem_of_fmap in Hcov as (w & [= ->] & Hw).
  - rewrite Hh1. clear. induction values as [|v vs IH]; constructor; done.
Qed.

End ForwardMigration.

Section MigrationEdgesExamples.
Import Migration0011 Migration0011Reverse.

(** X23 on a table with a linked row, a NULL, a text cell and a dangling
    key. *)
Lemma reverse_restores_names_witness :
  ∃ db',
    reverse_migrate_diu_type_data
      (mkTables [mkRow 10 (CInt 1); mkRow 11 CNull; mkRow 12 (CStr "Cobre");
                 mkRow 13 (CInt 9)] [mkDIUType 1 "Cobre"])
    = (db', Ret tt)
    ∧ types db' = [mkDIUType 1 "Cobre"].
Proof.
  destruct (reverse_restores_names
              (mkTables [mkRow 10 (CInt 1); mkRow 11 CNull; mkRow 12 (CStr "Cobre");
                         mkRow 13 (CInt 9)] [mkDIUType 1 "Cobre"]))
    as (db' & Hrun & Htypes & _).
  - apply (bool_decide_unpack _). vm_compute. exact I.
  - apply (bool_decide_unpack _). vm_compute. exact I.
  - exists db'. split; assumption.
Defined.

(** X24 on the same table. *)
Lemma reverse_twice_is_reverse_once_witness :
  reverse_migrate_diu_type_data
    (reverse_migrate_diu_type_data
       (mkTables [mkRow 10 (CInt 1); mkRow 11 CNull; mkRow 12 (CStr "Cobre");
                  mkRow 13 (CInt 9)] [mkDIUType 1 "Cobre"])).1
  = ((reverse_migrate_diu_type_data
        (mkTables [mkRow 10 (CInt 1); mkRow 11 CNull; mkRow 12 (CStr "Cobre");
                   mkRow 13 (CInt 9)] [mkDIUType 1 "Cobre"])).1, Ret tt).
Proof.
  apply reverse_twice_is_reverse_once.
  - apply (bool_decide_unpack _). vm_compute. exact I.
  - apply (bool_decide_unpack _). vm_compute. exact I.
Defined.

(** X26 on the mixed table, the values taken in either order: three
    histories are updated, two of them for "Cobre". *)
Lemma migrate_links_every_history_witness :
  (∃ db' counts,
     migrate_diu_type_data Histories.mixed = (db', Ret counts)
     ∧ counts ≡ₚ [1; 2]%nat)
  ∧ (∃ db' counts,
       (diu_type_mapping ← create_types ["Hormonal"; "Cobre"] ∅;
        update_all ["Hormonal"; "Cobre"] diu_type_mapping) Histories.mixed
       = (db', Ret counts)
       ∧ counts = [1; 2]%nat).
Proof.
  destruct (migrate_links_every_history Histories.mixed) as [Hrun Hany].
  - vm_compute. constructor.
  - intros v i Hv Heq. vm_compute in Hv.
    pose proof (pretty_Z_head i) as Hhead. rewrite <- Heq in Hhead.
    repeat (apply elem_of_cons in Hv as [->|Hv];
            [vm_compute in Hhead; lia|]).
    by apply elem_of_nil in Hv.
  - split.
    + destruct (Hany (select_distinct Histories.mixed))
        as (db' & counts & Hloops & _ & _ & _ & Hcounts); [done|].
      exists db', counts. split; [by rewrite Hrun|].
      assert (select_distinct Histories.mixed = ["Cobre"; "Hormonal"]) as Hsel
        by (vm_compute; reflexivity).
      rewrite Hsel in Hcounts.
      apply Forall2_cons_inv_l in Hcounts as (c1 & cs1 & Hc1 & Hcounts & ->).
      apply Forall2_cons_inv_l in Hcounts as (c2 & cs2 & Hc2 & Hcounts & ->).
      apply Forall2_nil_inv_l in Hcounts as ->.
      vm_compute in Hc1, Hc2. subst c1 c2. apply Permutation_swap.
    + destruct (Hany ["Hormonal"; "Cobre"])
        as (db' & counts & Hloops & _ & _ & _ & Hcounts).
      { vm_compute. apply Permutation_swap. }
      exists db', counts. split; [exact Hloops|].
      apply Forall2_cons_inv_l in Hcounts as (c1 & cs1 & Hc1 & Hcounts & ->).
      apply Forall2_cons_inv_l in Hcounts as (c2 & cs2 & Hc2 & Hcounts & ->).
      apply Forall2_nil_inv_l in Hcounts as ->.
      vm_compute in Hc1, Hc2. by subst c1 c2.
Defined.

End MigrationEdgesExamples.
